(** * Messaging and presence subsystem of hack2rank

    A shallow embedding of the chat, presence and user-search handlers of
    the [Messages] component ([src/components/Explore.tsx], second
    document) together with the part of the hosted real-time store they
    read and write, followed by the properties the specification states
    about them.  The like button of the post list and the notification
    provider are embedded as well.

    Handlers are written in a small state-and-exception monad [M]: the
    state is the component's React state plus the remote store, an
    exception is a rejected promise, and the environment supplies what the
    backend and the JS runtime decide (whether a request is accepted, the
    clock, generated push ids, query results, locale-aware string
    functions). *)

From Stdlib Require Import ZArith String Ascii.
From Stdlib Require DecimalString.
From stdpp Require Import base option list sorting gmap sets strings.

Local Open Scope Z_scope.
Local Open Scope list_scope.

(** ** JavaScript strings

    A JS string is a sequence of UTF-16 code units. *)

Abbreviation jsstring := (list N).

(** [js "abc"] is the JS string with the code units of an ASCII literal. *)
Definition js (s : string) : jsstring :=
  map N_of_ascii (list_ascii_of_string s).

(** ECMAScript [WhiteSpace] and [LineTerminator] code units, the ones
    [String.prototype.trim] strips. *)
Definition isWhiteSpace (c : N) : bool :=
  existsb (N.eqb c)
    [9; 10; 11; 12; 13; 32; 160; 5760; 8232; 8233; 8239; 8287; 12288; 65279]%N
  || ((8192 <=? c)%N && (c <=? 8202)%N).

Fixpoint trimStart (s : jsstring) : jsstring :=
  match s with
  | c :: s' => if isWhiteSpace c then trimStart s' else s
  | [] => []
  end.

Definition trimEnd (s : jsstring) : jsstring := rev (trimStart (rev s)).

Definition trim (s : jsstring) : jsstring := trimEnd (trimStart s).

(** Truthiness of a string: [!s] holds exactly for the empty string. *)
Definition falsy (s : jsstring) : bool :=
  match s with [] => true | _ => false end.

Fixpoint startsWith (s p : jsstring) : bool :=
  match p, s with
  | [], _ => true
  | _ :: _, [] => false
  | a :: p', b :: s' => (a =? b)%N && startsWith s' p'
  end.

Fixpoint includes (s p : jsstring) : bool :=
  startsWith s p ||
  match s with
  | [] => false
  | _ :: s' => includes s' p
  end.

(** The [<] of two strings: lexicographic on code units, a proper prefix
    first. *)
Fixpoint str_lt (x y : jsstring) : bool :=
  match x, y with
  | _, [] => false
  | [], _ :: _ => true
  | a :: x', b :: y' => (a <? b)%N || ((a =? b)%N && str_lt x' y')
  end.

(** The comparator [Array.prototype.sort] uses when called without an
    argument on an array of strings. *)
Definition defaultCompare (x y : jsstring) : Z :=
  if str_lt x y then -1 else if str_lt y x then 1 else 0.

Fixpoint join (sep : jsstring) (l : list jsstring) : jsstring :=
  match l with
  | [] => []
  | [x] => x
  | x :: l' => x ++ sep ++ join sep l'
  end.

(** Decimal rendering of an integer, as a template literal prints it. *)
Definition showZ (z : Z) : jsstring :=
  js (DecimalString.NilZero.string_of_int (Z.to_int z)).

(** ** Arrays

    [Array.prototype.sort] with a comparator.  The language requires the
    sort to be stable and, for a consistent comparator, leaves no other
    freedom; insertion from the right is that sort. *)
Section Sort.
Context {A : Type} (cmp : A → A → Z).

Fixpoint insertSorted (x : A) (l : list A) : list A :=
  match l with
  | [] => [x]
  | y :: l' => if cmp x y <=? 0 then x :: l else y :: insertSorted x l'
  end.

Fixpoint sortWith (l : list A) : list A :=
  match l with
  | [] => []
  | x :: l' => insertSorted x (sortWith l')
  end.
End Sort.

(** [arr.slice(0, n)] *)
Definition slice0 {A} (n : nat) (l : list A) : list A := take n l.

(** [arr.find(p)] is [List.find p arr]. *)

(** [arr.includes(x)] on an array of strings. *)
Definition arrIncludes (l : list jsstring) (x : jsstring) : bool :=
  bool_decide (x ∈ l).

(** [arr.filter(p => p !== x)] *)
Definition without (x : jsstring) (l : list jsstring) : list jsstring :=
  List.filter (fun p => negb (bool_decide (p = x))) l.

(** ** Data model ([src/types]) *)

Inductive ChatType := individual | group.

Inductive MessageType := text | image | file.

Record Details := {
  name : jsstring;
  avatar : option jsstring
}.

Record LastMessage := {
  lm_content : jsstring;
  lm_timestamp : Z;
  lm_senderId : jsstring;
  lm_senderName : jsstring
}.

(** A [Chat] as the component holds it in [chats] and [activeChat]. *)
Record Chat := {
  chat_id : jsstring;
  chat_type : ChatType;
  participants : list jsstring;
  participantDetails : gmap jsstring Details;
  admins : option (list jsstring);
  createdBy : option jsstring;
  lastMessage : option LastMessage;
  chat_name : option jsstring;
  createdAt : Z;
  updatedAt : Z
}.

(** The user of the auth context: [currentUser.uid] and the [userData]
    fields the handlers read; also a node [users/<id>] of the real-time
    store.  [photoURL] is [None] for [null] in [userData]; the store keeps
    no [null], so in a [users/<id>] node [None] is an absent field, which
    reads as [undefined]. *)
Record User := {
  displayName : jsstring;
  photoURL : option jsstring
}.

(** A document of the [users] collection as the search reads it. *)
Record UserDoc := {
  doc_id : jsstring;
  doc_displayName : option jsstring;
  doc_username : option jsstring;
  doc_email : option jsstring;
  doc_photoURL : option jsstring
}.

(** [timestamp: serverTimestamp()] is a placeholder the server fills in. *)
Inductive Timestamp := ServerTimestamp.

(** The payload [sendMessage] pushes. *)
Record MessageData := {
  senderId : jsstring;
  senderName : jsstring;
  senderAvatar : option jsstring;
  content : jsstring;
  timestamp : Timestamp;
  msg_type : MessageType;
  chatId : jsstring
}.

(** ** The real-time store

    The tree under [chats/], [messages/], [userChats/], [status/] and
    [users/].  A node exists when it has a child, so every field of a
    stored chat or status node is optional and an empty array or object
    is the same as an absent one. *)

Record ChatNode := {
  n_type : option ChatType;
  n_participants : list jsstring;
  n_participantDetails : gmap jsstring Details;
  n_admins : list jsstring;
  n_createdBy : option jsstring;
  n_lastMessage : option LastMessage;
  n_name : option jsstring;
  n_createdAt : option Z;
  n_updatedAt : option Z
}.

Definition emptyChatNode : ChatNode :=
  {| n_type := None; n_participants := []; n_participantDetails := ∅;
     n_admins := []; n_createdBy := None; n_lastMessage := None;
     n_name := None; n_createdAt := None; n_updatedAt := None |}.

Record StatusNode := {
  s_isOnline : option bool;
  s_lastSeen : option Z;
  s_uid : option jsstring
}.

Definition emptyStatusNode : StatusNode :=
  {| s_isOnline := None; s_lastSeen := None; s_uid := None |}.

Record DB := {
  db_chats : gmap jsstring ChatNode;
  db_messages : gmap jsstring (gmap jsstring MessageData);
  db_userChats : gset (jsstring * jsstring);
  db_status : gmap jsstring StatusNode;
  db_users : gmap jsstring User
}.

Definition with_chats (f : gmap jsstring ChatNode → gmap jsstring ChatNode)
    (d : DB) : DB :=
  {| db_chats := f (db_chats d); db_messages := db_messages d;
     db_userChats := db_userChats d; db_status := db_status d; db_users := db_users d |}.

Definition with_messages
    (f : gmap jsstring (gmap jsstring MessageData) →
         gmap jsstring (gmap jsstring MessageData)) (d : DB) : DB :=
  {| db_chats := db_chats d; db_messages := f (db_messages d);
     db_userChats := db_userChats d; db_status := db_status d; db_users := db_users d |}.

Definition with_userChats
    (f : gset (jsstring * jsstring) → gset (jsstring * jsstring)) (d : DB) : DB :=
  {| db_chats := db_chats d; db_messages := db_messages d;
     db_userChats := f (db_userChats d); db_status := db_status d; db_users := db_users d |}.

Definition with_status
    (f : gmap jsstring StatusNode → gmap jsstring StatusNode) (d : DB) : DB :=
  {| db_chats := db_chats d; db_messages := db_messages d;
     db_userChats := db_userChats d; db_status := f (db_status d); db_users := db_users d |}.

(** The message log of a chat, [messages/<chatId>]. *)
Definition messageLog (d : DB) (c : jsstring) : gmap jsstring MessageData :=
  default ∅ (db_messages d !! c).

(** The node at [chats/<id>], the empty node when there is none. *)
Definition chatNode (m : gmap jsstring ChatNode) (c : jsstring) : ChatNode :=
  default emptyChatNode (m !! c).

Definition statusNode (m : gmap jsstring StatusNode) (u : jsstring) : StatusNode :=
  default emptyStatusNode (m !! u).

(** *** Writes

    What each request does to the tree once the backend accepts it. *)

(** [set(ref(db, `chats/${c}`), node)] *)
Definition set_chat (c : jsstring) (node : ChatNode) : DB → DB :=
  with_chats (<[c := node]>).

(** [update(ref(db, `chats/${c}`), patch)]: the named children are
    replaced, the others kept; a missing node is created. *)
Definition update_chat (c : jsstring) (patch : ChatNode → ChatNode) : DB → DB :=
  with_chats (fun m => <[c := patch (chatNode m c)]> m).

(** [remove(ref(db, `chats/${c}`))] *)
Definition remove_chat (c : jsstring) : DB → DB :=
  with_chats (delete c).

(** [remove(ref(db, `messages/${c}`))] *)
Definition remove_messages (c : jsstring) : DB → DB :=
  with_messages (delete c).

(** [push(ref(db, `messages/${c}`), data)] with generated key [k]. *)
Definition push_message (c k : jsstring) (data : MessageData) : DB → DB :=
  with_messages (fun m => <[c := <[k := data]> (default ∅ (m !! c))]> m).

(** [set(ref(db, `userChats/${u}/${c}`), true)] *)
Definition set_userChat (u c : jsstring) : DB → DB :=
  with_userChats (fun s => {[(u, c)]} ∪ s).

(** [remove(ref(db, `userChats/${u}/${c}`))] *)
Definition remove_userChat (u c : jsstring) : DB → DB :=
  with_userChats (fun s => s ∖ {[(u, c)]}).

(** [set(ref(db, `status/${u}`), node)] *)
Definition set_status (u : jsstring) (node : StatusNode) : DB → DB :=
  with_status (<[u := node]>).

(** [set(ref(db, `status/${u}/isOnline`), b)] *)
Definition set_status_isOnline (u : jsstring) (b : bool) : DB → DB :=
  with_status (fun m =>
    <[u := {| s_isOnline := Some b;
              s_lastSeen := s_lastSeen (statusNode m u);
              s_uid := s_uid (statusNode m u) |}]> m).

Definition patch_name (nm : jsstring) (t : Z) (n : ChatNode) : ChatNode :=
  {| n_type := n_type n; n_participants := n_participants n;
     n_participantDetails := n_participantDetails n; n_admins := n_admins n;
     n_createdBy := n_createdBy n; n_lastMessage := n_lastMessage n;
     n_name := Some nm; n_createdAt := n_createdAt n; n_updatedAt := Some t |}.

Definition patch_members (ps : list jsstring) (pd : gmap jsstring Details)
    (ads : list jsstring) (t : Z) (n : ChatNode) : ChatNode :=
  {| n_type := n_type n; n_participants := ps;
     n_participantDetails := pd; n_admins := ads;
     n_createdBy := n_createdBy n; n_lastMessage := n_lastMessage n;
     n_name := n_name n; n_createdAt := n_createdAt n; n_updatedAt := Some t |}.

Definition patch_admins (ads : list jsstring) (t : Z) (n : ChatNode) : ChatNode :=
  {| n_type := n_type n; n_participants := n_participants n;
     n_participantDetails := n_participantDetails n; n_admins := ads;
     n_createdBy := n_createdBy n; n_lastMessage := n_lastMessage n;
     n_name := n_name n; n_createdAt := n_createdAt n; n_updatedAt := Some t |}.

Definition patch_lastMessage (lm : LastMessage) (n : ChatNode) : ChatNode :=
  {| n_type := n_type n; n_participants := n_participants n;
     n_participantDetails := n_participantDetails n; n_admins := n_admins n;
     n_createdBy := n_createdBy n; n_lastMessage := Some lm;
     n_name := n_name n; n_createdAt := n_createdAt n;
     n_updatedAt := n_updatedAt n |}.

Definition patch_updatedAt (t : Z) (n : ChatNode) : ChatNode :=
  {| n_type := n_type n; n_participants := n_participants n;
     n_participantDetails := n_participantDetails n; n_admins := n_admins n;
     n_createdBy := n_createdBy n; n_lastMessage := n_lastMessage n;
     n_name := n_name n; n_createdAt := n_createdAt n; n_updatedAt := Some t |}.

(** ** Component state *)

Inductive NotificationType := success | error | warning | info.

Record Notification := {
  notif_type : NotificationType;
  title : jsstring;
  message : jsstring
}.

(** The [OnlineStatus] entry of a user; [lastSeen] is [None] for an
    invalid [Date]. *)
Record OnlineEntry := {
  isOnline : bool;
  lastSeen : option Z
}.

Record UI := {
  currentUser : option jsstring;
  userData : option User;
  chats : list Chat;
  activeChat : option Chat;
  newMessage : jsstring;
  searchQuery : jsstring;
  searchResults : list UserDoc;
  isSearching : bool;
  showCreateGroup : bool;
  groupName : jsstring;
  selectedUsers : list jsstring;
  loading : bool;
  onlineStatus : gmap jsstring OnlineEntry;
  showGroupSettings : bool;
  editingGroupName : jsstring;
  showDeleteConfirm : option jsstring;
  notifications : list Notification
}.

Definition setActiveChat (v : option Chat) (u : UI) : UI :=
  {| currentUser := currentUser u; userData := userData u; chats := chats u;
     activeChat := v; newMessage := newMessage u;
     searchQuery := searchQuery u; searchResults := searchResults u;
     isSearching := isSearching u; showCreateGroup := showCreateGroup u;
     groupName := groupName u; selectedUsers := selectedUsers u;
     loading := loading u; onlineStatus := onlineStatus u;
     showGroupSettings := showGroupSettings u;
     editingGroupName := editingGroupName u;
     showDeleteConfirm := showDeleteConfirm u;
     notifications := notifications u |}.

Definition setNewMessage (v : jsstring) (u : UI) : UI :=
  {| currentUser := currentUser u; userData := userData u; chats := chats u;
     activeChat := activeChat u; newMessage := v;
     searchQuery := searchQuery u; searchResults := searchResults u;
     isSearching := isSearching u; showCreateGroup := showCreateGroup u;
     groupName := groupName u; selectedUsers := selectedUsers u;
     loading := loading u; onlineStatus := onlineStatus u;
     showGroupSettings := showGroupSettings u;
     editingGroupName := editingGroupName u;
     showDeleteConfirm := showDeleteConfirm u;
     notifications := notifications u |}.

Definition setSearchResults (v : list UserDoc) (u : UI) : UI :=
  {| currentUser := currentUser u; userData := userData u; chats := chats u;
     activeChat := activeChat u; newMessage := newMessage u;
     searchQuery := searchQuery u; searchResults := v;
     isSearching := isSearching u; showCreateGroup := showCreateGroup u;
     groupName := groupName u; selectedUsers := selectedUsers u;
     loading := loading u; onlineStatus := onlineStatus u;
     showGroupSettings := showGroupSettings u;
     editingGroupName := editingGroupName u;
     showDeleteConfirm := showDeleteConfirm u;
     notifications := notifications u |}.

Definition setIsSearching (v : bool) (u : UI) : UI :=
  {| currentUser := currentUser u; userData := userData u; chats := chats u;
     activeChat := activeChat u; newMessage := newMessage u;
     searchQuery := searchQuery u; searchResults := searchResults u;
     isSearching := v; showCreateGroup := showCreateGroup u;
     groupName := groupName u; selectedUsers := selectedUsers u;
     loading := loading u; onlineStatus := onlineStatus u;
     showGroupSettings := showGroupSettings u;
     editingGroupName := editingGroupName u;
     showDeleteConfirm := showDeleteConfirm u;
     notifications := notifications u |}.

Definition setShowCreateGroup (v : bool) (u : UI) : UI :=
  {| currentUser := currentUser u; userData := userData u; chats := chats u;
     activeChat := activeChat u; newMessage := newMessage u;
     searchQuery := searchQuery u; searchResults := searchResults u;
     isSearching := isSearching u; showCreateGroup := v;
     groupName := groupName u; selectedUsers := selectedUsers u;
     loading := loading u; onlineStatus := onlineStatus u;
     showGroupSettings := showGroupSettings u;
     editingGroupName := editingGroupName u;
     showDeleteConfirm := showDeleteConfirm u;
     notifications := notifications u |}.

Definition setGroupName (v : jsstring) (u : UI) : UI :=
  {| currentUser := currentUser u; userData := userData u; chats := chats u;
     activeChat := activeChat u; newMessage := newMessage u;
     searchQuery := searchQuery u; searchResults := searchResults u;
     isSearching := isSearching u; showCreateGroup := showCreateGroup u;
     groupName := v; selectedUsers := selectedUsers u;
     loading := loading u; onlineStatus := onlineStatus u;
     showGroupSettings := showGroupSettings u;
     editingGroupName := editingGroupName u;
     showDeleteConfirm := showDeleteConfirm u;
     notifications := notifications u |}.

Definition setSelectedUsers (v : list jsstring) (u : UI) : UI :=
  {| currentUser := currentUser u; userData := userData u; chats := chats u;
     activeChat := activeChat u; newMessage := newMessage u;
     searchQuery := searchQuery u; searchResults := searchResults u;
     isSearching := isSearching u; showCreateGroup := showCreateGroup u;
     groupName := groupName u; selectedUsers := v;
     loading := loading u; onlineStatus := onlineStatus u;
     showGroupSettings := showGroupSettings u;
     editingGroupName := editingGroupName u;
     showDeleteConfirm := showDeleteConfirm u;
     notifications := notifications u |}.

Definition setLoading (v : bool) (u : UI) : UI :=
  {| currentUser := currentUser u; userData := userData u; chats := chats u;
     activeChat := activeChat u; newMessage := newMessage u;
     searchQuery := searchQuery u; searchResults := searchResults u;
     isSearching := isSearching u; showCreateGroup := showCreateGroup u;
     groupName := groupName u; selectedUsers := selectedUsers u;
     loading := v; onlineStatus := onlineStatus u;
     showGroupSettings := showGroupSettings u;
     editingGroupName := editingGroupName u;
     showDeleteConfirm := showDeleteConfirm u;
     notifications := notifications u |}.

Definition setOnlineStatus (v : gmap jsstring OnlineEntry) (u : UI) : UI :=
  {| currentUser := currentUser u; userData := userData u; chats := chats u;
     activeChat := activeChat u; newMessage := newMessage u;
     searchQuery := searchQuery u; searchResults := searchResults u;
     isSearching := isSearching u; showCreateGroup := showCreateGroup u;
     groupName := groupName u; selectedUsers := selectedUsers u;
     loading := loading u; onlineStatus := v;
     showGroupSettings := showGroupSettings u;
     editingGroupName := editingGroupName u;
     showDeleteConfirm := showDeleteConfirm u;
     notifications := notifications u |}.

Definition setShowGroupSettings (v : bool) (u : UI) : UI :=
  {| currentUser := currentUser u; userData := userData u; chats := chats u;
     activeChat := activeChat u; newMessage := newMessage u;
     searchQuery := searchQuery u; searchResults := searchResults u;
     isSearching := isSearching u; showCreateGroup := showCreateGroup u;
     groupName := groupName u; selectedUsers := selectedUsers u;
     loading := loading u; onlineStatus := onlineStatus u;
     showGroupSettings := v;
     editingGroupName := editingGroupName u;
     showDeleteConfirm := showDeleteConfirm u;
     notifications := notifications u |}.

Definition setEditingGroupName (v : jsstring) (u : UI) : UI :=
  {| currentUser := currentUser u; userData := userData u; chats := chats u;
     activeChat := activeChat u; newMessage := newMessage u;
     searchQuery := searchQuery u; searchResults := searchResults u;
     isSearching := isSearching u; showCreateGroup := showCreateGroup u;
     groupName := groupName u; selectedUsers := selectedUsers u;
     loading := loading u; onlineStatus := onlineStatus u;
     showGroupSettings := showGroupSettings u;
     editingGroupName := v;
     showDeleteConfirm := showDeleteConfirm u;
     notifications := notifications u |}.

Definition setShowDeleteConfirm (v : option jsstring) (u : UI) : UI :=
  {| currentUser := currentUser u; userData := userData u; chats := chats u;
     activeChat := activeChat u; newMessage := newMessage u;
     searchQuery := searchQuery u; searchResults := searchResults u;
     isSearching := isSearching u; showCreateGroup := showCreateGroup u;
     groupName := groupName u; selectedUsers := selectedUsers u;
     loading := loading u; onlineStatus := onlineStatus u;
     showGroupSettings := showGroupSettings u;
     editingGroupName := editingGroupName u;
     showDeleteConfirm := v;
     notifications := notifications u |}.

(** [addNotification] of the notification context: the notice joins the
    ones already shown. *)
Definition pushNotification (n : Notification) (u : UI) : UI :=
  {| currentUser := currentUser u; userData := userData u; chats := chats u;
     activeChat := activeChat u; newMessage := newMessage u;
     searchQuery := searchQuery u; searchResults := searchResults u;
     isSearching := isSearching u; showCreateGroup := showCreateGroup u;
     groupName := groupName u; selectedUsers := selectedUsers u;
     loading := loading u; onlineStatus := onlineStatus u;
     showGroupSettings := showGroupSettings u;
     editingGroupName := editingGroupName u;
     showDeleteConfirm := showDeleteConfirm u;
     notifications := notifications u ++ [n] |}.

(** ** The handler monad *)

Inductive Field := by_displayName | by_username.

(** The three document queries of the user search. *)
Inductive Query :=
  | OrderedRange (orderBy : Field) (startAt endAt : jsstring) (lim : nat)
  | Limit (lim : nat).

(** What the collaborators decide: the backend's answer to the n-th
    request of the real-time store, the n-th reading of the clock (ms), the
    n-th generated push id, the answer of the document store to a query
    ([None] for a rejected one) and the two locale-aware string functions
    of the runtime. *)
Record Env := {
  accepts : nat → bool;
  clock : nat → Z;
  pushKey : nat → jsstring;
  getDocs : Query → option (list UserDoc);
  toLowerCase : jsstring → jsstring;
  localeCompare : jsstring → jsstring → Z
}.

Record World := {
  ui : UI;
  db : DB;
  requests : nat;
  ticks : nat;
  pushed : nat
}.

(** A computation either completes or throws (a promise rejects). *)
Inductive Completion (A : Type) :=
  | Normal (a : A)
  | Thrown.
Arguments Normal {A} a.
Arguments Thrown {A}.

Definition M (A : Type) : Type := Env → World → Completion A * World.

Definition ret {A} (a : A) : M A := fun _ w => (Normal a, w).

Definition bind {A B} (m : M A) (k : A → M B) : M B :=
  fun e w =>
    match m e w with
    | (Normal a, w') => k a e w'
    | (Thrown, w') => (Thrown, w')
    end.

#[global] Instance M_ret : MRet M := @ret.
#[global] Instance M_bind : MBind M := fun A B k m => bind m k.

(** An exception thrown before any request is made. *)
Definition throw {A} : M A := fun _ w => (Thrown, w).

(** [try { body } catch { handler }] *)
Definition tryCatch (body handler : M unit) : M unit :=
  fun e w =>
    match body e w with
    | (Normal a, w') => (Normal a, w')
    | (Thrown, w') => handler e w'
    end.

(** [try { body } finally { final }] *)
Definition tryFinally (body final : M unit) : M unit :=
  fun e w =>
    match body e w with
    | (Normal a, w') => final e w'
    | (Thrown, w') =>
        match final e w' with
        | (Normal _, w'') => (Thrown, w'')
        | (Thrown, w'') => (Thrown, w'')
        end
    end.

(** The values the handler closed over at the last render. *)
Definition closure : M UI := fun _ w => (Normal (ui w), w).

Definition env : M Env := fun e w => (Normal e, w).

(** A React state setter or [addNotification]. *)
Definition setState (f : UI → UI) : M unit :=
  fun _ w =>
    (Normal (),
     {| ui := f (ui w); db := db w; requests := requests w;
        ticks := ticks w; pushed := pushed w |}).

Definition addNotification (n : Notification) : M unit :=
  setState (pushNotification n).

(** A write to the real-time store: applied when the backend accepts it,
    a rejected promise otherwise. *)
Definition write (f : DB → DB) : M unit :=
  fun e w =>
    if accepts e (requests w) then
      (Normal (),
       {| ui := ui w; db := f (db w); requests := S (requests w);
          ticks := ticks w; pushed := pushed w |})
    else
      (Thrown,
       {| ui := ui w; db := db w; requests := S (requests w);
          ticks := ticks w; pushed := pushed w |}).

(** A one-shot read, [get(ref)]. *)
Definition read {A} (f : DB → A) : M A :=
  fun e w =>
    if accepts e (requests w) then
      (Normal (f (db w)),
       {| ui := ui w; db := db w; requests := S (requests w);
          ticks := ticks w; pushed := pushed w |})
    else
      (Thrown,
       {| ui := ui w; db := db w; requests := S (requests w);
          ticks := ticks w; pushed := pushed w |}).

(** [new Date()], in milliseconds. *)
Definition newDate : M Z :=
  fun e w =>
    (Normal (clock e (ticks w)),
     {| ui := ui w; db := db w; requests := requests w;
        ticks := S (ticks w); pushed := pushed w |}).

(** The key of [push(ref)]; generating it needs no round trip. *)
Definition freshKey : M jsstring :=
  fun e w =>
    (Normal (pushKey e (pushed w)),
     {| ui := ui w; db := db w; requests := requests w;
        ticks := ticks w; pushed := S (pushed w) |}).

(** [await getDocs(q)] *)
Definition runQuery (q : Query) : M (list UserDoc) :=
  fun e w =>
    match getDocs e q with
    | Some docs => (Normal docs, w)
    | None => (Thrown, w)
    end.

(** [for (const x of xs) { await body(x) }] *)
Fixpoint forOf {A} (xs : list A) (body : A → M unit) : M unit :=
  match xs with
  | [] => mret ()
  | x :: xs' => body x;; forOf xs' body
  end.

(** Running a handler from a state. *)
Definition run {A} (m : M A) (e : Env) (w : World) : World := snd (m e w).
Definition outcome {A} (m : M A) (e : Env) (w : World) : Completion A :=
  fst (m e w).

(** A request whose promise nobody awaits: a rejection goes unnoticed. *)
Definition unawaited (m : M unit) : M unit := tryCatch m (mret ()).

(** [for (const x of xs) { acc = await body(acc, x) }] *)
Fixpoint forAcc {A B} (xs : list A) (body : B → A → M B) (acc : B) : M B :=
  match xs with
  | [] => mret acc
  | x :: xs' => acc' ← body acc x; forAcc xs' body acc'
  end.

(** ** Presence ([Messages], first two effects) *)

(** [updateStatus(isOnline)] for the signed-in user [uid]. *)
Definition updateStatus (uid : jsstring) (isOnline : bool) : M unit :=
  t ← newDate;
  unawaited (write (set_status uid
    {| s_isOnline := Some isOnline; s_lastSeen := Some t; s_uid := Some uid |})).

(** The listener on [.info/connected], called with [snapshot.val()]. *)
Definition onConnected (uid : jsstring) (connected : bool) : M unit :=
  if connected then
    updateStatus uid true;;
    unawaited (write (set_status_isOnline uid false))
  else mret ().

(** The body of the 30-second interval, the initial write of the effect
    and its clean-up. *)
Definition statusInterval (uid : jsstring) : M unit := updateStatus uid true.
Definition presenceMount (uid : jsstring) : M unit := updateStatus uid true.
Definition presenceCleanup (uid : jsstring) : M unit := updateStatus uid false.

(** One entry of the [onlineStatusMap]: a missing or invalid [lastSeen]
    gives [NaN] for [timeDiff], and [NaN < 120000] is false. *)
Definition onlineEntry (now : Z) (userStatus : StatusNode) : OnlineEntry :=
  {| isOnline :=
       default false (s_isOnline userStatus) &&
       match s_lastSeen userStatus with
       | Some seen => now - seen <? 120000
       | None => false
       end;
     lastSeen := s_lastSeen userStatus |}.

(** The listener on [status], called with [snapshot.val()] ([None] when
    the snapshot does not exist).  The clock is read once per user; the
    order in which the users are visited only decides which reading each
    of them gets. *)
Definition onStatus (snapshot : option (gmap jsstring StatusNode)) : M unit :=
  match snapshot with
  | Some statusData =>
      onlineStatusMap ←
        forAcc (map_to_list statusData)
          (fun acc '(userId, userStatus) =>
             now ← newDate;
             mret (<[userId := onlineEntry now userStatus]> acc))
          (∅ : gmap jsstring OnlineEntry);
      setState (setOnlineStatus onlineStatusMap)
  | None => mret ()
  end.

Definition formatLastSeen (date : option Z) : M jsstring :=
  now ← newDate;
  match date with
  | Some d =>
      let diffInMinutes := (now - d) / 60000 in
      if diffInMinutes <? 1 then mret (js "Just now")
      else if diffInMinutes <? 60 then mret (showZ diffInMinutes ++ js "m ago")
      else if diffInMinutes <? 1440 then
        mret (showZ (diffInMinutes / 60) ++ js "h ago")
      else mret (showZ (diffInMinutes / 1440) ++ js "d ago")
  | None => mret (js "NaNd ago")
  end.

(** [getOnlineStatus(userId)]: the flag and the label shown. *)
Definition getOnlineStatus (userId : jsstring) : M (bool * jsstring) :=
  c ← closure;
  match onlineStatus c !! userId with
  | None => mret (false, js "Unknown")
  | Some status =>
      if isOnline status then mret (true, js "Online")
      else label ← formatLastSeen (lastSeen status); mret (false, label)
  end.

(** ** Chat lifecycle *)

Definition isIndividual (c : Chat) : bool :=
  match chat_type c with individual => true | group => false end.

(** [chat.admins?.includes(uid)], with [undefined] read as false. *)
Definition adminsInclude (c : Chat) (uid : jsstring) : bool :=
  match admins c with
  | Some l => arrIncludes l uid
  | None => false
  end.

Definition hasId (chatId : jsstring) (c : Chat) : bool :=
  bool_decide (chat_id c = chatId).

(** [if (activeChat?.id === chatId) setActiveChat(null)] *)
Definition closeIfActive (c : UI) (chatId : jsstring) : M unit :=
  match activeChat c with
  | Some a => if hasId chatId a then setState (setActiveChat None) else mret ()
  | None => mret ()
  end.

Definition notice (t : NotificationType) (ttl msg : jsstring) : Notification :=
  {| notif_type := t; title := ttl; message := msg |}.

(** The id of the individual chat of two users. *)
Definition individualChatId (uid otherUserId : jsstring) : jsstring :=
  join (js "_") (sortWith defaultCompare [uid; otherUserId]).

(** [createdAt] and [updatedAt] are [Date] objects here, not strings as in
    the later updates: a [Date] has no enumerable property, so the store
    keeps nothing of either field. *)
Definition createOrGetIndividualChat (otherUserId : jsstring)
    (otherUserData : User) : M unit :=
  c ← closure;
  match currentUser c, userData c with
  | Some uid, Some ud =>
      let existingChat :=
        List.find (fun chat =>
                     isIndividual chat &&
                     arrIncludes (participants chat) otherUserId) (chats c) in
      match existingChat with
      | Some chat => setState (setActiveChat (Some chat))
      | None =>
          let chatId := individualChatId uid otherUserId in
          _ ← newDate;
          _ ← newDate;
          let newChat :=
            {| n_type := Some individual;
               n_participants := [uid; otherUserId];
               n_participantDetails :=
                 <[otherUserId := {| name := displayName otherUserData;
                                     avatar := photoURL otherUserData |}]>
                 (<[uid := {| name := displayName ud;
                              avatar := photoURL ud |}]> ∅);
               n_admins := [];
               n_createdBy := None;
               n_lastMessage := None;
               n_name := None;
               n_createdAt := None;
               n_updatedAt := None |} in
          tryCatch
            (write (set_chat chatId newChat);;
             write (set_userChat uid chatId);;
             write (set_userChat otherUserId chatId);;
             addNotification
               (notice success (js "Chat Created")
                  (js "Started conversation with " ++ displayName otherUserData)))
            (addNotification
               (notice error (js "Error") (js "Failed to create chat")))
      end
  | _, _ => mret ()
  end.

(** The details of a selected user come from [users/<id>]; where that
    node has no [photoURL] the detail's [avatar] is [undefined], a value
    [set] refuses by throwing before it sends anything.  The two [Date]
    objects are dropped by the store as in [createOrGetIndividualChat]. *)
Definition createGroupChat : M unit :=
  c ← closure;
  match currentUser c, userData c with
  | Some uid, Some ud =>
      if (length (selectedUsers c) <? 1)%nat then
        addNotification
          (notice error (js "Invalid Group")
             (js "Please select at least 1 user for a group chat"))
      else
        setState (setLoading true);;
        tryFinally
          (tryCatch
             (chatId ← freshKey;
              let participants := uid :: selectedUsers c in
              collected ←
                forAcc (selectedUsers c)
                  (fun (acc : gmap jsstring Details * bool) userId =>
                     userSnapshot ← read (fun d => db_users d !! userId);
                     match userSnapshot with
                     | Some user =>
                         mret (<[userId := {| name := displayName user;
                                              avatar := photoURL user |}]> acc.1,
                               acc.2 || bool_decide (photoURL user = None))
                     | None => mret acc
                     end)
                  (({[uid := {| name := displayName ud;
                                avatar := photoURL ud |}]}
                      : gmap jsstring Details), false);
              let details : gmap jsstring Details := collected.1 in
              let avatarUndefined : bool := collected.2 in
              _ ← newDate;
              _ ← newDate;
              let newChat :=
                {| n_type := Some group;
                   n_participants := participants;
                   n_participantDetails := details;
                   n_admins := [uid];
                   n_createdBy := Some uid;
                   n_lastMessage := None;
                   n_name :=
                     Some (if falsy (groupName c)
                           then js "Group with " ++
                                showZ (Z.of_nat (length participants)) ++
                                js " members"
                           else groupName c);
                   n_createdAt := None;
                   n_updatedAt := None |} in
              (if avatarUndefined then throw
               else write (set_chat chatId newChat));;
              forOf participants (fun userId => write (set_userChat userId chatId));;
              setState (setShowCreateGroup false);;
              setState (setGroupName []);;
              setState (setSelectedUsers []);;
              addNotification
                (notice success (js "Group Created")
                   (js "Group chat created successfully")))
             (addNotification
                (notice error (js "Error") (js "Failed to create group chat"))))
          (setState (setLoading false))
  | _, _ =>
      addNotification
        (notice error (js "Invalid Group")
           (js "Please select at least 1 user for a group chat"))
  end.

Definition deleteChat (chatId : jsstring) : M unit :=
  c ← closure;
  match currentUser c with
  | None => mret ()
  | Some uid =>
      tryCatch
        (write (remove_userChat uid chatId);;
         match List.find (hasId chatId) (chats c) with
         | Some chat =>
             if isIndividual chat then
               match List.find (fun p => negb (bool_decide (p = uid)))
                       (participants chat) with
               | Some otherUser =>
                   if falsy otherUser then mret ()
                   else write (remove_userChat otherUser chatId)
               | None => mret ()
               end;;
               write (remove_chat chatId);;
               write (remove_messages chatId)
             else mret ()
         | None => mret ()
         end;;
         closeIfActive c chatId;;
         setState (setShowDeleteConfirm None);;
         addNotification
           (notice success (js "Chat Deleted")
              (js "Chat has been deleted successfully")))
        (addNotification
           (notice error (js "Error") (js "Failed to delete chat")))
  end.

Definition leaveGroup (chatId : jsstring) : M unit :=
  c ← closure;
  match currentUser c with
  | None => mret ()
  | Some uid =>
      tryCatch
        match List.find (hasId chatId) (chats c) with
        | None => mret ()
        | Some chat =>
            let updatedParticipants := without uid (participants chat) in
            let updatedParticipantDetails := delete uid (participantDetails chat) in
            let updatedAdmins := default [] (without uid <$> admins chat) in
            (if (length updatedParticipants =? 0)%nat then
               write (remove_chat chatId);;
               write (remove_messages chatId)
             else
               now ← newDate;
               write (update_chat chatId
                        (patch_members updatedParticipants
                           updatedParticipantDetails updatedAdmins now)));;
            write (remove_userChat uid chatId);;
            closeIfActive c chatId;;
            addNotification
              (notice success (js "Left Group")
                 (js "You have left the group successfully"))
        end
        (addNotification
           (notice error (js "Error") (js "Failed to leave group")))
  end.

Definition updateGroupName : M unit :=
  c ← closure;
  match activeChat c, currentUser c with
  | Some chat, Some uid =>
      if falsy (trim (editingGroupName c)) then mret ()
      else if negb (adminsInclude chat uid) then
        addNotification
          (notice error (js "Permission Denied")
             (js "Only group admins can edit group name"))
      else
        tryCatch
          (now ← newDate;
           write (update_chat (chat_id chat)
                    (patch_name (trim (editingGroupName c)) now));;
           setState (setEditingGroupName []);;
           setState (setShowGroupSettings false);;
           addNotification
             (notice success (js "Group Updated")
                (js "Group name updated successfully")))
          (addNotification
             (notice error (js "Error") (js "Failed to update group name")))
  | _, _ => mret ()
  end.

Definition removeUserFromGroup (userId : jsstring) : M unit :=
  c ← closure;
  match activeChat c, currentUser c with
  | Some chat, Some uid =>
      if negb (adminsInclude chat uid) then
        addNotification
          (notice error (js "Permission Denied")
             (js "Only group admins can remove members"))
      else
        tryCatch
          (let updatedParticipants := without userId (participants chat) in
           let updatedParticipantDetails :=
             delete userId (participantDetails chat) in
           let updatedAdmins := default [] (without userId <$> admins chat) in
           now ← newDate;
           write (update_chat (chat_id chat)
                    (patch_members updatedParticipants
                       updatedParticipantDetails updatedAdmins now));;
           write (remove_userChat userId (chat_id chat));;
           addNotification
             (notice success (js "Member Removed")
                (js "Member has been removed from the group")))
          (addNotification
             (notice error (js "Error") (js "Failed to remove member")))
  | _, _ => mret ()
  end.

(** [activeChat.admins.push(userId)]: the array of the chat object held in
    state is extended in place.  When that object is also an element of
    [chats] (it was picked from the list and the list has not been
    reloaded since) the element shares the array; the component state
    below keeps [chats] and [activeChat] as separate values and records
    the push on [activeChat] only. *)
Definition pushAdmin (userId : jsstring) (chat : Chat) : Chat :=
  {| chat_id := chat_id chat; chat_type := chat_type chat;
     participants := participants chat;
     participantDetails := participantDetails chat;
     admins := (fun l => l ++ [userId]) <$> admins chat;
     createdBy := createdBy chat; lastMessage := lastMessage chat;
     chat_name := chat_name chat; createdAt := createdAt chat;
     updatedAt := updatedAt chat |}.

Definition toggleAdmin (userId : jsstring) : M unit :=
  c ← closure;
  match activeChat c, currentUser c with
  | Some chat, Some uid =>
      if negb (adminsInclude chat uid) then
        addNotification
          (notice error (js "Permission Denied")
             (js "Only group admins can manage admin roles"))
      else
        tryCatch
          (let isCurrentlyAdmin := adminsInclude chat userId in
           updatedAdmins ←
             (if isCurrentlyAdmin then
                mret (without userId (default [] (admins chat)))
              else
                setState (setActiveChat (Some (pushAdmin userId chat)));;
                mret (default [] (admins chat) ++ [userId]));
           now ← newDate;
           write (update_chat (chat_id chat) (patch_admins updatedAdmins now));;
           addNotification
             (notice success (js "Admin Role Updated")
                (js "User " ++
                 (if isCurrentlyAdmin then js "removed from" else js "added to") ++
                 js " admin role")))
          (addNotification
             (notice error (js "Error") (js "Failed to update admin role")))
  | _, _ => mret ()
  end.

(** ** Message store *)

Definition sendMessage : M unit :=
  c ← closure;
  match activeChat c, currentUser c, userData c with
  | Some chat, Some uid, Some ud =>
      if falsy (trim (newMessage c)) then mret ()
      else
        let messageData :=
          {| senderId := uid;
             senderName := displayName ud;
             senderAvatar := photoURL ud;
             content := trim (newMessage c);
             timestamp := ServerTimestamp;
             msg_type := text;
             chatId := chat_id chat |} in
        tryCatch
          (key ← freshKey;
           write (push_message (chat_id chat) key messageData);;
           sent ← newDate;
           write (update_chat (chat_id chat)
                    (patch_lastMessage
                       {| lm_content := trim (newMessage c);
                          lm_timestamp := sent;
                          lm_senderId := uid;
                          lm_senderName := displayName ud |}));;
           updated ← newDate;
           write (update_chat (chat_id chat) (patch_updatedAt updated));;
           setState (setNewMessage []))
          (addNotification
             (notice error (js "Error") (js "Failed to send message")))
  | _, _, _ => mret ()
  end.

(** ** User directory search *)

(** [results.set(id, v)] on a JS [Map]: a known key keeps its place, a new
    one goes last. *)
Fixpoint mapSet (k : jsstring) (v : UserDoc) (m : list (jsstring * UserDoc))
    : list (jsstring * UserDoc) :=
  match m with
  | [] => [(k, v)]
  | (k', v') :: m' =>
      if bool_decide (k' = k) then (k, v) :: m' else (k', v') :: mapSet k v m'
  end.

(** [s?.toLowerCase().includes(term)] *)
Definition lowerIncludes (e : Env) (s : option jsstring) (term : jsstring) : bool :=
  match s with
  | Some x => includes (toLowerCase e x) term
  | None => false
  end.

(** [s?.toLowerCase() || ''] *)
Definition lowerOrEmpty (e : Env) (s : option jsstring) : jsstring :=
  match s with
  | Some x => toLowerCase e x
  | None => []
  end.

(** [doc.id !== currentUser?.uid] *)
Definition notSelf (c : UI) (d : UserDoc) : bool :=
  negb (bool_decide (Some (doc_id d) = currentUser c)).

(** A user whose lower-cased display name or username starts with the
    search term. *)
Definition startsWithTerm (e : Env) (term : jsstring) (a : UserDoc) : bool :=
  startsWith (lowerOrEmpty e (doc_displayName a)) term ||
  startsWith (lowerOrEmpty e (doc_username a)) term.

(** The comparator of the relevance sort. *)
Definition byRelevance (e : Env) (searchTerm : jsstring) (a b : UserDoc) : Z :=
  let aDisplayName := lowerOrEmpty e (doc_displayName a) in
  let aUsername := lowerOrEmpty e (doc_username a) in
  let bDisplayName := lowerOrEmpty e (doc_displayName b) in
  let bUsername := lowerOrEmpty e (doc_username b) in
  let aStartsWithDisplay := startsWith aDisplayName searchTerm in
  let aStartsWithUsername := startsWith aUsername searchTerm in
  let bStartsWithDisplay := startsWith bDisplayName searchTerm in
  let bStartsWithUsername := startsWith bUsername searchTerm in
  if (aStartsWithDisplay || aStartsWithUsername) &&
     negb (bStartsWithDisplay || bStartsWithUsername) then -1
  else if negb (aStartsWithDisplay || aStartsWithUsername) &&
          (bStartsWithDisplay || bStartsWithUsername) then 1
  else localeCompare e aDisplayName bDisplayName.

(** [Array.from(results.values()).sort(...).slice(0, 8)] *)
Definition rank (e : Env) (searchTerm : jsstring)
    (results : list (jsstring * UserDoc)) : list UserDoc :=
  slice0 8 (sortWith (byRelevance e searchTerm) (map snd results)).

(** The body of the debounced [searchUsers]. *)
Definition searchUsers : M unit :=
  c ← closure;
  e ← env;
  tryFinally
    (tryCatch
       (let searchTerm := trim (toLowerCase e (searchQuery c)) in
        let displayNameQuery :=
          OrderedRange by_displayName searchTerm (searchTerm ++ [63743%N]) 10 in
        let usernameQuery :=
          OrderedRange by_username searchTerm (searchTerm ++ [63743%N]) 10 in
        displayNameSnapshot ← runQuery displayNameQuery;
        usernameSnapshot ← runQuery usernameQuery;
        let results0 :=
          fold_left
            (fun results doc =>
               if notSelf c doc &&
                  lowerIncludes e (doc_displayName doc) searchTerm
               then mapSet (doc_id doc) doc results else results)
            displayNameSnapshot [] in
        let results1 :=
          fold_left
            (fun results doc =>
               if notSelf c doc &&
                  lowerIncludes e (doc_username doc) searchTerm
               then mapSet (doc_id doc) doc results else results)
            usernameSnapshot results0 in
        results ←
          (if (length results1 =? 0)%nat then
             broadSnapshot ← runQuery (Limit 50);
             mret (fold_left
                     (fun results doc =>
                        if notSelf c doc then
                          let displayName := lowerOrEmpty e (doc_displayName doc) in
                          let username := lowerOrEmpty e (doc_username doc) in
                          let email := lowerOrEmpty e (doc_email doc) in
                          if includes displayName searchTerm ||
                             includes username searchTerm ||
                             includes email searchTerm
                          then mapSet (doc_id doc) doc results else results
                        else results)
                     broadSnapshot results1)
           else mret results1);
        setState (setSearchResults (rank e searchTerm results)))
       (addNotification
          (notice error (js "Search Failed")
             (js "Failed to search users. Please try again."));;
        setState (setSearchResults [])))
    (setState (setIsSearching false)).

(** The search effect, run when [searchQuery] changes; it answers with the
    computation the 500 ms timer will run, if one was armed. *)
Definition searchEffect : M (option (M unit)) :=
  c ← closure;
  if falsy (trim (searchQuery c)) then
    setState (setSearchResults []);;
    setState (setIsSearching false);;
    mret None
  else
    setState (setIsSearching true);;
    mret (Some searchUsers).

(** ** A sample runtime and sample states

    Concrete collaborators used to run the handlers on examples: a backend
    that accepts every request, a clock that advances by one millisecond
    per reading, ASCII lower-casing and comparison by code units. *)
Module Sample.

Definition asciiLowerCase (s : jsstring) : jsstring :=
  map (fun c => if (65 <=? c)%N && (c <=? 90)%N then (c + 32)%N else c) s.

Definition env_at (t0 : Z) (docs : Query → option (list UserDoc)) : Env :=
  {| accepts := fun _ => true;
     clock := fun n => t0 + Z.of_nat n;
     pushKey := fun n => js "-N" ++ showZ (Z.of_nat n);
     getDocs := docs;
     toLowerCase := asciiLowerCase;
     localeCompare := defaultCompare |}.

Definition env0 : Env := env_at 1000 (fun _ => Some []).

(** A clock that stands still at [t]. *)
Definition frozen (t : Z) : Env :=
  {| accepts := fun _ => true;
     clock := fun _ => t;
     pushKey := fun n => js "-N" ++ showZ (Z.of_nat n);
     getDocs := fun _ => Some [];
     toLowerCase := asciiLowerCase;
     localeCompare := defaultCompare |}.

Definition user (nm : string) : User :=
  {| displayName := js nm; photoURL := None |}.

Definition ui_of (me : string) (cs : list Chat) (active : option Chat)
    (draft editing : string) : UI :=
  {| currentUser := Some (js me); userData := Some (user me);
     chats := cs; activeChat := active; newMessage := js draft;
     searchQuery := []; searchResults := []; isSearching := false;
     showCreateGroup := false; groupName := []; selectedUsers := [];
     loading := false; onlineStatus := ∅; showGroupSettings := false;
     editingGroupName := js editing; showDeleteConfirm := None;
     notifications := [] |}.

Definition emptyDB : DB :=
  {| db_chats := ∅; db_messages := ∅; db_userChats := ∅;
     db_status := ∅; db_users := ∅ |}.

Definition world (u : UI) (d : DB) : World :=
  {| ui := u; db := d; requests := 0; ticks := 0; pushed := 0 |}.

(** A group chat [g1] of the given members and admins. *)
Definition groupOf (members admin : list string) : Chat :=
  {| chat_id := js "g1"; chat_type := group;
     participants := map js members;
     participantDetails :=
       list_to_map (map (fun m => (js m, {| name := js m; avatar := None |}))
                        members);
     admins := Some (map js admin);
     createdBy := None; lastMessage := None;
     chat_name := Some (js "Study");
     createdAt := 0; updatedAt := 0 |}.

(** The stored node of such a chat. *)
Definition nodeOf (c : Chat) : ChatNode :=
  {| n_type := Some (chat_type c); n_participants := participants c;
     n_participantDetails := participantDetails c;
     n_admins := default [] (admins c);
     n_createdBy := createdBy c; n_lastMessage := lastMessage c;
     n_name := chat_name c; n_createdAt := Some (createdAt c);
     n_updatedAt := Some (updatedAt c) |}.

Definition oneMessage : MessageData :=
  {| senderId := js "bob"; senderName := js "bob"; senderAvatar := None;
     content := js "hi"; timestamp := ServerTimestamp; msg_type := text;
     chatId := js "g1" |}.

(** A store holding chat [c], one message in its log and a membership
    marker for each of its participants. *)
Definition dbWith (c : Chat) : DB :=
  {| db_chats := {[chat_id c := nodeOf c]};
     db_messages := {[chat_id c := {[js "-M0" := oneMessage]}]};
     db_userChats := list_to_set (map (fun p => (p, chat_id c)) (participants c));
     db_status := ∅; db_users := ∅ |}.

Definition withSelected (sel : list string) (u : UI) : UI :=
  setSelectedUsers (map js sel) u.

Definition withQuery (q : string) (u : UI) : UI :=
  {| currentUser := currentUser u; userData := userData u; chats := chats u;
     activeChat := activeChat u; newMessage := newMessage u;
     searchQuery := js q; searchResults := searchResults u;
     isSearching := isSearching u; showCreateGroup := showCreateGroup u;
     groupName := groupName u; selectedUsers := selectedUsers u;
     loading := loading u; onlineStatus := onlineStatus u;
     showGroupSettings := showGroupSettings u;
     editingGroupName := editingGroupName u;
     showDeleteConfirm := showDeleteConfirm u;
     notifications := notifications u |}.

Definition aliceSmith : UserDoc :=
  {| doc_id := js "u1"; doc_displayName := Some (js "Alice Smith");
     doc_username := Some (js "alice"); doc_email := None;
     doc_photoURL := None |}.

Definition bobAlison : UserDoc :=
  {| doc_id := js "u2"; doc_displayName := Some (js "Bob Alison");
     doc_username := Some (js "bobA"); doc_email := None;
     doc_photoURL := None |}.

End Sample.

(** ** Predicates used in the statements *)

(** Every admin of a stored chat is one of its participants. *)
Definition adminsAreParticipants (n : ChatNode) : bool :=
  forallb (arrIncludes (n_participants n)) (n_admins n).

(** The same for a chat object held by the component. *)
Definition chatAdminsAreParticipants (c : Chat) : bool :=
  forallb (arrIncludes (participants c)) (default [] (admins c)).

(** [admins ⊆ participants] holds of every chat in the store. *)
Definition adminsInvariant (d : DB) : Prop :=
  map_Forall (fun _ n => adminsAreParticipants n = true) (db_chats d).

(** A consistent comparison function in the sense of the language
    standard, which is what [localeCompare] is required to be: the sign
    flips when the arguments are swapped and [cmp a b <= 0] is transitive. *)
Definition consistentComparator {A} (cmp : A → A → Z) : Prop :=
  (∀ a b, Z.sgn (cmp a b) = - Z.sgn (cmp b a)) ∧
  (∀ a b c, cmp a b <= 0 → cmp b c <= 0 → cmp a c <= 0).

(** The same store seen from another client, whose component state is [u]. *)
Definition fromClient (u : UI) (w : World) : World :=
  {| ui := u; db := db w; requests := requests w; ticks := ticks w;
     pushed := pushed w |}.

(** A computation keeps a property of the store. *)
Definition keeps (I : DB → Prop) {A} (m : M A) : Prop :=
  ∀ e w, I (db w) → I (db (snd (m e w))).

(** ** Other parts of the application

    The time label of the post list, the notification provider
    ([NotificationContext]) and the like button of the post list
    ([Explore], first document). *)

(** [formatTimeAgo(date)] of the post list. *)
Definition formatTimeAgo (date : option Z) : M jsstring :=
  now ← newDate;
  match date with
  | Some d =>
      let diffInSeconds := (now - d) / 1000 in
      if diffInSeconds <? 60 then mret (js "Just now")
      else if diffInSeconds <? 3600 then
        mret (showZ (diffInSeconds / 60) ++ js "m ago")
      else if diffInSeconds <? 86400 then
        mret (showZ (diffInSeconds / 3600) ++ js "h ago")
      else mret (showZ (diffInSeconds / 86400) ++ js "d ago")
  | None => mret (js "NaNd ago")
  end.

Module Provider.

Record Toast := {
  toast_id : jsstring;
  toast_type : NotificationType;
  toast_title : jsstring;
  toast_message : jsstring;
  toast_duration : option Z
}.

(** [addNotification(notification)] at clock reading [now]:
    [id = Date.now().toString()]. *)
Definition addNotification (now : Z) (n : Notification) (duration : option Z)
    (prev : list Toast) : list Toast :=
  prev ++ [{| toast_id := showZ now; toast_type := notif_type n;
              toast_title := title n; toast_message := message n;
              toast_duration := duration |}].

(** [removeNotification(id)] *)
Definition removeNotification (id : jsstring) (prev : list Toast) : list Toast :=
  List.filter (fun n => negb (bool_decide (toast_id n = id))) prev.

End Provider.

Module Posts.

Record Comment := {
  c_id : jsstring;
  c_authorId : jsstring;
  c_authorName : jsstring;
  c_authorAvatar : option jsstring;
  c_content : jsstring;
  c_timestamp : Z
}.

Record PostDoc := {
  p_authorId : jsstring;
  p_authorName : jsstring;
  p_authorAvatar : option jsstring;
  p_content : jsstring;
  p_timestamp : Z;
  p_likes : list jsstring;
  p_comments : list Comment;
  p_likesCount : Z;
  p_commentsCount : Z;
  p_tags : list jsstring
}.

(** The state the [Explore] component works on: the auth context, the
    [posts] collection of the document store, the notices shown, the tab
    asked for through [onTabChange] and the [redirect] parameter put in
    the URL. *)
Record State := {
  currentUser : option jsstring;
  userData : option User;
  posts : gmap jsstring PostDoc;
  notifications : list Notification;
  tab : option jsstring;
  redirect : option jsstring
}.

(** The field transforms of the document store. *)
Definition arrayUnion (x : jsstring) (l : list jsstring) : list jsstring :=
  if arrIncludes l x then l else l ++ [x].

Definition arrayRemove (x : jsstring) (l : list jsstring) : list jsstring :=
  without x l.

Definition increment (k n : Z) : Z := n + k.

Definition withLikes (f : list jsstring → list jsstring) (g : Z → Z)
    (p : PostDoc) : PostDoc :=
  {| p_authorId := p_authorId p; p_authorName := p_authorName p;
     p_authorAvatar := p_authorAvatar p; p_content := p_content p;
     p_timestamp := p_timestamp p; p_likes := f (p_likes p);
     p_comments := p_comments p; p_likesCount := g (p_likesCount p);
     p_commentsCount := p_commentsCount p; p_tags := p_tags p |}.

Definition notify (n : Notification) (s : State) : State :=
  {| currentUser := currentUser s; userData := userData s; posts := posts s;
     notifications := notifications s ++ [n]; tab := tab s;
     redirect := redirect s |}.

Definition handleActionRequiringAuth (action : jsstring) (s : State)
    : bool * State :=
  match userData s with
  | None =>
      (false,
       {| currentUser := currentUser s; userData := userData s;
          posts := posts s;
          notifications :=
            notifications s ++
            [notice warning (js "Authentication Required")
               (js "Please sign in to " ++ action ++ js ".")];
          tab := Some (js "auth");
          redirect := Some (js "explore") |})
  | Some _ => (true, s)
  end.

(** [updateDoc(doc(db, 'posts', postId), change)]: rejected when the
    backend refuses it or the document does not exist. *)
Definition updateDoc (accepted : bool) (postId : jsstring)
    (change : PostDoc → PostDoc) (s : State) : option State :=
  match (if accepted then posts s !! postId else None) with
  | Some p =>
      Some {| currentUser := currentUser s; userData := userData s;
              posts := <[postId := change p]> (posts s);
              notifications := notifications s; tab := tab s;
              redirect := redirect s |}
  | None => None
  end.

Definition handleLikePost (accepted : bool) (postId : jsstring)
    (currentLikes : list jsstring) (s : State) : State :=
  match currentUser s with
  | None => s
  | Some uid =>
      let (allowed, s1) := handleActionRequiringAuth (js "like posts") s in
      if negb allowed then s1
      else
        let isLiked := arrIncludes currentLikes uid in
        let change :=
          if isLiked then withLikes (arrayRemove uid) (increment (-1))
          else withLikes (arrayUnion uid) (increment 1) in
        match updateDoc accepted postId change s1 with
        | Some s2 => s2
        | None =>
            notify (notice error (js "Error")
                      (js "Failed to update like. Please try again.")) s1
        end
  end.

(** A post by carol and the state of a visitor looking at it. *)
Definition samplePost (likedBy : list string) (count : Z) : PostDoc :=
  {| p_authorId := js "carol"; p_authorName := js "Carol";
     p_authorAvatar := None; p_content := js "hi #rocq";
     p_timestamp := 0; p_likes := map js likedBy;
     p_comments := []; p_likesCount := count;
     p_commentsCount := 0; p_tags := [js "rocq"] |}.

Definition visitor (me : option string) (signedIn : bool)
    (p : PostDoc) : State :=
  {| currentUser := js <$> me;
     userData := if signedIn then Sample.user <$> me else None;
     posts := {[js "p1" := p]};
     notifications := []; tab := None; redirect := None |}.

End Posts.

(** ** More sample states *)
Module Fixtures.

(** A backend that accepts the first [k] requests and rejects the rest. *)
Definition acceptsFirst (k : nat) : Env :=
  {| accepts := fun n => (n <? k)%nat;
     clock := fun n => 1000 + Z.of_nat n;
     pushKey := fun n => js "-N" ++ showZ (Z.of_nat n);
     getDocs := fun _ => Some [];
     toLowerCase := Sample.asciiLowerCase;
     localeCompare := defaultCompare |}.

(** The component of a visitor who is not signed in. *)
Definition signedOut : UI :=
  {| currentUser := None; userData := None; chats := []; activeChat := None;
     newMessage := js "hello"; searchQuery := []; searchResults := [];
     isSearching := false; showCreateGroup := false; groupName := [];
     selectedUsers := [js "bob"]; loading := false; onlineStatus := ∅;
     showGroupSettings := false; editingGroupName := js "Study";
     showDeleteConfirm := None; notifications := [] |}.

(** The individual chat of alice and bob as alice's list holds it. *)
Definition aliceBob : Chat :=
  {| chat_id := js "alice_bob"; chat_type := individual;
     participants := [js "alice"; js "bob"];
     participantDetails :=
       {[js "alice" := {| name := js "alice"; avatar := None |};
         js "bob" := {| name := js "bob"; avatar := None |}]};
     admins := None; createdBy := None; lastMessage := None;
     chat_name := None; createdAt := 0; updatedAt := 0 |}.

(** A store that knows bob under [users/] and nobody else, with a photo
    and without. *)
Definition usersBob : DB :=
  {| db_chats := ∅; db_messages := ∅; db_userChats := ∅; db_status := ∅;
     db_users :=
       {[js "bob" := {| displayName := js "Bob B";
                        photoURL := Some (js "https://example.org/bob.png") |}]} |}.

Definition usersBobNoPhoto : DB :=
  {| db_chats := ∅; db_messages := ∅; db_userChats := ∅; db_status := ∅;
     db_users := {[js "bob" := Sample.user "Bob B"]} |}.

End Fixtures.

(** ** More predicates used in the statements *)

(** The search term occurs in one of the three lower-cased fields. *)
Definition matchesTerm (e : Env) (term : jsstring) (d : UserDoc) : bool :=
  includes (lowerOrEmpty e (doc_displayName d)) term ||
  includes (lowerOrEmpty e (doc_username d)) term ||
  includes (lowerOrEmpty e (doc_email d)) term.

(** The queries of [e] answered by [g] instead. *)
Definition withDocs (g : Query → option (list UserDoc)) (e : Env) : Env :=
  {| accepts := accepts e; clock := clock e; pushKey := pushKey e;
     getDocs := g; toLowerCase := toLowerCase e;
     localeCompare := localeCompare e |}.

(** What the loop of [createGroupChat] has collected once it has read the
    users [sel] from [users]: the details, and whether one of them has an
    undefined avatar. *)
Definition collectDetails (users : gmap jsstring User) (sel : list jsstring)
    (acc : gmap jsstring Details * bool) : gmap jsstring Details * bool :=
  fold_left
    (fun (acc : gmap jsstring Details * bool) u =>
       match users !! u with
       | Some user =>
           (<[u := {| name := displayName user; avatar := photoURL user |}]> acc.1,
            acc.2 || bool_decide (photoURL user = None))
       | None => acc
       end) sel acc.

(** * Properties *)

(** ** Reasoning about handlers *)

Ltac unfold_m :=
  unfold run, outcome, unawaited, addNotification, tryCatch, tryFinally,
    throw, write, read, newDate, freshKey, setState, closure, env, runQuery,
    mbind, M_bind, bind, mret, M_ret, ret in *.

Lemma falsy_nil (s : jsstring) : falsy s = true ↔ s = [].
Proof. destruct s; simpl; split; congruence. Qed.

Lemma arrIncludes_true l x : arrIncludes l x = true ↔ x ∈ l.
Proof. unfold arrIncludes. rewrite bool_decide_eq_true. reflexivity. Qed.

Lemma elem_of_without x y l : y ∈ without x l ↔ y ∈ l ∧ y ≠ x.
Proof.
  unfold without. rewrite !list_elem_of_In, filter_In.
  rewrite negb_true_iff, bool_decide_eq_false. reflexivity.
Qed.

Lemma without_nil x l : without x l = [] ↔ ∀ p, p ∈ l → p = x.
Proof.
  split.
  - intros H p Hp. destruct (decide (p = x)) as [|Hne]; [done|].
    assert (p ∈ without x l) as Hin by (apply elem_of_without; done).
    rewrite H in Hin. by apply not_elem_of_nil in Hin.
  - intros H. destruct (without x l) as [|p l'] eqn:E; [done|].
    assert (p ∈ without x l) as Hin by (rewrite E; left).
    apply elem_of_without in Hin as [Hin Hne]. by apply H in Hin.
Qed.

Lemma marker_removed (x : jsstring * jsstring) (s : gset (jsstring * jsstring)) :
  x ∉ s ∖ {[x]}.
Proof. rewrite elem_of_difference, elem_of_singleton. tauto. Qed.

Lemma marker_kept (x y : jsstring * jsstring) (s : gset (jsstring * jsstring)) :
  y ≠ x → y ∈ s ∖ {[x]} ↔ y ∈ s.
Proof. rewrite elem_of_difference, elem_of_singleton. tauto. Qed.

(** ** Strings are totally ordered by [<] *)

Lemma str_lt_irrefl x : str_lt x x = false.
Proof.
  induction x as [|a x IH]; simpl; [done|].
  rewrite N.ltb_irrefl, N.eqb_refl, IH. done.
Qed.

Lemma str_lt_asym x y : str_lt x y = true → str_lt y x = false.
Proof.
  revert y. induction x as [|a x IH]; intros [|b y]; simpl; try done.
  intros H. apply orb_true_iff in H as [H|H].
  - apply N.ltb_lt in H.
    replace (b <? a)%N with false by (symmetry; apply N.ltb_ge; lia).
    replace (b =? a)%N with false by (symmetry; apply N.eqb_neq; lia). done.
  - apply andb_true_iff in H as [H1 H2]. apply N.eqb_eq in H1 as ->.
    rewrite N.ltb_irrefl, N.eqb_refl. simpl. by apply IH.
Qed.

Lemma str_lt_trans x y z :
  str_lt x y = true → str_lt y z = true → str_lt x z = true.
Proof.
  revert y z. induction x as [|a x IH]; intros [|b y] [|c z]; simpl; try done.
  intros H1 H2.
  apply orb_true_iff in H1 as [H1|H1]; apply orb_true_iff in H2 as [H2|H2].
  - apply N.ltb_lt in H1, H2.
    replace (a <? c)%N with true by (symmetry; apply N.ltb_lt; lia). done.
  - apply andb_true_iff in H2 as [H2 _]. apply N.eqb_eq in H2 as <-.
    rewrite H1. done.
  - apply andb_true_iff in H1 as [H1 _]. apply N.eqb_eq in H1 as ->.
    rewrite H2. done.
  - apply andb_true_iff in H1 as [H1 H1']. apply andb_true_iff in H2 as [H2 H2'].
    apply N.eqb_eq in H1 as ->. apply N.eqb_eq in H2 as ->.
    rewrite N.eqb_refl, (IH _ _ H1' H2'). simpl. apply orb_true_r.
Qed.

Lemma str_lt_total x y : str_lt x y = false → str_lt y x = false → x = y.
Proof.
  revert y. induction x as [|a x IH]; intros [|b y]; simpl; try done.
  intros H1 H2.
  apply orb_false_iff in H1 as [H1 H1']. apply orb_false_iff in H2 as [H2 H2'].
  apply N.ltb_ge in H1, H2. assert (a = b) as -> by lia.
  rewrite N.eqb_refl in H1', H2'. simpl in *. f_equal. by apply IH.
Qed.

(** ** Presence: the connection listener *)

(** C1 (as the code behaves).  After the [.info/connected] listener ran
    with [true], the stored [isOnline] flag of the user is [false] as soon
    as the backend accepts the listener's second write, which is a plain
    [set] of [status/<uid>/isOnline] to [false] issued right after the
    [isOnline = true] record; the flag is [true] only when that second
    write is rejected and the first accepted.  The specification expects
    the flag to be [true] after the listener and [false] to be written
    only on disconnect. *)
Theorem onConnected_flag e w uid :
  s_isOnline (statusNode (db_status (db (run (onConnected uid true) e w))) uid) =
  if accepts e (S (requests w)) then Some false
  else if accepts e (requests w) then Some true
  else s_isOnline (statusNode (db_status (db w)) uid).
Proof.
  unfold onConnected, updateStatus. unfold_m. simpl.
  destruct (accepts e (requests w)) eqn:E1; simpl;
    destruct (accepts e (S (requests w))) eqn:E2; simpl;
    unfold statusNode; rewrite ?lookup_insert_eq; reflexivity.
Qed.

(** The listener run for user [alice] on an empty store with a backend
    that accepts every write: the stored flag ends up [false]. *)
Example onConnected_alice_offline :
  db_status
    (db (run (onConnected (js "alice") true) Sample.env0
           (Sample.world (Sample.ui_of "alice" [] None "" "") Sample.emptyDB)))
    !! js "alice"
  = Some {| s_isOnline := Some false; s_lastSeen := Some 1000;
            s_uid := Some (js "alice") |}.
Proof. vm_compute. reflexivity. Qed.

(** ** Message store *)

(** C2.  [sendMessage] with an empty or whitespace-only draft changes
    nothing and issues no request.  With a non-blank draft, when the
    backend accepts the writes and the generated push id is new in the
    chat's log, the log gains exactly one entry, the new message, whose
    content is the trimmed draft, and the chat's [lastMessage.content] is
    that same trimmed draft. *)
Theorem sendMessage_spec e w :
  (trim (newMessage (ui w)) = [] → run sendMessage e w = w) ∧
  (∀ chat uid ud,
     activeChat (ui w) = Some chat →
     currentUser (ui w) = Some uid →
     userData (ui w) = Some ud →
     trim (newMessage (ui w)) ≠ [] →
     accepts e (requests w) = true →
     accepts e (S (requests w)) = true →
     accepts e (S (S (requests w))) = true →
     messageLog (db w) (chat_id chat) !! pushKey e (pushed w) = None →
     let w' := run sendMessage e w in
     size (messageLog (db w') (chat_id chat)) =
       S (size (messageLog (db w) (chat_id chat))) ∧
     (∃ m, messageLog (db w') (chat_id chat) =
             <[pushKey e (pushed w) := m]> (messageLog (db w) (chat_id chat)) ∧
           content m = trim (newMessage (ui w))) ∧
     lm_content <$> n_lastMessage (chatNode (db_chats (db w')) (chat_id chat)) =
       Some (trim (newMessage (ui w))) ∧
     notifications (ui w') = notifications (ui w)).
Proof.
  split.
  - intros H. apply falsy_nil in H. unfold sendMessage. unfold_m. simpl.
    destruct (activeChat (ui w)); [|by destruct w].
    destruct (currentUser (ui w)); [|by destruct w].
    destruct (userData (ui w)); [|by destruct w].
    rewrite H. by destruct w.
  - intros chat uid ud Ha Hc Hu Hne A1 A2 A3 Hfresh.
    assert (falsy (trim (newMessage (ui w))) = false) as Hf.
    { destruct (falsy _) eqn:E; [|done]. by apply falsy_nil in E. }
    unfold sendMessage. unfold_m. simpl.
    rewrite Ha, Hc, Hu, Hf. simpl. rewrite A1. simpl. rewrite A2. simpl.
    rewrite A3. simpl.
    unfold messageLog, chatNode, update_chat, push_message, with_chats,
      with_messages in *. simpl.
    rewrite !lookup_insert_eq. simpl.
    split; [|split; [|split]].
    + by apply map_size_insert_None.
    + eexists. split; reflexivity.
    + reflexivity.
    + reflexivity.
Qed.

(** [sendMessage_spec] at work: alice sends ["  hello "] to a chat whose
    log holds one message; a draft of three spaces changes nothing. *)
Lemma sendMessage_spec_witness :
  let chat := Sample.groupOf ["alice"; "bob"] ["alice"] in
  let w := Sample.world (Sample.ui_of "alice" [chat] (Some chat) "  hello " "")
             (Sample.dbWith chat) in
  let w' := run sendMessage Sample.env0 w in
  trim (newMessage (ui w)) = js "hello" ∧
  size (messageLog (db w) (js "g1")) = 1%nat ∧
  size (messageLog (db w') (js "g1")) = 2%nat ∧
  lm_content <$> n_lastMessage (chatNode (db_chats (db w')) (js "g1")) =
    Some (js "hello") ∧
  run sendMessage Sample.env0
    (Sample.world (Sample.ui_of "alice" [chat] (Some chat) "   " "")
       (Sample.dbWith chat))
  = Sample.world (Sample.ui_of "alice" [chat] (Some chat) "   " "")
      (Sample.dbWith chat).
Proof.
  intros chat w w'.
  destruct (sendMessage_spec Sample.env0 w) as [_ Hsent].
  destruct (Hsent chat (js "alice") (Sample.user "alice"))
    as (Hsize & _ & Hlast & _); try reflexivity.
  { vm_compute. discriminate. }
  split; [reflexivity|]. split; [reflexivity|].
  split; [exact Hsize|]. split; [exact Hlast|].
  apply (proj1 (sendMessage_spec Sample.env0 _)). reflexivity.
Defined.

(** ** Chat lifecycle: renaming a group *)

(** C3 (as amended).  [updateGroupName] decides on the component's own
    copy of the chat, [activeChat], never on the stored record.  A blank
    new name makes it return at once, whoever the caller is: nothing
    changes and nothing is reported.  With a name that is not blank, a
    caller who is not among the admins of [activeChat] is refused: no
    write, no request, and the permission error is reported; a caller who
    is among them has [name] (set to the trimmed name) and [updatedAt]
    written to [chats/<id>] and nothing else in the store touched, or, when
    the backend rejects the write, the store left as it was and the failure
    reported.  So the store changes only for an admin of [activeChat] with
    a name that is not blank. *)
Theorem updateGroupName_gate e w chat uid :
  activeChat (ui w) = Some chat →
  currentUser (ui w) = Some uid →
  let w' := run updateGroupName e w in
  (trim (editingGroupName (ui w)) = [] → w' = w) ∧
  (adminsInclude chat uid = false →
     db w' = db w ∧ requests w' = requests w ∧
     (trim (editingGroupName (ui w)) ≠ [] →
        notifications (ui w') =
          notifications (ui w) ++
          [notice error (js "Permission Denied")
             (js "Only group admins can edit group name")]) ∧
     (trim (editingGroupName (ui w)) = [] → w' = w)) ∧
  (adminsInclude chat uid = true →
     trim (editingGroupName (ui w)) ≠ [] →
     (accepts e (requests w) = true →
        db w' =
          update_chat (chat_id chat)
            (patch_name (trim (editingGroupName (ui w))) (clock e (ticks w)))
            (db w) ∧
        db_chats (db w') !! chat_id chat =
          Some (patch_name (trim (editingGroupName (ui w))) (clock e (ticks w))
                  (chatNode (db_chats (db w)) (chat_id chat))) ∧
        (∀ c, c ≠ chat_id chat → db_chats (db w') !! c = db_chats (db w) !! c)) ∧
     (accepts e (requests w) = false →
        db w' = db w ∧
        notifications (ui w') =
          notifications (ui w) ++
          [notice error (js "Error") (js "Failed to update group name")])) ∧
  (db w' ≠ db w →
     adminsInclude chat uid = true ∧ trim (editingGroupName (ui w)) ≠ [] ∧
     accepts e (requests w) = true).
Proof.
  intros Ha Hc. unfold updateGroupName. unfold_m. simpl. rewrite Ha, Hc.
  destruct (falsy (trim (editingGroupName (ui w)))) eqn:Hf.
  - apply falsy_nil in Hf. simpl.
    split; [done|]. split; [done|]. split; [done|]. done.
  - assert (trim (editingGroupName (ui w)) ≠ []) as Hne.
    { intros E. apply falsy_nil in E. congruence. }
    destruct (adminsInclude chat uid) eqn:Hadm; simpl.
    + split; [done|]. split; [done|]. split.
      * intros _ _. split.
        -- intros A1. rewrite A1. simpl. split; [done|].
           split; [by rewrite lookup_insert_eq|].
           intros c Hother. by rewrite lookup_insert_ne.
        -- intros A1. rewrite A1. simpl. done.
      * destruct (accepts e (requests w)); simpl; done.
    + split; [done|]. split; [done|]. split; done.
Qed.

(** C3 (as stated) fails: bob is not an admin of the group and asks for a
    blank new name; nothing is written, but no permission error is
    reported either. *)
Lemma updateGroupName_blank_counterexample :
  let chat := Sample.groupOf ["alice"; "bob"] ["alice"] in
  let w := Sample.world (Sample.ui_of "bob" [chat] (Some chat) "" "   ")
             (Sample.dbWith chat) in
  activeChat (ui w) = Some chat ∧
  currentUser (ui w) = Some (js "bob") ∧
  adminsInclude chat (js "bob") = false ∧
  notifications (ui (run updateGroupName Sample.env0 w)) = [].
Proof. repeat split; vm_compute; reflexivity. Qed.

(** [updateGroupName_gate] at work: bob, not an admin, is refused and the
    store stays as it was; alice, the admin, renames the group; with a
    blank name alice's call changes nothing. *)
Lemma updateGroupName_gate_witness :
  let chat := Sample.groupOf ["alice"; "bob"] ["alice"] in
  let d := Sample.dbWith chat in
  let asBob := Sample.world (Sample.ui_of "bob" [chat] (Some chat) "" "Hackers") d in
  let asAlice :=
    Sample.world (Sample.ui_of "alice" [chat] (Some chat) "" " Study Group ") d in
  let blank := Sample.world (Sample.ui_of "alice" [chat] (Some chat) "" "  ") d in
  (db (run updateGroupName Sample.env0 asBob) = d ∧
   title <$> notifications (ui (run updateGroupName Sample.env0 asBob)) =
     [js "Permission Denied"]) ∧
  n_name <$>
    db_chats (db (run updateGroupName Sample.env0 asAlice)) !! chat_id chat =
    Some (Some (js "Study Group")) ∧
  run updateGroupName Sample.env0 blank = blank.
Proof.
  intros chat d asBob asAlice blank. split; [|split].
  - destruct (updateGroupName_gate Sample.env0 asBob chat (js "bob"))
      as (_ & Hdenied & _); [reflexivity..|].
    destruct Hdenied as (Hdb & _ & Hnote & _); [reflexivity|].
    split; [exact Hdb|]. rewrite Hnote; [reflexivity|]. vm_compute. discriminate.
  - destruct (updateGroupName_gate Sample.env0 asAlice chat (js "alice"))
      as (_ & _ & Hadmin & _); [reflexivity..|].
    destruct Hadmin as [Hok _]; [reflexivity|vm_compute; discriminate|].
    destruct Hok as (_ & Hnode & _); [reflexivity|].
    rewrite Hnode. reflexivity.
  - destruct (updateGroupName_gate Sample.env0 blank chat (js "alice"))
      as (Hblank & _); [reflexivity..|].
    apply Hblank. reflexivity.
Defined.

(** ** Chat lifecycle: leaving and deleting *)

(** C4 (as amended).  [leaveGroup] decides on the copy of the chat in the
    caller's loaded list, [chats], never on the stored record.  When the
    participants of that copy are exactly the caller, then, once the
    backend has accepted the three requests, the chat record and the
    chat's message log are absent and the caller's membership marker is
    gone.  When that copy lists another participant, [chats/<id>] is
    updated in place with the participants, details and admins of the copy
    less the caller (and [updatedAt]), whatever the store holds by then;
    the message log is left alone and the caller's marker is removed.  For
    a chat id that is not in the loaded list nothing happens at all. *)
Theorem leaveGroup_spec e w uid chatId :
  currentUser (ui w) = Some uid →
  let w' := run (leaveGroup chatId) e w in
  (List.find (hasId chatId) (chats (ui w)) = None → w' = w) ∧
  (∀ chat,
     List.find (hasId chatId) (chats (ui w)) = Some chat →
     ((∀ p, p ∈ participants chat ↔ p = uid) →
        accepts e (requests w) = true →
        accepts e (S (requests w)) = true →
        accepts e (S (S (requests w))) = true →
        db_chats (db w') !! chatId = None ∧
        db_messages (db w') !! chatId = None ∧
        (uid, chatId) ∉ db_userChats (db w')) ∧
     ((∃ p, p ∈ participants chat ∧ p ≠ uid) →
        accepts e (requests w) = true →
        db_chats (db w') !! chatId =
          Some (patch_members (without uid (participants chat))
                  (delete uid (participantDetails chat))
                  (default [] (without uid <$> admins chat))
                  (clock e (ticks w))
                  (chatNode (db_chats (db w)) chatId)) ∧
        db_messages (db w') = db_messages (db w) ∧
        (accepts e (S (requests w)) = true →
           (uid, chatId) ∉ db_userChats (db w')))).
Proof.
  intros Hc. unfold leaveGroup, closeIfActive. unfold_m. simpl. rewrite Hc.
  split.
  { intros ->. by destruct w. }
  intros chat ->. split.
  - intros Honly A1 A2 A3.
    assert (without uid (participants chat) = []) as ->.
    { apply without_nil. intros p Hp. by apply Honly. }
    simpl. rewrite A1. simpl. rewrite A2. simpl. rewrite A3. simpl.
    destruct (activeChat (ui w)) as [a|]; [destruct (hasId chatId a)|]; simpl;
      rewrite !lookup_delete_eq;
      (split; [done|split; [done|apply marker_removed]]).
  - intros (p & Hp & Hne) A1.
    assert (p ∈ without uid (participants chat)) as Hin
      by (apply elem_of_without; done).
    destruct (without uid (participants chat)) as [|q l] eqn:E.
    { by apply not_elem_of_nil in Hin. }
    simpl. rewrite A1. simpl.
    destruct (accepts e (S (requests w))) eqn:A2; simpl.
    + destruct (activeChat (ui w)) as [a|]; [destruct (hasId chatId a)|]; simpl;
        rewrite lookup_insert_eq;
        (split; [done|split; [done|intros _; apply marker_removed]]).
    + rewrite lookup_insert_eq. done.
Qed.

(** C4 (as stated) fails.  Alice and bob share group [g1]; bob leaves it on
    his client, which writes the participants [alice] to [chats/g1].
    Alice's list is reloaded only when her own markers change, so her copy
    of the chat still lists both.  Alice, by now the only participant of
    the stored chat, leaves: the chat record is not deleted but rewritten
    with participants [bob], and the message log stays, with no marker
    left that points to the chat. *)
Lemma leaveGroup_stale_counterexample :
  let duo := Sample.groupOf ["alice"; "bob"] ["alice"] in
  let asBob := Sample.world (Sample.ui_of "bob" [duo] None "" "") (Sample.dbWith duo) in
  let afterBob := run (leaveGroup (js "g1")) Sample.env0 asBob in
  let asAlice := fromClient (Sample.ui_of "alice" [duo] None "" "") afterBob in
  let afterAlice := run (leaveGroup (js "g1")) Sample.env0 asAlice in
  n_participants <$> db_chats (db asAlice) !! js "g1" = Some [js "alice"] ∧
  n_participants <$> db_chats (db afterAlice) !! js "g1" = Some [js "bob"] ∧
  db_messages (db afterAlice) !! js "g1" = Some {[js "-M0" := Sample.oneMessage]} ∧
  db_userChats (db afterAlice) = ∅.
Proof. repeat split; vm_compute; reflexivity. Qed.

(** [leaveGroup_spec] at work: alice leaves a group of which she is the
    only participant, and a group she shares with bob. *)
Lemma leaveGroup_spec_witness :
  let solo := Sample.groupOf ["alice"] ["alice"] in
  let duo := Sample.groupOf ["alice"; "bob"] ["alice"] in
  let last := run (leaveGroup (js "g1")) Sample.env0
                (Sample.world (Sample.ui_of "alice" [solo] (Some solo) "" "")
                   (Sample.dbWith solo)) in
  let first := run (leaveGroup (js "g1")) Sample.env0
                 (Sample.world (Sample.ui_of "alice" [duo] (Some duo) "" "")
                    (Sample.dbWith duo)) in
  (db_chats (db last) !! js "g1" = None ∧
   db_messages (db last) !! js "g1" = None ∧
   (js "alice", js "g1") ∉ db_userChats (db last)) ∧
  (n_participants <$> db_chats (db first) !! js "g1" = Some [js "bob"] ∧
   db_messages (db first) = db_messages (Sample.dbWith duo)).
Proof.
  intros solo duo last first. split.
  - apply (proj1 (proj2 (leaveGroup_spec Sample.env0
                    (Sample.world (Sample.ui_of "alice" [solo] (Some solo) "" "")
                       (Sample.dbWith solo))
                    (js "alice") (js "g1") eq_refl) solo eq_refl));
      try reflexivity.
    intros p. change (participants solo) with [js "alice"].
    rewrite list_elem_of_singleton. done.
  - destruct (proj2 (proj2 (leaveGroup_spec Sample.env0
                       (Sample.world (Sample.ui_of "alice" [duo] (Some duo) "" "")
                          (Sample.dbWith duo))
                       (js "alice") (js "g1") eq_refl) duo eq_refl))
      as (Hrec & Hlog & _); [|reflexivity|].
    + exists (js "bob"). split; [|vm_compute; discriminate].
      change (participants duo) with [js "alice"; js "bob"]. set_solver.
    + split; [|exact Hlog]. unfold first. rewrite Hrec. reflexivity.
Defined.

(** C9.  [deleteChat] on a chat id that is not in the caller's list, or
    whose chat there is not an individual one, removes at most the
    caller's own membership marker: the chat records and the message logs
    are what they were, and so is every other membership marker.  For an
    individual chat of the list the chat record and its message log are
    removed too (once the backend has accepted the requests). *)
Theorem deleteChat_frame e w uid chatId :
  currentUser (ui w) = Some uid →
  let w' := run (deleteChat chatId) e w in
  ((List.find (hasId chatId) (chats (ui w)) = None ∨
    ∃ chat, List.find (hasId chatId) (chats (ui w)) = Some chat ∧
            chat_type chat ≠ individual) →
     db_chats (db w') = db_chats (db w) ∧
     db_messages (db w') = db_messages (db w) ∧
     db_userChats (db w') =
       (if accepts e (requests w)
        then db_userChats (db w) ∖ {[(uid, chatId)]}
        else db_userChats (db w)) ∧
     (∀ u c, (u, c) ≠ (uid, chatId) →
             ((u, c) ∈ db_userChats (db w') ↔ (u, c) ∈ db_userChats (db w)))) ∧
  (∀ chat,
     List.find (hasId chatId) (chats (ui w)) = Some chat →
     chat_type chat = individual →
     (∀ n, accepts e n = true) →
     db_chats (db w') !! chatId = None ∧ db_messages (db w') !! chatId = None).
Proof.
  intros Hc. unfold deleteChat, closeIfActive. unfold_m. simpl. rewrite Hc. split.
  - intros Hcase.
    assert (match List.find (hasId chatId) (chats (ui w)) with
            | Some chat => isIndividual chat = false
            | None => True
            end) as Hnot.
    { destruct Hcase as [->|(chat & -> & Hty)]; [done|].
      unfold isIndividual. by destruct (chat_type chat). }
    destruct (accepts e (requests w)) eqn:A1; simpl.
    + destruct (List.find (hasId chatId) (chats (ui w))) as [chat|];
        [rewrite Hnot|]; simpl;
        (destruct (activeChat (ui w)) as [a|]; [destruct (hasId chatId a)|]);
        simpl;
        (split; [done|split; [done|split; [done|intros u c; apply marker_kept]]]).
    + done.
  - intros chat Hfind Hty Hall. rewrite Hfind.
    unfold isIndividual. rewrite Hty. repeat (rewrite Hall; simpl).
    destruct (List.find _ (participants chat)) as [other|];
      [destruct (falsy other)|]; simpl; repeat (rewrite Hall; simpl);
      (destruct (activeChat (ui w)) as [a|]; [destruct (hasId chatId a)|]);
      simpl; rewrite !lookup_delete_eq; done.
Qed.

(** [deleteChat_frame] at work: alice deletes a group chat of her list,
    and a chat id her list does not hold. *)
Lemma deleteChat_frame_witness :
  let duo := Sample.groupOf ["alice"; "bob"] ["alice"] in
  let w := Sample.world (Sample.ui_of "alice" [duo] (Some duo) "" "")
             (Sample.dbWith duo) in
  let onGroup := run (deleteChat (js "g1")) Sample.env0 w in
  let unlisted :=
    run (deleteChat (js "g1")) Sample.env0
      (Sample.world (Sample.ui_of "alice" [] None "" "") (Sample.dbWith duo)) in
  (db_chats (db onGroup) = db_chats (Sample.dbWith duo) ∧
   db_messages (db onGroup) = db_messages (Sample.dbWith duo) ∧
   ((js "alice", js "g1") ∉ db_userChats (db onGroup)) ∧
   (js "bob", js "g1") ∈ db_userChats (db onGroup)) ∧
  (db_chats (db unlisted) = db_chats (Sample.dbWith duo) ∧
   db_messages (db unlisted) = db_messages (Sample.dbWith duo)).
Proof.
  intros duo w onGroup unlisted. split.
  - destruct (proj1 (deleteChat_frame Sample.env0 w (js "alice") (js "g1") eq_refl))
      as (Hchats & Hlogs & Hmine & Hothers).
    { right. exists duo. split; [reflexivity|]. vm_compute. discriminate. }
    split; [exact Hchats|]. split; [exact Hlogs|]. split.
    + unfold onGroup. rewrite Hmine. apply marker_removed.
    + apply Hothers; [vm_compute; discriminate|].
      vm_compute. reflexivity.
  - destruct (proj1 (deleteChat_frame Sample.env0
                       (Sample.world (Sample.ui_of "alice" [] None "" "")
                          (Sample.dbWith duo))
                       (js "alice") (js "g1") eq_refl))
      as (Hchats & Hlogs & _); [left; reflexivity|].
    split; [exact Hchats|exact Hlogs].
Defined.

(** ** Chat lifecycle: admin roles *)



(** ** The invariant [admins ⊆ participants] *)

Lemma forallb_arrIncludes ps ads :
  forallb (arrIncludes ps) ads = true ↔ ∀ a, a ∈ ads → a ∈ ps.
Proof.
  rewrite forallb_forall. split; intros H a Ha.
  - apply arrIncludes_true, H, list_elem_of_In, Ha.
  - apply arrIncludes_true, H, list_elem_of_In, Ha.
Qed.

Lemma without_within u ps ads :
  forallb (arrIncludes ps) ads = true →
  forallb (arrIncludes (without u ps)) (without u ads) = true.
Proof.
  rewrite !forallb_arrIncludes. intros H a Ha.
  apply elem_of_without in Ha as [Ha Hne]. apply elem_of_without. auto.
Qed.

Lemma members_patch_within u chat pd t n :
  chatAdminsAreParticipants chat = true →
  adminsAreParticipants
    (patch_members (without u (participants chat)) pd
       (default [] (without u <$> admins chat)) t n) = true.
Proof.
  unfold chatAdminsAreParticipants, adminsAreParticipants. simpl.
  destruct (admins chat) as [ads|]; simpl; [apply without_within|done].
Qed.

Lemma adminsInvariant_insert (c : jsstring) (n : ChatNode)
    (m : gmap jsstring ChatNode) :
  adminsAreParticipants n = true →
  map_Forall (fun _ n => adminsAreParticipants n = true) m →
  map_Forall (fun _ n => adminsAreParticipants n = true) (<[c := n]> m).
Proof. intros Hn Hm. by apply map_Forall_insert_2. Qed.

Lemma adminsInvariant_delete (c : jsstring) (m : gmap jsstring ChatNode) :
  map_Forall (fun _ n => adminsAreParticipants n = true) m →
  map_Forall (fun _ n => adminsAreParticipants n = true) (delete c m).
Proof. apply map_Forall_delete. Qed.

Section Keeps.
Context (I : DB → Prop).

Lemma keeps_ret {A} (a : A) : keeps I (mret a).
Proof. intros e w H. exact H. Qed.

Lemma keeps_throw {A} : keeps I (@throw A).
Proof. intros e w H. exact H. Qed.

Lemma keeps_bind {A B} (m : M A) (k : A → M B) :
  keeps I m → (∀ a, keeps I (k a)) → keeps I (m ≫= k).
Proof.
  intros Hm Hk e w H. specialize (Hm e w H). unfold_m.
  destruct (m e w) as [[a|] w1]; simpl in *; [by apply Hk|done].
Qed.

Lemma keeps_tryCatch (body handler : M unit) :
  keeps I body → keeps I handler → keeps I (tryCatch body handler).
Proof.
  intros Hb Hh e w H. specialize (Hb e w H). unfold_m.
  destruct (body e w) as [[a|] w1]; simpl in *; [done|by apply Hh].
Qed.

Lemma keeps_tryFinally (body final : M unit) :
  keeps I body → keeps I final → keeps I (tryFinally body final).
Proof.
  intros Hb Hf e w H. specialize (Hb e w H). unfold_m.
  destruct (body e w) as [[a|] w1]; simpl in *.
  - by apply Hf.
  - specialize (Hf e w1 Hb). by destruct (final e w1) as [[?|] ?].
Qed.

Lemma keeps_closure : keeps I closure.
Proof. intros e w H. exact H. Qed.

Lemma keeps_setState f : keeps I (setState f).
Proof. intros e w H. exact H. Qed.

Lemma keeps_addNotification n : keeps I (addNotification n).
Proof. apply keeps_setState. Qed.

Lemma keeps_newDate : keeps I newDate.
Proof. intros e w H. exact H. Qed.

Lemma keeps_freshKey : keeps I freshKey.
Proof. intros e w H. exact H. Qed.

Lemma keeps_read {A} (f : DB → A) : keeps I (read f).
Proof. intros e w H. unfold_m. by destruct (accepts e (requests w)). Qed.

Lemma keeps_write f : (∀ d, I d → I (f d)) → keeps I (write f).
Proof.
  intros Hf e w H. unfold_m. destruct (accepts e (requests w)); simpl; auto.
Qed.

Lemma keeps_forOf {A} (xs : list A) (body : A → M unit) :
  (∀ x, keeps I (body x)) → keeps I (forOf xs body).
Proof.
  intros Hb. induction xs as [|x xs IH]; simpl.
  - apply keeps_ret.
  - apply keeps_bind; [apply Hb|intros _; apply IH].
Qed.

Lemma keeps_forAcc {A B} (xs : list A) (body : B → A → M B) acc :
  (∀ b x, keeps I (body b x)) → keeps I (forAcc xs body acc).
Proof.
  intros Hb. revert acc. induction xs as [|x xs IH]; intros acc; simpl.
  - apply keeps_ret.
  - apply keeps_bind; [apply Hb|intros b; apply IH].
Qed.

Lemma keeps_closeIfActive c chatId : keeps I (closeIfActive c chatId).
Proof.
  unfold closeIfActive. destruct (activeChat c) as [a|];
    [destruct (hasId chatId a)|]; auto using keeps_ret, keeps_setState.
Qed.
End Keeps.

Create HintDb keeps.

#[local] Hint Resolve keeps_ret keeps_throw keeps_closure keeps_setState
  keeps_addNotification keeps_newDate keeps_freshKey keeps_read
  keeps_closeIfActive : keeps.

Ltac keeps_step :=
  first
    [ apply keeps_bind; [|intros ?]
    | apply keeps_tryCatch
    | apply keeps_tryFinally
    | apply keeps_forOf; intros ?
    | apply keeps_forAcc; intros ? ?
    | solve [auto with keeps]
    | match goal with
      | |- keeps _ (match ?x with Some _ => _ | None => _ end) => destruct x
      | |- keeps _ (if ?b then _ else _) => destruct b
      end ].

Lemma set_userChat_keeps_admins u c :
  keeps adminsInvariant (write (set_userChat u c)).
Proof. apply keeps_write; intros d H; exact H. Qed.

Lemma remove_userChat_keeps_admins u c :
  keeps adminsInvariant (write (remove_userChat u c)).
Proof. apply keeps_write; intros d H; exact H. Qed.

Lemma remove_messages_keeps_admins c :
  keeps adminsInvariant (write (remove_messages c)).
Proof. apply keeps_write; intros d H; exact H. Qed.

Lemma remove_chat_keeps_admins c :
  keeps adminsInvariant (write (remove_chat c)).
Proof. apply keeps_write. intros d H. by apply adminsInvariant_delete. Qed.

#[local] Hint Resolve set_userChat_keeps_admins remove_userChat_keeps_admins
  remove_messages_keeps_admins remove_chat_keeps_admins : keeps.

Lemma createGroupChat_keeps_admins : keeps adminsInvariant createGroupChat.
Proof.
  unfold createGroupChat. repeat keeps_step.
  - apply keeps_write. intros d H. apply adminsInvariant_insert; [|exact H].
    unfold adminsAreParticipants. simpl. rewrite andb_true_r.
    apply arrIncludes_true. left.
Qed.

(** Case analysis on the backend's answers and on the chat that is open,
    until the final store is in sight. *)
Ltac settle_run :=
  repeat first
    [ match goal with
      | |- context [accepts ?e ?n] =>
          let E := fresh "Hanswer" in destruct (accepts e n) eqn:E
      | |- context [match activeChat ?u with Some _ => _ | None => _ end] =>
          destruct (activeChat u)
      | |- context [if hasId ?c ?a then _ else _] => destruct (hasId c a)
      end
    | progress simpl ].

Ltac admins_kept H :=
  unfold adminsInvariant in *; simpl;
  repeat first
    [ exact H
    | apply adminsInvariant_delete
    | apply adminsInvariant_insert; [|] ].

Lemma leaveGroup_keeps_admins e w chatId :
  (∀ chat, List.find (hasId chatId) (chats (ui w)) = Some chat →
           chatAdminsAreParticipants chat = true) →
  adminsInvariant (db w) →
  adminsInvariant (db (run (leaveGroup chatId) e w)).
Proof.
  intros Hlocal H. unfold leaveGroup, closeIfActive. unfold_m. simpl.
  destruct (currentUser (ui w)) as [uid|]; [|exact H].
  destruct (List.find _ _) as [chat|] eqn:Hfind; [|exact H].
  specialize (Hlocal chat eq_refl).
  destruct (length _ =? 0)%nat; settle_run; admins_kept H;
    by apply members_patch_within.
Qed.

Lemma removeUserFromGroup_keeps_admins e w userId :
  (∀ chat, activeChat (ui w) = Some chat →
           chatAdminsAreParticipants chat = true) →
  adminsInvariant (db w) →
  adminsInvariant (db (run (removeUserFromGroup userId) e w)).
Proof.
  intros Hlocal H. unfold removeUserFromGroup. unfold_m. simpl.
  destruct (activeChat (ui w)) as [chat|]; [|exact H].
  specialize (Hlocal chat eq_refl).
  destruct (currentUser (ui w)) as [uid|]; [|exact H].
  destruct (adminsInclude chat uid); simpl; [|exact H].
  settle_run; admins_kept H; by apply members_patch_within.
Qed.

Lemma toggleAdmin_keeps_admins e w userId chat :
  activeChat (ui w) = Some chat →
  chatAdminsAreParticipants chat = true →
  n_participants (chatNode (db_chats (db w)) (chat_id chat)) = participants chat →
  userId ∈ participants chat →
  adminsInvariant (db w) →
  adminsInvariant (db (run (toggleAdmin userId) e w)).
Proof.
  intros Ha Hlocal Hsync Htarget H. unfold toggleAdmin. unfold_m. simpl.
  rewrite Ha.
  destruct (currentUser (ui w)) as [uid|]; [|exact H].
  destruct (adminsInclude chat uid); simpl; [|exact H].
  unfold chatAdminsAreParticipants in Hlocal.
  rewrite forallb_arrIncludes in Hlocal.
  destruct (adminsInclude chat userId); simpl;
    (destruct (accepts e (requests w)); simpl; [|exact H]);
    admins_kept H; unfold adminsAreParticipants; simpl; rewrite Hsync;
    apply forallb_arrIncludes; intros a Hin.
  - apply elem_of_without in Hin as [Hin _]. by apply Hlocal.
  - apply elem_of_app in Hin as [Hin|Hin]; [by apply Hlocal|].
    apply list_elem_of_singleton in Hin as ->. exact Htarget.
Qed.

(** C5 (as amended).  Starting from a store in which every chat has
    [admins ⊆ participants]: [createGroupChat] keeps it; [leaveGroup] and
    [removeUserFromGroup] keep it for any chat and any target, provided
    the chat object they start from has [admins ⊆ participants];
    [toggleAdmin] keeps it when, in addition, the stored participants are
    those of the active chat and the target is one of them. *)
Theorem group_writes_keep_admins e w :
  adminsInvariant (db w) →
  adminsInvariant (db (run createGroupChat e w)) ∧
  (∀ chatId,
     (∀ chat, List.find (hasId chatId) (chats (ui w)) = Some chat →
              chatAdminsAreParticipants chat = true) →
     adminsInvariant (db (run (leaveGroup chatId) e w))) ∧
  (∀ userId,
     (∀ chat, activeChat (ui w) = Some chat →
              chatAdminsAreParticipants chat = true) →
     adminsInvariant (db (run (removeUserFromGroup userId) e w))) ∧
  (∀ userId chat,
     activeChat (ui w) = Some chat →
     chatAdminsAreParticipants chat = true →
     n_participants (chatNode (db_chats (db w)) (chat_id chat)) =
       participants chat →
     userId ∈ participants chat →
     adminsInvariant (db (run (toggleAdmin userId) e w))).
Proof.
  intros H. split; [by apply createGroupChat_keeps_admins|].
  split; [intros; by apply leaveGroup_keeps_admins|].
  split; [intros; by apply removeUserFromGroup_keeps_admins|].
  intros. by eapply toggleAdmin_keeps_admins.
Qed.

(** C5 (as stated) fails: alice, the admin of a group of alice and bob,
    toggles the admin role of mallory, who is not a participant; the chat
    record written has mallory among its admins and not among its
    participants. *)
Lemma toggleAdmin_outsider_counterexample :
  let duo := Sample.groupOf ["alice"; "bob"] ["alice"] in
  let w := Sample.world (Sample.ui_of "alice" [duo] (Some duo) "" "")
             (Sample.dbWith duo) in
  let w' := run (toggleAdmin (js "mallory")) Sample.env0 w in
  adminsAreParticipants <$> db_chats (db w) !! js "g1" = Some true ∧
  n_admins <$> db_chats (db w') !! js "g1" = Some [js "alice"; js "mallory"] ∧
  n_participants <$> db_chats (db w') !! js "g1" = Some [js "alice"; js "bob"] ∧
  adminsAreParticipants <$> db_chats (db w') !! js "g1" = Some false.
Proof. repeat split; vm_compute; reflexivity. Qed.

(** [group_writes_keep_admins] at work on a group of alice (admin) and
    bob, with carol selected for a new group. *)
Lemma group_writes_keep_admins_witness :
  let duo := Sample.groupOf ["alice"; "bob"] ["alice"] in
  let w := Sample.world
             (Sample.withSelected ["carol"]
                (Sample.ui_of "alice" [duo] (Some duo) "" ""))
             (Sample.dbWith duo) in
  adminsInvariant (db w) ∧
  adminsInvariant (db (run createGroupChat Sample.env0 w)) ∧
  adminsInvariant (db (run (leaveGroup (js "g1")) Sample.env0 w)) ∧
  adminsInvariant (db (run (removeUserFromGroup (js "bob")) Sample.env0 w)) ∧
  adminsInvariant (db (run (toggleAdmin (js "bob")) Sample.env0 w)).
Proof.
  intros duo w.
  assert (adminsInvariant (db w)) as Hinv.
  { apply map_Forall_singleton. vm_compute. reflexivity. }
  destruct (group_writes_keep_admins Sample.env0 w Hinv)
    as (Hcreate & Hleave & Hremove & Htoggle).
  split; [exact Hinv|]. split; [exact Hcreate|].
  split; [|split].
  - apply Hleave. intros chat Hfind. injection Hfind as <-. reflexivity.
  - apply Hremove. intros chat Hactive. injection Hactive as <-. reflexivity.
  - apply (Htoggle (js "bob") duo); try reflexivity.
    change (participants duo) with [js "alice"; js "bob"].
    right. left.
Defined.

(** ** Individual chats *)

Lemma individualChatId_eq uid otherUserId :
  individualChatId uid otherUserId =
  if str_lt otherUserId uid
  then otherUserId ++ js "_" ++ uid
  else uid ++ js "_" ++ otherUserId.
Proof.
  unfold individualChatId, defaultCompare. simpl.
  destruct (str_lt uid otherUserId) eqn:E1.
  - rewrite (str_lt_asym _ _ E1). reflexivity.
  - destruct (str_lt otherUserId uid); reflexivity.
Qed.

Lemma individualChatId_sym uid otherUserId :
  individualChatId uid otherUserId = individualChatId otherUserId uid.
Proof.
  rewrite !individualChatId_eq.
  destruct (str_lt otherUserId uid) eqn:E1.
  - rewrite (str_lt_asym _ _ E1). reflexivity.
  - destruct (str_lt uid otherUserId) eqn:E2; [reflexivity|].
    by rewrite (str_lt_total _ _ E1 E2).
Qed.

(** C7.  The id of the individual chat of two users is the two ids in
    code-unit order joined by an underscore, so it is the same whichever
    of the two asks.  When the caller has no individual chat with the
    other user in their list and the backend accepts the write, the chat
    stored under that id has exactly the participants caller and other,
    and one record is all there is: the chat ids of the store are the
    former ones and that id, also after the other user has in turn
    created the chat from their side. *)
Theorem individualChat_canonical uid otherUserId :
  individualChatId uid otherUserId = individualChatId otherUserId uid ∧
  individualChatId uid otherUserId =
    (if str_lt otherUserId uid
     then otherUserId ++ js "_" ++ uid
     else uid ++ js "_" ++ otherUserId) ∧
  (∀ e w ud otherUserData,
     currentUser (ui w) = Some uid →
     userData (ui w) = Some ud →
     List.find (fun chat => isIndividual chat &&
                            arrIncludes (participants chat) otherUserId)
       (chats (ui w)) = None →
     (∀ n, accepts e n = true) →
     let w' := run (createOrGetIndividualChat otherUserId otherUserData) e w in
     (∃ n, db_chats (db w') !! individualChatId uid otherUserId = Some n ∧
           n_type n = Some individual ∧
           n_participants n = [uid; otherUserId]) ∧
     dom (db_chats (db w')) =
       {[individualChatId uid otherUserId]} ∪ dom (db_chats (db w)) ∧
     (∀ e2 u2 ud2 selfData,
        currentUser u2 = Some otherUserId →
        userData u2 = Some ud2 →
        List.find (fun chat => isIndividual chat &&
                               arrIncludes (participants chat) uid)
          (chats u2) = None →
        (∀ n, accepts e2 n = true) →
        let w'' := run (createOrGetIndividualChat uid selfData) e2
                     (fromClient u2 w') in
        dom (db_chats (db w'')) =
          {[individualChatId uid otherUserId]} ∪ dom (db_chats (db w)) ∧
        n_participants <$>
          db_chats (db w'') !! individualChatId uid otherUserId =
          Some [otherUserId; uid])).
Proof.
  split; [apply individualChatId_sym|]. split; [apply individualChatId_eq|].
  intros e w ud otherUserData Hc Hu Hnone Hall.
  unfold createOrGetIndividualChat at 1. unfold_m. simpl.
  rewrite Hc, Hu, Hnone. simpl. rewrite !Hall. simpl.
  split; [|split].
  - eexists. rewrite lookup_insert_eq. done.
  - apply dom_insert_L.
  - intros e2 u2 ud2 selfData Hc2 Hu2 Hnone2 Hall2.
    unfold createOrGetIndividualChat, fromClient. unfold_m. simpl.
    rewrite Hc2, Hu2, Hnone2. simpl. rewrite !Hall2. simpl.
    rewrite (individualChatId_sym otherUserId uid).
    rewrite lookup_insert_eq, !dom_insert_L.
    split; [by rewrite (assoc_L (∪)), union_idemp_L|done].
Qed.

(** [individualChat_canonical] at work: alice opens a chat with bob, then
    bob opens one with alice. *)
Lemma individualChat_canonical_witness :
  let asAlice := Sample.world (Sample.ui_of "alice" [] None "" "") Sample.emptyDB in
  let w' := run (createOrGetIndividualChat (js "bob") (Sample.user "bob"))
              Sample.env0 asAlice in
  let w'' := run (createOrGetIndividualChat (js "alice") (Sample.user "alice"))
               Sample.env0
               (fromClient (Sample.ui_of "bob" [] None "" "") w') in
  individualChatId (js "alice") (js "bob") = js "alice_bob" ∧
  individualChatId (js "bob") (js "alice") = js "alice_bob" ∧
  n_participants <$> db_chats (db w') !! js "alice_bob" =
    Some [js "alice"; js "bob"] ∧
  dom (db_chats (db w'')) = {[js "alice_bob"]}.
Proof.
  intros asAlice w' w''.
  destruct (individualChat_canonical (js "alice") (js "bob"))
    as (_ & _ & Hwrite).
  destruct (Hwrite Sample.env0 asAlice (Sample.user "alice") (Sample.user "bob")
              eq_refl eq_refl eq_refl (fun _ => eq_refl))
    as ((n & Hn & _ & Hparts) & _ & Hagain).
  destruct (Hagain Sample.env0 (Sample.ui_of "bob" [] None "" "")
              (Sample.user "bob") (Sample.user "alice")
              eq_refl eq_refl eq_refl (fun _ => eq_refl)) as [Hdom _].
  split; [reflexivity|]. split; [reflexivity|]. split.
  - change (js "alice_bob") with (individualChatId (js "alice") (js "bob")).
    subst w'. rewrite Hn. simpl. by rewrite Hparts.
  - subst w'' w'. rewrite Hdom.
    change (db_chats (db asAlice)) with (∅ : gmap jsstring ChatNode).
    by rewrite dom_empty_L, (right_id_L ∅ (∪)).
Defined.

(** ** Presence: the derived status *)

Lemma status_loop e (l : list (jsstring * StatusNode)) :
  NoDup l.*1 →
  ∀ (acc : gmap jsstring OnlineEntry) w, ∃ m : gmap jsstring OnlineEntry,
    forAcc l
      (fun (acc : gmap jsstring OnlineEntry) '(userId, userStatus) =>
         now ← newDate;
         mret (<[userId := onlineEntry now userStatus]> acc)) acc e w
    = (Normal m,
       {| ui := ui w; db := db w; requests := requests w;
          ticks := (length l + ticks w)%nat; pushed := pushed w |}) ∧
    (∀ u r, (u, r) ∈ l →
       ∃ k, (ticks w ≤ k < length l + ticks w)%nat ∧
            m !! u = Some (onlineEntry (clock e k) r)) ∧
    (∀ u, u ∉ l.*1 → m !! u = acc !! u).
Proof.
  induction l as [|[u0 r0] l IH]; intros Hnd acc w.
  - exists acc. split; [by destruct w|]. split; [|done].
    intros u r Hin. by apply not_elem_of_nil in Hin.
  - apply NoDup_cons in Hnd as [Hfresh Hnd].
    destruct (IH Hnd (<[u0 := onlineEntry (clock e (ticks w)) r0]> acc)
                {| ui := ui w; db := db w; requests := requests w;
                   ticks := S (ticks w); pushed := pushed w |})
      as (m & Hrun & Hin & Hout).
    exists m. split; [|split].
    + simpl. unfold_m. simpl. unfold_m. rewrite Hrun. simpl.
      do 2 f_equal. lia.
    + intros u r Hur. apply elem_of_cons in Hur as [Heq|Hur].
      * injection Heq as -> ->. exists (ticks w). split; [simpl; lia|].
        rewrite (Hout u0 Hfresh). by rewrite lookup_insert_eq.
      * destruct (Hin u r Hur) as (k & Hk & Hm). exists k.
        split; [simpl in *; lia|exact Hm].
    + intros u Hu. apply not_elem_of_cons in Hu as [Hne Hu].
      rewrite (Hout u Hu). by rewrite lookup_insert_ne.
Qed.

Lemma bind_normal {A B} (m : M A) (k : A → M B) e w a w1 :
  m e w = (Normal a, w1) → (m ≫= k) e w = k a e w1.
Proof. intros H. unfold mbind, M_bind, bind. by rewrite H. Qed.

Lemma onStatus_entry e w statusData u r :
  statusData !! u = Some r →
  ∃ k, (ticks w ≤ k < size statusData + ticks w)%nat ∧
       onlineStatus (ui (run (onStatus (Some statusData)) e w)) !! u =
         Some (onlineEntry (clock e k) r).
Proof.
  intros Hu. unfold onStatus, run.
  destruct (status_loop e (map_to_list statusData)
              (NoDup_fst_map_to_list statusData) ∅ w) as (m & Hrun & Hin & _).
  destruct (Hin u r) as (k & Hk & Hm); [by apply elem_of_map_to_list|].
  exists k. rewrite length_map_to_list in Hk. split; [exact Hk|].
  rewrite (bind_normal _ _ _ _ _ _ Hrun). simpl. exact Hm.
Qed.

(** C6 (as amended).  The status is derived when the [status] listener
    handles a snapshot, not when it is shown.  After the listener ran, the
    entry derived for a user whose stored record has flag [flag] and
    last-seen time [seen] says online exactly when [flag] holds and
    [now - seen] is below 120000 ms, [now] being the clock as the listener
    read it.  [getOnlineStatus] only reads that entry: as long as no other
    snapshot has replaced the derived map, a user who wrote
    [isOnline = true] at [T] is reported online, with label ["Online"],
    whenever the listener ran before [T + 120 s], and offline whenever it
    ran at or after [T + 120 s], whatever the time of the report; only the
    label of an offline user is computed at the time of the report (it is
    ["2m ago"] for a report between [T + 120 s] and [T + 180 s]). *)
Theorem effective_online e w statusData :
  let w' := run (onStatus (Some statusData)) e w in
  (∀ u flag seen uidField,
     statusData !! u =
       Some {| s_isOnline := Some flag; s_lastSeen := Some seen;
               s_uid := uidField |} →
     ∃ k, (ticks w ≤ k < size statusData + ticks w)%nat ∧
          onlineStatus (ui w') !! u =
            Some {| isOnline := flag && (clock e k - seen <? 120000);
                    lastSeen := Some seen |}) ∧
  (∀ u T uidField,
     statusData !! u =
       Some {| s_isOnline := Some true; s_lastSeen := Some T;
               s_uid := uidField |} →
     ∀ e2 w2,
       onlineStatus (ui w2) = onlineStatus (ui w') →
       ((∀ k, (ticks w ≤ k < size statusData + ticks w)%nat →
              clock e k - T < 120000) →
          outcome (getOnlineStatus u) e2 w2 = Normal (true, js "Online")) ∧
       ((∀ k, (ticks w ≤ k < size statusData + ticks w)%nat →
              120000 <= clock e k - T) →
          ∃ label,
            outcome (getOnlineStatus u) e2 w2 = Normal (false, label) ∧
            outcome (formatLastSeen (Some T)) e2 w2 = Normal label ∧
            (120000 <= clock e2 (ticks w2) - T < 180000 →
             label = js "2m ago"))).
Proof.
  intros w'. split.
  - intros u flag seen uidField Hu.
    destruct (onStatus_entry e w statusData u _ Hu) as (k & Hk & Hentry).
    exists k. split; [exact Hk|exact Hentry].
  - intros u T uidField Hu e2 w2 Hsame.
    destruct (onStatus_entry e w statusData u _ Hu) as (k & Hk & Hentry).
    fold w' in Hentry. unfold onlineEntry in Hentry. simpl in Hentry.
    rewrite <- Hsame in Hentry.
    split; intros Hclock; specialize (Hclock k Hk).
    + unfold getOnlineStatus. unfold_m. simpl. rewrite Hentry. simpl.
      assert ((clock e k - T <? 120000) = true) as -> by (apply Z.ltb_lt; lia).
      reflexivity.
    + assert ((clock e k - T <? 120000) = false) as Hlate
        by (apply Z.ltb_ge; lia).
      destruct (formatLastSeen (Some T) e2 w2) as [[label|] w3] eqn:Hlabel.
      2: { unfold formatLastSeen in Hlabel. unfold_m. simpl in Hlabel.
           repeat case_match; discriminate. }
      exists label. split; [|split].
      * unfold getOnlineStatus. unfold outcome, closure.
        unfold mbind, M_bind, bind. rewrite Hentry, Hlate. simpl.
        rewrite Hlabel. reflexivity.
      * unfold outcome. by rewrite Hlabel.
      * intros Hnow. unfold formatLastSeen in Hlabel. unfold_m.
        simpl in Hlabel.
        assert ((clock e2 (ticks w2) - T) / 60000 = 2) as Hdiv.
        { symmetry.
          apply (Z.div_unique_pos _ 60000 2 (clock e2 (ticks w2) - T - 120000));
            lia. }
        rewrite Hdiv in Hlabel. injection Hlabel as <- _. reflexivity.
Qed.

(** C6 (as stated) fails.  Bob wrote [isOnline = true] at [T]; the listener
    handled the snapshot at [T + 119 s] and no snapshot came after it.
    Asked at [T + 121 s], [getOnlineStatus] still answers online. *)
Lemma getOnlineStatus_stale_counterexample :
  let T := 1700000000000 in
  let stored : gmap jsstring StatusNode :=
    {[js "bob" := {| s_isOnline := Some true; s_lastSeen := Some T;
                     s_uid := Some (js "bob") |}]} in
  let w := Sample.world (Sample.ui_of "alice" [] None "" "") Sample.emptyDB in
  let derived := run (onStatus (Some stored)) (Sample.frozen (T + 119000)) w in
  outcome (getOnlineStatus (js "bob")) (Sample.frozen (T + 121000)) derived
  = Normal (true, js "Online").
Proof. vm_compute. reflexivity. Qed.

(** [effective_online] at work: bob wrote [isOnline = true] at [T].  A
    listener run at [T + 119 s] has him shown online, also to a report made
    at [T + 125 s]; a listener run at [T + 121 s] has him shown offline,
    ["2m ago"] to a report made at that time. *)
Lemma effective_online_witness :
  let T := 1700000000000 in
  let stored : gmap jsstring StatusNode :=
    {[js "bob" := {| s_isOnline := Some true; s_lastSeen := Some T;
                     s_uid := Some (js "bob") |}]} in
  let w := Sample.world (Sample.ui_of "alice" [] None "" "") Sample.emptyDB in
  let early := run (onStatus (Some stored)) (Sample.frozen (T + 119000)) w in
  let late := run (onStatus (Some stored)) (Sample.frozen (T + 121000)) w in
  (outcome (getOnlineStatus (js "bob")) (Sample.frozen (T + 119000)) early
   = Normal (true, js "Online") ∧
   outcome (getOnlineStatus (js "bob")) (Sample.frozen (T + 125000)) early
   = Normal (true, js "Online")) ∧
  outcome (getOnlineStatus (js "bob")) (Sample.frozen (T + 121000)) late
  = Normal (false, js "2m ago").
Proof.
  intros T stored w early late.
  assert (stored !! js "bob" =
            Some {| s_isOnline := Some true; s_lastSeen := Some T;
                    s_uid := Some (js "bob") |}) as Hbob
    by apply lookup_singleton_eq.
  split; [split|].
  - apply (proj2 (effective_online (Sample.frozen (T + 119000)) w stored)
             (js "bob") T (Some (js "bob")) Hbob
             (Sample.frozen (T + 119000)) early eq_refl).
    intros k _. simpl. lia.
  - apply (proj2 (effective_online (Sample.frozen (T + 119000)) w stored)
             (js "bob") T (Some (js "bob")) Hbob
             (Sample.frozen (T + 125000)) early eq_refl).
    intros k _. simpl. lia.
  - destruct (proj2 (proj2 (effective_online (Sample.frozen (T + 121000)) w stored)
                (js "bob") T (Some (js "bob")) Hbob
                (Sample.frozen (T + 121000)) late eq_refl))
      as (label & Hshown & _ & Hlabel).
    { intros k _. simpl. lia. }
    rewrite Hshown, Hlabel; [reflexivity|]. simpl. lia.
Defined.

(** ** User search: ranking *)

Section SortFacts.
Context {A : Type} (cmp : A → A → Z).
Hypothesis cmp_consistent : consistentComparator cmp.

Let le (a b : A) : Prop := cmp a b <= 0.

Lemma cmp_total a b : le a b ∨ le b a.
Proof.
  destruct cmp_consistent as [Hsgn _]. specialize (Hsgn a b). unfold le.
  destruct (Z.sgn_spec (cmp a b)) as [[? ?]|[[? ?]|[? ?]]];
    destruct (Z.sgn_spec (cmp b a)) as [[? ?]|[[? ?]|[? ?]]]; lia.
Qed.

Lemma elem_of_insertSorted x y l :
  y ∈ insertSorted cmp x l ↔ y = x ∨ y ∈ l.
Proof.
  induction l as [|z l IH]; simpl.
  - rewrite list_elem_of_singleton, elem_of_nil. tauto.
  - destruct (cmp x z <=? 0).
    + rewrite elem_of_cons. reflexivity.
    + rewrite !elem_of_cons, IH. tauto.
Qed.

Lemma insertSorted_sorted x l :
  StronglySorted le l → StronglySorted le (insertSorted cmp x l).
Proof.
  destruct cmp_consistent as [_ Htrans].
  induction l as [|z l IH]; intros Hl; simpl.
  - repeat constructor.
  - apply StronglySorted_cons in Hl as [Hz Hl].
    destruct (cmp x z <=? 0) eqn:E.
    + apply Z.leb_le in E. apply StronglySorted_cons. split.
      * constructor; [exact E|].
        eapply Forall_impl; [exact Hz|]. intros y Hy. by eapply Htrans.
      * by apply StronglySorted_cons.
    + apply Z.leb_gt in E. apply StronglySorted_cons. split; [|by apply IH].
      apply Forall_forall. intros y Hy.
      apply elem_of_insertSorted in Hy as [->|Hy].
      * destruct (cmp_total z x) as [H|H]; [exact H|unfold le in H; lia].
      * rewrite Forall_forall in Hz. by apply Hz.
Qed.

Lemma sortWith_sorted l : StronglySorted le (sortWith cmp l).
Proof.
  induction l as [|x l IH]; simpl; [constructor|by apply insertSorted_sorted].
Qed.

Lemma sorted_lookup l i j a b :
  StronglySorted le l → l !! i = Some a → l !! j = Some b → (i < j)%nat →
  cmp a b <= 0.
Proof.
  intros Hl. revert i j. induction Hl as [|x l Hl IH Hx]; intros i j Hi Hj Hlt.
  - by rewrite lookup_nil in Hi.
  - destruct j as [|j]; [lia|]. simpl in Hj. destruct i as [|i]; simpl in Hi.
    + injection Hi as ->. rewrite Forall_forall in Hx.
      apply Hx. by eapply list_elem_of_lookup_2.
    + apply (IH i j); [done|done|lia].
Qed.

Lemma take_sorted n l : StronglySorted le l → StronglySorted le (take n l).
Proof.
  intros Hl. rewrite <- (take_drop n l) in Hl.
  by apply StronglySorted_app_1_l in Hl.
Qed.
End SortFacts.

Lemma defaultCompare_le x y : defaultCompare x y <= 0 ↔ str_lt y x = false.
Proof.
  unfold defaultCompare. destruct (str_lt x y) eqn:E1.
  - rewrite (str_lt_asym _ _ E1). split; [done|lia].
  - destruct (str_lt y x); split; (done || lia).
Qed.

Lemma defaultCompare_consistent : consistentComparator defaultCompare.
Proof.
  split.
  - intros a b. unfold defaultCompare.
    destruct (str_lt a b) eqn:E1.
    + by rewrite (str_lt_asym _ _ E1).
    + by destruct (str_lt b a).
  - intros a b c. rewrite !defaultCompare_le. intros Hba Hcb.
    destruct (str_lt c a) eqn:Hca; [|done].
    destruct (str_lt a b) eqn:Hab.
    + by rewrite (str_lt_trans _ _ _ Hca Hab) in Hcb.
    + rewrite (str_lt_total _ _ Hab Hba) in Hca. congruence.
Qed.

Lemma byRelevance_cases e term a b :
  byRelevance e term a b =
  if startsWithTerm e term a && negb (startsWithTerm e term b) then -1
  else if negb (startsWithTerm e term a) && startsWithTerm e term b then 1
  else localeCompare e (lowerOrEmpty e (doc_displayName a))
                       (lowerOrEmpty e (doc_displayName b)).
Proof. reflexivity. Qed.

Lemma byRelevance_consistent e term :
  consistentComparator (localeCompare e) →
  consistentComparator (byRelevance e term).
Proof.
  intros [Hsgn Htrans]. split.
  - intros a b. rewrite !byRelevance_cases.
    destruct (startsWithTerm e term a), (startsWithTerm e term b); simpl;
      done || apply Hsgn.
  - intros a b c. rewrite !byRelevance_cases.
    destruct (startsWithTerm e term a), (startsWithTerm e term b),
      (startsWithTerm e term c); simpl; try lia; apply Htrans.
Qed.

Lemma rank_sorted e term results :
  consistentComparator (localeCompare e) →
  StronglySorted (fun a b => byRelevance e term a b <= 0) (rank e term results).
Proof.
  intros H. unfold rank, slice0.
  apply take_sorted, sortWith_sorted, byRelevance_consistent, H.
Qed.

(** Whatever the document store answers, the list the search shows is
    the ranking of some result set (the empty one when a query fails). *)
Lemma searchUsers_shows_a_ranking e w :
  ∃ results,
    searchResults (ui (run searchUsers e w)) =
    rank e (trim (toLowerCase e (searchQuery (ui w)))) results.
Proof.
  unfold searchUsers. unfold_m. simpl.
  destruct (getDocs e (OrderedRange by_displayName _ _ _)) as [names|]; simpl;
    [|by exists []].
  destruct (getDocs e (OrderedRange by_username _ _ _)) as [usernames|]; simpl;
    [|by exists []].
  destruct (length _ =? 0)%nat; simpl.
  - destruct (getDocs e (Limit 50)) as [broad|]; simpl; [|by exists []].
    eexists. reflexivity.
  - eexists. reflexivity.
Qed.

(** C8.  Whatever the document store answers, the list [searchUsers]
    shows has at most 8 users; every user whose lower-cased display name
    or username starts with the search term stands before every user for
    whom neither does; and among users of the same kind an earlier one
    never compares after a later one by [localeCompare] of the lower-cased
    display names.  In particular, of two users one of whom matches by
    prefix and the other does not, the prefix match is ranked first
    whichever was found first.  [localeCompare] is taken to be a
    consistent comparator, as the language requires. *)
Theorem searchUsers_ranking e w :
  consistentComparator (localeCompare e) →
  let term := trim (toLowerCase e (searchQuery (ui w))) in
  let found := searchResults (ui (run searchUsers e w)) in
  (length found ≤ 8)%nat ∧
  (∀ i j a b,
     found !! i = Some a → found !! j = Some b →
     startsWithTerm e term a = true → startsWithTerm e term b = false →
     (i < j)%nat) ∧
  (∀ i j a b,
     found !! i = Some a → found !! j = Some b → (i < j)%nat →
     startsWithTerm e term a = startsWithTerm e term b →
     localeCompare e (lowerOrEmpty e (doc_displayName a))
                     (lowerOrEmpty e (doc_displayName b)) <= 0) ∧
  (∀ ka kb a b,
     startsWithTerm e term a = true → startsWithTerm e term b = false →
     rank e term [(kb, b); (ka, a)] = [a; b] ∧
     rank e term [(ka, a); (kb, b)] = [a; b]).
Proof.
  intros Hlc term found.
  destruct (searchUsers_shows_a_ranking e w) as [results Hfound].
  fold term found in Hfound.
  assert (StronglySorted (fun a b => byRelevance e term a b <= 0) found)
    as Hsorted by (rewrite Hfound; by apply rank_sorted).
  split; [|split; [|split]].
  - rewrite Hfound. unfold rank, slice0. rewrite length_take. lia.
  - intros i j a b Hi Hj Ha Hb.
    destruct (Nat.lt_trichotomy i j) as [Hlt|[->|Hgt]]; [exact Hlt| |].
    + rewrite Hi in Hj. injection Hj as ->. congruence.
    + pose proof (sorted_lookup _ _ _ _ _ _ Hsorted Hj Hi Hgt) as Hle.
      rewrite byRelevance_cases, Ha, Hb in Hle. simpl in Hle. lia.
  - intros i j a b Hi Hj Hlt Hsame.
    pose proof (sorted_lookup _ _ _ _ _ _ Hsorted Hi Hj Hlt) as Hle.
    rewrite byRelevance_cases, Hsame in Hle.
    by destruct (startsWithTerm e term b).
  - intros ka kb a b Ha Hb. unfold rank, slice0. simpl.
    rewrite !byRelevance_cases, Ha, Hb. simpl. done.
Qed.

(** [searchUsers_ranking] at work with ASCII lower-casing and comparison
    by code units, for the query ["Ali "].  When only the broad scan finds
    the two users, Bob Alison first, the list shown has Alice Smith first;
    when the username query already finds Alice Smith, the broad scan is
    skipped and she is the only user shown. *)
Lemma searchUsers_ranking_witness :
  let broadOnly q :=
    match q with
    | OrderedRange _ _ _ _ => Some []
    | Limit _ => Some [Sample.bobAlison; Sample.aliceSmith]
    end in
  let byUsername q :=
    match q with
    | OrderedRange by_username _ _ _ => Some [Sample.aliceSmith]
    | OrderedRange by_displayName _ _ _ => Some []
    | Limit _ => Some [Sample.bobAlison; Sample.aliceSmith]
    end in
  let e := Sample.env_at 1000 broadOnly in
  let w := Sample.world
             (Sample.withQuery "Ali " (Sample.ui_of "carol" [] None "" ""))
             Sample.emptyDB in
  let found := searchResults (ui (run searchUsers e w)) in
  consistentComparator (localeCompare e) ∧
  found = [Sample.aliceSmith; Sample.bobAlison] ∧
  (length found ≤ 8)%nat ∧
  rank e (js "ali") [(js "u2", Sample.bobAlison); (js "u1", Sample.aliceSmith)]
  = [Sample.aliceSmith; Sample.bobAlison] ∧
  searchResults (ui (run searchUsers (Sample.env_at 1000 byUsername) w))
  = [Sample.aliceSmith].
Proof.
  intros broadOnly byUsername e w found.
  destruct (searchUsers_ranking e w defaultCompare_consistent)
    as (Hlen & _ & _ & Hpair).
  split; [exact defaultCompare_consistent|].
  split; [reflexivity|]. split; [exact Hlen|].
  split; [|reflexivity].
  apply (Hpair (js "u1") (js "u2")); reflexivity.
Defined.

(** * Further properties *)

(** ** Running a handler against a backend that accepts every request *)

Lemma forOf_markers e c :
  (∀ n, accepts e n = true) →
  ∀ ps w,
    forOf ps (fun userId => write (set_userChat userId c)) e w =
    (Normal (),
     {| ui := ui w;
        db := fold_left (fun d u => set_userChat u c d) ps (db w);
        requests := (length ps + requests w)%nat;
        ticks := ticks w; pushed := pushed w |}).
Proof.
  intros Hall. induction ps as [|p ps IH]; intros w.
  - by destruct w.
  - simpl. unfold_m. rewrite Hall. simpl. rewrite IH. simpl.
    do 2 f_equal. lia.
Qed.

Lemma markers_fold c ps d x :
  x ∈ db_userChats (fold_left (fun d u => set_userChat u c d) ps d) ↔
  x ∈ db_userChats d ∨ ∃ u, u ∈ ps ∧ x = (u, c).
Proof.
  revert d. induction ps as [|p ps IH]; intros d; simpl.
  - split; [auto|]. intros [H|(u & Hu & _)]; [done|]. by apply not_elem_of_nil in Hu.
  - rewrite IH. simpl. rewrite elem_of_union, elem_of_singleton. split.
    + intros [[->|H]|(u & Hu & ->)]; [right; exists p; split; [left|done]|by left|].
      right. exists u. split; [by right|done].
    + intros [H|(u & Hu & ->)]; [left; by right|].
      apply elem_of_cons in Hu as [->|Hu]; [left; by left|].
      right. by exists u.
Qed.

Lemma fold_keeps_rest c ps d :
  db_chats (fold_left (fun d u => set_userChat u c d) ps d) = db_chats d ∧
  db_messages (fold_left (fun d u => set_userChat u c d) ps d) = db_messages d.
Proof. revert d. induction ps as [|p ps IH]; intros d; simpl; [done|]. by rewrite !(proj1 (IH _)), !(proj2 (IH _)). Qed.

Lemma read_accepted {A} (f : DB → A) e w :
  accepts e (requests w) = true →
  read f e w =
  (Normal (f (db w)),
   {| ui := ui w; db := db w; requests := S (requests w);
      ticks := ticks w; pushed := pushed w |}).
Proof. intros H. unfold read. by rewrite H. Qed.

Lemma write_accepted (f : DB → DB) e w :
  accepts e (requests w) = true →
  write f e w =
  (Normal (),
   {| ui := ui w; db := f (db w); requests := S (requests w);
      ticks := ticks w; pushed := pushed w |}).
Proof. intros H. unfold write. by rewrite H. Qed.

Lemma forAcc_details e :
  (∀ n, accepts e n = true) →
  ∀ sel (acc : gmap jsstring Details * bool) w,
    forAcc sel
      (fun (acc : gmap jsstring Details * bool) userId =>
         userSnapshot ← read (fun d => db_users d !! userId);
         match userSnapshot with
         | Some user =>
             mret (<[userId := {| name := displayName user;
                                  avatar := photoURL user |}]> acc.1,
                   acc.2 || bool_decide (photoURL user = None))
         | None => mret acc
         end) acc e w =
    (Normal (collectDetails (db_users (db w)) sel acc),
     {| ui := ui w; db := db w;
        requests := (length sel + requests w)%nat;
        ticks := ticks w; pushed := pushed w |}).
Proof.
  intros Hall. induction sel as [|u sel IH]; intros acc w.
  - by destruct w.
  - cbn [forAcc].
    rewrite (bind_normal _ _ e w
               (match db_users (db w) !! u with
                | Some user =>
                    (<[u := {| name := displayName user;
                               avatar := photoURL user |}]> acc.1,
                     acc.2 || bool_decide (photoURL user = None))
                | None => acc end)
               {| ui := ui w; db := db w; requests := S (requests w);
                  ticks := ticks w; pushed := pushed w |}).
    + rewrite IH. simpl. do 2 f_equal. lia.
    + rewrite (bind_normal _ _ e w _ _ (read_accepted _ e w (Hall _))).
      by destruct (db_users (db w) !! u).
Qed.

Lemma bind_step {A B} (m : M A) (k : A → M B) e w a w1 r :
  m e w = (Normal a, w1) → k a e w1 = r → (m ≫= k) e w = r.
Proof. intros H <-. by apply bind_normal. Qed.

Lemma tryCatch_step (body handler : M unit) e w w1 :
  body e w = (Normal (), w1) → tryCatch body handler e w = (Normal (), w1).
Proof. intros H. unfold tryCatch. by rewrite H. Qed.

Lemma tryCatch_thrown (body handler : M unit) e w w1 r :
  body e w = (Thrown, w1) → handler e w1 = r → tryCatch body handler e w = r.
Proof. intros H <-. unfold tryCatch. by rewrite H. Qed.

Lemma tryFinally_step (body final : M unit) e w w1 r :
  body e w = (Normal (), w1) → final e w1 = r → tryFinally body final e w = r.
Proof. intros H <-. unfold tryFinally. by rewrite H. Qed.

(** One step of a run in which the backend accepts every request. *)
Ltac accepted_step Hall :=
  first
    [ eapply bind_step;
      [ first [ apply write_accepted, Hall
              | apply read_accepted, Hall
              | apply forAcc_details, Hall
              | apply forOf_markers, Hall
              | reflexivity ]
      | cbv beta zeta; cbn [ui db requests ticks pushed] ]
    | eapply tryFinally_step; [|cbv beta zeta; cbn [ui db requests ticks pushed]]
    | eapply tryCatch_step
    | apply write_accepted, Hall ].

(** ** Creating a group *)

Lemma collectDetails_lookup (users : gmap jsstring User) (sel : list jsstring)
    (acc : gmap jsstring Details * bool) (k : jsstring) :
  (collectDetails users sel acc).1 !! k =
  match (if bool_decide (k ∈ sel) then users !! k else None) with
  | Some user => Some {| name := displayName user; avatar := photoURL user |}
  | None => acc.1 !! k
  end.
Proof.
  unfold collectDetails.
  revert acc. induction sel as [|u sel IH]; intros acc; simpl.
  - by rewrite ?bool_decide_eq_false_2 by apply not_elem_of_nil.
  - rewrite IH. destruct (bool_decide (k ∈ sel)) eqn:Hin.
    + apply bool_decide_eq_true in Hin.
      rewrite bool_decide_eq_true_2 by (by right).
      destruct (users !! k) as [user|] eqn:Hk; [done|].
      destruct (users !! u) as [user'|] eqn:Hu; [|done].
      simpl. rewrite lookup_insert_ne; [done|]. intros ->. congruence.
    + apply bool_decide_eq_false in Hin.
      destruct (decide (k = u)) as [->|Hne].
      * rewrite bool_decide_eq_true_2 by left.
        destruct (users !! u) as [user|]; [by simpl; rewrite lookup_insert_eq|done].
      * rewrite bool_decide_eq_false_2.
        2:{ intros H. apply elem_of_cons in H as [?|?]; done. }
        destruct (users !! u) as [user|]; [by simpl; rewrite lookup_insert_ne|done].
Qed.

Lemma collectDetails_undefined (users : gmap jsstring User) (sel : list jsstring)
    (acc : gmap jsstring Details * bool) :
  (collectDetails users sel acc).2 = true ↔
  acc.2 = true ∨
  ∃ u user, u ∈ sel ∧ users !! u = Some user ∧ photoURL user = None.
Proof.
  unfold collectDetails.
  revert acc. induction sel as [|u sel IH]; intros acc; simpl.
  - split; [by left|]. intros [H|(u & user & Hu & _)]; [done|].
    by apply not_elem_of_nil in Hu.
  - rewrite IH. split.
    + intros [Hacc|(u' & user & Hin & Hrec & Hnone)].
      * destruct (users !! u) as [user|] eqn:Hu; [|by left]. simpl in Hacc.
        apply orb_true_iff in Hacc as [Hacc|Hnone]; [by left|].
        apply bool_decide_eq_true in Hnone.
        right. exists u, user. split; [left|done].
      * right. exists u', user. split; [by right|done].
    + intros [Hacc|(u' & user & Hin & Hrec & Hnone)].
      * left. destruct (users !! u); [|done]. simpl. by rewrite Hacc.
      * apply elem_of_cons in Hin as [->|Hin].
        -- left. rewrite Hrec. simpl. rewrite bool_decide_eq_true_2 by done.
           apply orb_true_r.
        -- right. by exists u', user.
Qed.

Lemma createGroupChat_run e w uid ud :
  currentUser (ui w) = Some uid →
  userData (ui w) = Some ud →
  selectedUsers (ui w) ≠ [] →
  (∀ u user, u ∈ selectedUsers (ui w) → db_users (db w) !! u = Some user →
             photoURL user ≠ None) →
  (∀ n, accepts e n = true) →
    createGroupChat e w =
    (Normal (),
     {| ui :=
          setLoading false
            (pushNotification
               (notice success (js "Group Created")
                  (js "Group chat created successfully"))
               (setSelectedUsers []
                  (setGroupName []
                     (setShowCreateGroup false (setLoading true (ui w))))));
        db :=
          fold_left (fun d u => set_userChat u (pushKey e (pushed w)) d)
            (uid :: selectedUsers (ui w))
            (set_chat (pushKey e (pushed w))
               {| n_type := Some group;
                  n_participants := uid :: selectedUsers (ui w);
                  n_participantDetails :=
                    (collectDetails (db_users (db w)) (selectedUsers (ui w))
                       ({[uid := {| name := displayName ud;
                                    avatar := photoURL ud |}]}, false)).1;
                  n_admins := [uid];
                  n_createdBy := Some uid;
                  n_lastMessage := None;
                  n_name :=
                    Some (if falsy (groupName (ui w))
                          then js "Group with " ++
                               showZ (Z.of_nat (S (length (selectedUsers (ui w))))) ++
                               js " members"
                          else groupName (ui w));
                  n_createdAt := None;
                  n_updatedAt := None |}
               (db w));
        requests :=
          (length (uid :: selectedUsers (ui w)) +
           S (length (selectedUsers (ui w)) + requests w))%nat;
        ticks := S (S (ticks w)); pushed := S (pushed w) |}).
Proof.
  intros Hc Hu Hsel Hphotos Hall.
  assert ((collectDetails (db_users (db w)) (selectedUsers (ui w))
             ({[uid := {| name := displayName ud; avatar := photoURL ud |}]},
              false)).2 = false) as Hflag.
  { destruct (_.2) eqn:E; [|done].
    apply collectDetails_undefined in E as [E|(u & user & Hin & Hrec & Hnone)];
      [done|]. by destruct (Hphotos u user Hin Hrec). }
  assert ((length (selectedUsers (ui w)) <? 1)%nat = false) as Hlen.
  { destruct (selectedUsers (ui w)); [done|reflexivity]. }
  unfold createGroupChat.
  eapply bind_step; [reflexivity|]. cbv beta. rewrite Hc, Hu, Hlen.
  repeat accepted_step Hall.
  all: rewrite ?Hflag.
  all: repeat accepted_step Hall.
  all: reflexivity.
Qed.

(** X1.  [createGroupChat] with nobody selected, or without a signed-in
    user or profile, only shows the "Invalid Group" error: the store is
    untouched, no request is issued and no push id is used up. *)
Theorem createGroupChat_rejects e w :
  currentUser (ui w) = None ∨ userData (ui w) = None ∨ selectedUsers (ui w) = [] →
  run createGroupChat e w =
  {| ui := pushNotification
             (notice error (js "Invalid Group")
                (js "Please select at least 1 user for a group chat")) (ui w);
     db := db w; requests := requests w; ticks := ticks w; pushed := pushed w |}.
Proof.
  intros H. unfold createGroupChat. unfold_m. simpl.
  destruct (currentUser (ui w)) as [uid|]; [|done].
  destruct (userData (ui w)) as [ud|]; [|done].
  destruct H as [H|[H|H]]; [done|done|]. by rewrite H.
Qed.

(** X1 at work: alice asks for a group without selecting anybody. *)
Lemma createGroupChat_rejects_witness :
  let w := Sample.world (Sample.ui_of "alice" [] None "" "") Sample.emptyDB in
  db (run createGroupChat Sample.env0 w) = db w ∧
  title <$> notifications (ui (run createGroupChat Sample.env0 w)) =
    [js "Invalid Group"].
Proof.
  intros w.
  rewrite (createGroupChat_rejects Sample.env0 w); [|right; right; reflexivity].
  split; reflexivity.
Defined.

(** X2.  [createGroupChat] with at least one user selected, a photo in
    every [users/] record of a selected user and a backend that accepts
    every request stores, under the generated push id, a
    group whose participants are the creator followed by the selected
    users, whose only admin and creator is the caller and whose name is
    the typed name or, when none was typed, "Group with N members"; it
    gives every participant a membership marker for that chat and no other
    marker, leaves the message logs alone, resets the form and reports
    success. *)
Theorem createGroupChat_creates e w uid ud :
  currentUser (ui w) = Some uid →
  userData (ui w) = Some ud →
  selectedUsers (ui w) ≠ [] →
  (∀ u user, u ∈ selectedUsers (ui w) → db_users (db w) !! u = Some user →
             photoURL user ≠ None) →
  (∀ n, accepts e n = true) →
  let w' := run createGroupChat e w in
  let chatId := pushKey e (pushed w) in
  (∃ n, db_chats (db w') !! chatId = Some n ∧
        n_type n = Some group ∧
        n_participants n = uid :: selectedUsers (ui w) ∧
        n_admins n = [uid] ∧
        n_createdBy n = Some uid ∧
        n_name n =
          Some (if falsy (groupName (ui w))
                then js "Group with " ++
                     showZ (Z.of_nat (S (length (selectedUsers (ui w))))) ++
                     js " members"
                else groupName (ui w))) ∧
  (∀ p, p ∈ uid :: selectedUsers (ui w) → (p, chatId) ∈ db_userChats (db w')) ∧
  (∀ x, x ∈ db_userChats (db w') →
        x ∈ db_userChats (db w) ∨ (x.2 = chatId ∧ x.1 ∈ uid :: selectedUsers (ui w))) ∧
  db_messages (db w') = db_messages (db w) ∧
  selectedUsers (ui w') = [] ∧ groupName (ui w') = [] ∧
  showCreateGroup (ui w') = false ∧ loading (ui w') = false ∧
  notifications (ui w') =
    notifications (ui w) ++
    [notice success (js "Group Created") (js "Group chat created successfully")].
Proof.
  intros Hc Hu Hsel Hphotos Hall w' chatId. subst w'. unfold run.
  rewrite (createGroupChat_run e w uid ud Hc Hu Hsel Hphotos Hall).
  cbn [snd ui db].
  split; [|split; [|split; [|split]]].
  - rewrite (proj1 (fold_keeps_rest _ _ _)). simpl.
    eexists. rewrite lookup_insert_eq. by repeat split.
  - intros p Hp. apply markers_fold. right. by exists p.
  - intros x Hx. apply markers_fold in Hx as [Hx|(u & Hu' & ->)]; [by left|].
    right. done.
  - by rewrite (proj2 (fold_keeps_rest _ _ _)).
  - done.
Qed.

(** X2 at work: alice creates a group with bob and carol. *)
Lemma createGroupChat_creates_witness :
  let w := Sample.world
             (Sample.withSelected ["bob"; "carol"]
                (Sample.ui_of "alice" [] None "" ""))
             Sample.emptyDB in
  let w' := run createGroupChat Sample.env0 w in
  n_participants <$> db_chats (db w') !! pushKey Sample.env0 0 =
    Some [js "alice"; js "bob"; js "carol"] ∧
  n_name <$> db_chats (db w') !! pushKey Sample.env0 0 =
    Some (Some (js "Group with 3 members")) ∧
  (js "carol", pushKey Sample.env0 0) ∈ db_userChats (db w') ∧
  selectedUsers (ui w') = [].
Proof.
  intros w w'.
  destruct (createGroupChat_creates Sample.env0 w (js "alice")
              (Sample.user "alice") eq_refl eq_refl)
    as ((n & Hn & _ & Hps & _ & _ & Hname) & Hmark & _ & _ & Hsel & _);
    [discriminate|intros u user _ Hrec; discriminate Hrec|reflexivity|].
  split; [|split; [|split]].
  - subst w'. change (pushKey Sample.env0 0) with (pushKey Sample.env0 (pushed w)).
    rewrite Hn. simpl. by rewrite Hps.
  - subst w'. change (pushKey Sample.env0 0) with (pushKey Sample.env0 (pushed w)).
    rewrite Hn. simpl. by rewrite Hname.
  - apply (Hmark (js "carol")). right. right. left.
  - exact Hsel.
Defined.

(** X3.  In the group [createGroupChat] stores (under the conditions of
    X2), a selected user found under [users/] gets the display name and
    avatar stored there; a
    selected user with no record under [users/] is still a participant
    but has no [participantDetails] entry; the creator keeps the details
    of their own profile unless they selected themselves; and nobody
    outside the participants has details. *)
Theorem createGroupChat_details e w uid ud :
  currentUser (ui w) = Some uid →
  userData (ui w) = Some ud →
  selectedUsers (ui w) ≠ [] →
  (∀ u user, u ∈ selectedUsers (ui w) → db_users (db w) !! u = Some user →
             photoURL user ≠ None) →
  (∀ n, accepts e n = true) →
  ∃ n, db_chats (db (run createGroupChat e w)) !! pushKey e (pushed w) = Some n ∧
    (∀ u user, u ∈ selectedUsers (ui w) → db_users (db w) !! u = Some user →
       n_participantDetails n !! u =
         Some {| name := displayName user; avatar := photoURL user |}) ∧
    (∀ u, u ∈ selectedUsers (ui w) → db_users (db w) !! u = None → u ≠ uid →
       u ∈ n_participants n ∧ n_participantDetails n !! u = None) ∧
    (uid ∉ selectedUsers (ui w) →
       n_participantDetails n !! uid =
         Some {| name := displayName ud; avatar := photoURL ud |}) ∧
    (∀ u, is_Some (n_participantDetails n !! u) → u ∈ n_participants n).
Proof.
  intros Hc Hu Hsel Hphotos Hall. unfold run.
  rewrite (createGroupChat_run e w uid ud Hc Hu Hsel Hphotos Hall).
  cbn [snd ui db].
  rewrite (proj1 (fold_keeps_rest _ _ _)). simpl.
  eexists. rewrite lookup_insert_eq. split; [done|]. simpl.
  split; [|split; [|split]].
  - intros u user Hin Hrec. rewrite collectDetails_lookup. cbn [fst].
    rewrite bool_decide_eq_true_2 by done. by rewrite Hrec.
  - intros u Hin Hrec Hne. split; [by right|]. rewrite collectDetails_lookup. cbn [fst].
    rewrite bool_decide_eq_true_2 by done. rewrite Hrec.
    by rewrite lookup_singleton_ne.
  - intros Hnot. rewrite collectDetails_lookup. cbn [fst].
    rewrite bool_decide_eq_false_2 by done. by rewrite lookup_singleton_eq.
  - intros u [d Hd]. rewrite collectDetails_lookup in Hd. cbn [fst] in Hd.
    destruct (bool_decide (u ∈ selectedUsers (ui w))) eqn:Hin.
    + apply bool_decide_eq_true in Hin. by right.
    + destruct (decide (u = uid)) as [->|Hne]; [left|].
      by rewrite lookup_singleton_ne in Hd.
Qed.

(** X3 at work: alice selects bob, who has a record under [users/], and
    carol, who has none. *)
Lemma createGroupChat_details_witness :
  let w := Sample.world
             (Sample.withSelected ["bob"; "carol"]
                (Sample.ui_of "alice" [] None "" ""))
             Fixtures.usersBob in
  ∃ n, db_chats (db (run createGroupChat Sample.env0 w)) !! pushKey Sample.env0 0
         = Some n ∧
       n_participantDetails n !! js "bob" =
         Some {| name := js "Bob B";
                 avatar := Some (js "https://example.org/bob.png") |} ∧
       js "carol" ∈ n_participants n ∧
       n_participantDetails n !! js "carol" = None.
Proof.
  intros w.
  destruct (createGroupChat_details Sample.env0 w (js "alice")
              (Sample.user "alice") eq_refl eq_refl)
    as (n & Hn & Hknown & Hunknown & _); [discriminate| |reflexivity|].
  { intros u user Hin Hrec Hnone.
    apply elem_of_cons in Hin as [->|Hin];
      [|apply list_elem_of_singleton in Hin as ->]; vm_compute in Hrec;
      [injection Hrec as <-|]; discriminate. }
  exists n. split; [exact Hn|]. split.
  - apply (Hknown (js "bob")
             {| displayName := js "Bob B";
                photoURL := Some (js "https://example.org/bob.png") |});
      [left|reflexivity].
  - apply (Hunknown (js "carol")); [right; left|reflexivity|discriminate].
Defined.

(** X4.  [createGroupChat] fails when the [users/] record of a selected
    user has no [photoURL], which is how the application stores a user
    without a photo: the detail's avatar is then [undefined], the store's
    client refuses the chat record before sending it, and the handler
    ends with the store as it was, no membership marker written, the
    "Failed to create group chat" error shown, the form left as it was
    and [loading] off.  The only requests made are the reads of the
    selected users. *)
Theorem createGroupChat_undefined_avatar e w uid ud u user :
  currentUser (ui w) = Some uid →
  userData (ui w) = Some ud →
  u ∈ selectedUsers (ui w) →
  db_users (db w) !! u = Some user →
  photoURL user = None →
  (∀ n, accepts e n = true) →
  run createGroupChat e w =
  {| ui := setLoading false
             (pushNotification
                (notice error (js "Error") (js "Failed to create group chat"))
                (setLoading true (ui w)));
     db := db w;
     requests := (length (selectedUsers (ui w)) + requests w)%nat;
     ticks := S (S (ticks w)); pushed := S (pushed w) |}.
Proof.
  intros Hc Hu Hin Hrec Hnone Hall.
  assert ((collectDetails (db_users (db w)) (selectedUsers (ui w))
             ({[uid := {| name := displayName ud; avatar := photoURL ud |}]},
              false)).2 = true) as Hflag.
  { apply collectDetails_undefined. right. by exists u, user. }
  assert ((length (selectedUsers (ui w)) <? 1)%nat = false) as Hlen.
  { destruct (selectedUsers (ui w)); [by apply not_elem_of_nil in Hin|reflexivity]. }
  assert (createGroupChat e w =
    (Normal (),
     {| ui := setLoading false
                (pushNotification
                   (notice error (js "Error") (js "Failed to create group chat"))
                   (setLoading true (ui w)));
        db := db w;
        requests := (length (selectedUsers (ui w)) + requests w)%nat;
        ticks := S (S (ticks w)); pushed := S (pushed w) |})) as Hrun.
  { unfold createGroupChat.
    eapply bind_step; [reflexivity|]. cbv beta. rewrite Hc, Hu, Hlen.
    eapply bind_step; [reflexivity|]. cbv beta.
    eapply tryFinally_step.
    - eapply tryCatch_thrown.
      + eapply bind_step; [reflexivity|]. cbv beta zeta.
        eapply bind_step; [apply forAcc_details, Hall|].
        cbv beta zeta. cbn [ui db requests ticks pushed].
        do 2 (eapply bind_step; [reflexivity|];
              cbv beta zeta; cbn [ui db requests ticks pushed]).
        rewrite Hflag. reflexivity.
      + reflexivity.
    - reflexivity. }
  unfold run. by rewrite Hrun.
Qed.

(** X4 at work: alice selects bob, whose record under [users/] has no
    photo. *)
Lemma createGroupChat_undefined_avatar_witness :
  let w := Sample.world
             (Sample.withSelected ["bob"; "carol"]
                (Sample.ui_of "alice" [] None "" ""))
             Fixtures.usersBobNoPhoto in
  let w' := run createGroupChat Sample.env0 w in
  db w' = db w ∧
  title <$> notifications (ui w') = [js "Error"] ∧
  selectedUsers (ui w') = [js "bob"; js "carol"] ∧
  requests w' = 2%nat.
Proof.
  intros w w'. subst w'.
  rewrite (createGroupChat_undefined_avatar Sample.env0 w (js "alice")
             (Sample.user "alice") (js "bob") (Sample.user "Bob B")
             eq_refl eq_refl);
    [by repeat split|left|reflexivity|reflexivity|reflexivity].
Defined.

(** ** Group administration *)



Lemma without_app_fresh t (l : list jsstring) : t ∉ l → without t (l ++ [t]) = l.
Proof.
  intros Hnot. unfold without. rewrite List.filter_app. simpl.
  rewrite bool_decide_eq_true_2 by done. simpl. rewrite app_nil_r.
  induction l as [|x l IH]; simpl; [done|].
  apply not_elem_of_cons in Hnot as [Hne Hnot].
  rewrite bool_decide_eq_false_2 by done. simpl. by rewrite IH.
Qed.

(** The state the component is in once [t] has been promoted through the
    chat object [chat]: the object lists [t] among its admins. *)
Lemma toggleAdmin_demotes e w chat l uid t :
  admins chat = Some l → uid ∈ l → t ∉ l →
  (∀ n, accepts e n = true) →
  activeChat (ui w) = Some (pushAdmin t chat) →
  currentUser (ui w) = Some uid →
  let w' := run (toggleAdmin t) e w in
  activeChat (ui w') = Some (pushAdmin t chat) ∧
  currentUser (ui w') = Some uid ∧
  n_admins <$> db_chats (db w') !! chat_id chat = Some l.
Proof.
  intros Hl Huid Ht Hall Ha Hc. unfold toggleAdmin. unfold_m. simpl.
  rewrite Ha, Hc. unfold adminsInclude. simpl. rewrite Hl. simpl.
  assert (arrIncludes (l ++ [t]) uid = true) as ->.
  { apply arrIncludes_true, elem_of_app. by left. }
  assert (arrIncludes (l ++ [t]) t = true) as ->.
  { apply arrIncludes_true, elem_of_app. right. left. }
  simpl. rewrite Hall. simpl. rewrite lookup_insert_eq. simpl.
  by rewrite without_app_fresh.
Qed.

(** X6.  When an admin promotes a user with [toggleAdmin], the user is
    appended to the stored admins and, because the handler pushes onto the
    admins array of the chat object in state, that object now lists the
    user as admin; every later [toggleAdmin] of that user through the same
    object therefore demotes: after any number of further calls the stored
    admins are the original ones, while the object still lists the
    user. *)
Theorem toggleAdmin_sticky e w chat uid t :
  activeChat (ui w) = Some chat →
  currentUser (ui w) = Some uid →
  adminsInclude chat uid = true →
  adminsInclude chat t = false →
  (∀ n, accepts e n = true) →
  let promoted := run (toggleAdmin t) e w in
  n_admins <$> db_chats (db promoted) !! chat_id chat =
    Some (default [] (admins chat) ++ [t]) ∧
  ∀ k, let later := Nat.iter (S k) (run (toggleAdmin t) e) promoted in
       n_admins <$> db_chats (db later) !! chat_id chat =
         Some (default [] (admins chat)) ∧
       admins <$> activeChat (ui later) =
         Some (Some (default [] (admins chat) ++ [t])).
Proof.
  intros Ha Hc Hadm Ht Hall promoted.
  - destruct (admins chat) as [l|] eqn:Hl; [|by unfold adminsInclude in Hadm; rewrite Hl in Hadm].
    assert (uid ∈ l) as Huid.
    { apply arrIncludes_true. unfold adminsInclude in Hadm. by rewrite Hl in Hadm. }
    assert (t ∉ l) as Hfresh.
    { intros Hin. apply arrIncludes_true in Hin.
      unfold adminsInclude in Ht. rewrite Hl in Ht. congruence. }
    assert (activeChat (ui promoted) = Some (pushAdmin t chat) ∧
            currentUser (ui promoted) = Some uid ∧
            n_admins <$> db_chats (db promoted) !! chat_id chat = Some (l ++ [t]))
      as (Ha1 & Hc1 & Hst1).
    { subst promoted. unfold toggleAdmin. unfold_m. simpl.
      rewrite Ha, Hc, Hadm, Ht. simpl. rewrite Hall. simpl.
      rewrite lookup_insert_eq. simpl. by rewrite Hl. }
    split; [exact Hst1|].
    intros k.
    assert (activeChat (ui (Nat.iter (S k) (run (toggleAdmin t) e) promoted)) =
              Some (pushAdmin t chat) ∧
            currentUser (ui (Nat.iter (S k) (run (toggleAdmin t) e) promoted)) =
              Some uid ∧
            n_admins <$>
              db_chats (db (Nat.iter (S k) (run (toggleAdmin t) e) promoted))
                !! chat_id chat = Some l) as (Hak & _ & Hstk).
    { induction k as [|k IH].
      - by apply (toggleAdmin_demotes e promoted chat l uid t).
      - destruct IH as (Ha' & Hc' & _).
        by apply (toggleAdmin_demotes e _ chat l uid t). }
    simpl in *. split; [exact Hstk|]. rewrite Hak. simpl. by rewrite Hl.
Qed.

(** X6 at work: alice promotes bob and then toggles him twice more. *)
Lemma toggleAdmin_sticky_witness :
  let duo := Sample.groupOf ["alice"; "bob"] ["alice"] in
  let w := Sample.world (Sample.ui_of "alice" [duo] (Some duo) "" "")
             (Sample.dbWith duo) in
  let toggle := run (toggleAdmin (js "bob")) Sample.env0 in
  let promoted := toggle w in
  n_admins <$> db_chats (db promoted) !! chat_id duo =
    Some [js "alice"; js "bob"] ∧
  n_admins <$> db_chats (db (Nat.iter 1 toggle promoted)) !! chat_id duo =
    Some [js "alice"] ∧
  n_admins <$> db_chats (db (Nat.iter 2 toggle promoted)) !! chat_id duo =
    Some [js "alice"].
Proof.
  intros duo w toggle promoted.
  destruct (toggleAdmin_sticky Sample.env0 w duo (js "alice") (js "bob")
              eq_refl eq_refl eq_refl eq_refl (fun _ => eq_refl))
    as [Hfirst Hlater].
  split; [exact Hfirst|]. split.
  - exact (proj1 (Hlater 0%nat)).
  - exact (proj1 (Hlater 1%nat)).
Defined.

(** ** Deleting and opening an individual chat *)

(** X7.  [deleteChat] on an individual chat of the caller's list, with
    every request accepted, removes the membership markers of both the
    caller and the other participant and no other marker, leaves every
    other chat record and message log as it was, closes the confirmation
    dialog and reports success. *)
Theorem deleteChat_individual_markers e w uid chatId chat otherUser :
  currentUser (ui w) = Some uid →
  List.find (hasId chatId) (chats (ui w)) = Some chat →
  chat_type chat = individual →
  List.find (fun p => negb (bool_decide (p = uid))) (participants chat) =
    Some otherUser →
  otherUser ≠ [] →
  (∀ n, accepts e n = true) →
  let w' := run (deleteChat chatId) e w in
  ((uid, chatId) ∉ db_userChats (db w')) ∧
  ((otherUser, chatId) ∉ db_userChats (db w')) ∧
  (∀ x, x ≠ (uid, chatId) → x ≠ (otherUser, chatId) →
        (x ∈ db_userChats (db w') ↔ x ∈ db_userChats (db w))) ∧
  (∀ c, c ≠ chatId →
        db_chats (db w') !! c = db_chats (db w) !! c ∧
        db_messages (db w') !! c = db_messages (db w) !! c) ∧
  showDeleteConfirm (ui w') = None ∧
  notifications (ui w') =
    notifications (ui w) ++
    [notice success (js "Chat Deleted") (js "Chat has been deleted successfully")].
Proof.
  intros Hc Hfind Hty Hother Hne Hall.
  unfold deleteChat, closeIfActive. unfold_m. simpl.
  rewrite Hc, Hfind. unfold isIndividual. rewrite Hty, Hother.
  repeat (rewrite Hall; simpl).
  destruct otherUser as [|c0 rest]; [done|]. simpl.
  repeat (rewrite Hall; simpl).
  assert (∀ s : gset (jsstring * jsstring),
            (uid, chatId) ∉ s ∖ {[(uid, chatId)]} ∖ {[(c0 :: rest, chatId)]}) as H1.
  { intros s. rewrite !elem_of_difference, !elem_of_singleton. tauto. }
  assert (∀ (s : gset (jsstring * jsstring)) x,
            x ≠ (uid, chatId) → x ≠ (c0 :: rest, chatId) →
            x ∈ s ∖ {[(uid, chatId)]} ∖ {[(c0 :: rest, chatId)]} ↔ x ∈ s) as H2.
  { intros s x ? ?. rewrite !elem_of_difference, !elem_of_singleton. tauto. }
  destruct (activeChat (ui w)) as [a|]; [destruct (hasId chatId a)|]; simpl;
    (split; [apply H1|]; split; [apply marker_removed|]; split; [apply H2|];
     split; [|done]; intros c Hc'; by rewrite !lookup_delete_ne).
Qed.

(** X7 at work: alice deletes her chat with bob. *)
Lemma deleteChat_individual_markers_witness :
  let chat := Fixtures.aliceBob in
  let w := Sample.world (Sample.ui_of "alice" [chat] (Some chat) "" "")
             (Sample.dbWith chat) in
  ((js "bob", js "alice_bob") ∈ db_userChats (db w)) ∧
  ((js "alice", js "alice_bob") ∉
     db_userChats (db (run (deleteChat (js "alice_bob")) Sample.env0 w))) ∧
  ((js "bob", js "alice_bob") ∉
     db_userChats (db (run (deleteChat (js "alice_bob")) Sample.env0 w))).
Proof.
  intros chat w.
  destruct (deleteChat_individual_markers Sample.env0 w (js "alice")
              (js "alice_bob") chat (js "bob")
              eq_refl eq_refl eq_refl eq_refl)
    as (Hmine & Hother & _); [discriminate|reflexivity|].
  split; [vm_compute; reflexivity|]. split; [exact Hmine|exact Hother].
Defined.

(** X8.  [createOrGetIndividualChat] opens the individual chat with the
    other user that the caller's list already holds, without any request
    or write.  When the list holds none and the backend accepts the
    writes, both users get a membership marker for the new chat, no other
    marker appears, the active chat is not changed and success is
    reported. *)
Theorem createOrGetIndividualChat_paths e w uid ud otherUserId otherUserData :
  currentUser (ui w) = Some uid →
  userData (ui w) = Some ud →
  let w' := run (createOrGetIndividualChat otherUserId otherUserData) e w in
  (∀ chat,
     List.find (fun chat => isIndividual chat &&
                            arrIncludes (participants chat) otherUserId)
       (chats (ui w)) = Some chat →
     w' = {| ui := setActiveChat (Some chat) (ui w); db := db w;
             requests := requests w; ticks := ticks w; pushed := pushed w |}) ∧
  (List.find (fun chat => isIndividual chat &&
                          arrIncludes (participants chat) otherUserId)
     (chats (ui w)) = None →
   (∀ n, accepts e n = true) →
   (uid, individualChatId uid otherUserId) ∈ db_userChats (db w') ∧
   (otherUserId, individualChatId uid otherUserId) ∈ db_userChats (db w') ∧
   (∀ x, x ∈ db_userChats (db w') →
         x ∈ db_userChats (db w) ∨
         x = (uid, individualChatId uid otherUserId) ∨
         x = (otherUserId, individualChatId uid otherUserId)) ∧
   activeChat (ui w') = activeChat (ui w) ∧
   notifications (ui w') =
     notifications (ui w) ++
     [notice success (js "Chat Created")
        (js "Started conversation with " ++ displayName otherUserData)]).
Proof.
  intros Hc Hu. unfold createOrGetIndividualChat. unfold_m. simpl.
  rewrite Hc, Hu. split.
  - intros chat ->. done.
  - intros -> Hall. simpl. repeat (rewrite Hall; simpl).
    split; [|split; [|split; [|done]]].
    + rewrite !elem_of_union, !elem_of_singleton. tauto.
    + rewrite !elem_of_union, !elem_of_singleton. tauto.
    + intros x. rewrite !elem_of_union, !elem_of_singleton. tauto.
Qed.

(** X8 at work: alice picks bob with their chat already in her list, and
    with an empty list. *)
Lemma createOrGetIndividualChat_paths_witness :
  let chat := Fixtures.aliceBob in
  let listed := Sample.world (Sample.ui_of "alice" [chat] None "" "")
                  (Sample.dbWith chat) in
  let fresh := Sample.world (Sample.ui_of "alice" [] None "" "") Sample.emptyDB in
  let pick := createOrGetIndividualChat (js "bob") (Sample.user "bob") in
  (activeChat (ui (run pick Sample.env0 listed)) = Some chat ∧
   db (run pick Sample.env0 listed) = db listed ∧
   requests (run pick Sample.env0 listed) = requests listed) ∧
  ((js "bob", js "alice_bob") ∈ db_userChats (db (run pick Sample.env0 fresh))).
Proof.
  intros chat listed fresh pick. split.
  - destruct (createOrGetIndividualChat_paths Sample.env0 listed (js "alice")
                (Sample.user "alice") (js "bob") (Sample.user "bob")
                eq_refl eq_refl) as [Hopen _].
    subst pick. rewrite (Hopen chat eq_refl). by repeat split.
  - destruct (createOrGetIndividualChat_paths Sample.env0 fresh (js "alice")
                (Sample.user "alice") (js "bob") (Sample.user "bob")
                eq_refl eq_refl) as [_ Hnew].
    destruct (Hnew eq_refl (fun _ => eq_refl)) as (_ & Hbob & _).
    exact Hbob.
Defined.

(** ** Sending a message: partial failures *)

(** X9.  [sendMessage] with a non-blank draft clears the draft and shows
    no notice exactly when all three writes are accepted; otherwise it
    keeps the draft and shows one "Failed to send message" error.  A
    rejected first write leaves the store untouched; when the message is
    accepted but the next write is rejected, the message is in the log
    while the chat record is unchanged; when only the last write is
    rejected, [lastMessage] is set but [updatedAt] is not. *)
Theorem sendMessage_failures e w chat uid ud :
  activeChat (ui w) = Some chat →
  currentUser (ui w) = Some uid →
  userData (ui w) = Some ud →
  trim (newMessage (ui w)) ≠ [] →
  let w' := run sendMessage e w in
  let failed := notice error (js "Error") (js "Failed to send message") in
  let allAccepted :=
    accepts e (requests w) && accepts e (S (requests w)) &&
    accepts e (S (S (requests w))) in
  newMessage (ui w') = (if allAccepted then [] else newMessage (ui w)) ∧
  notifications (ui w') =
    notifications (ui w) ++ (if allAccepted then [] else [failed]) ∧
  (accepts e (requests w) = false → db w' = db w) ∧
  (accepts e (requests w) = true → accepts e (S (requests w)) = false →
     db_chats (db w') = db_chats (db w) ∧
     ∃ m, messageLog (db w') (chat_id chat) =
            <[pushKey e (pushed w) := m]> (messageLog (db w) (chat_id chat)) ∧
          content m = trim (newMessage (ui w))) ∧
  (accepts e (requests w) = true → accepts e (S (requests w)) = true →
   accepts e (S (S (requests w))) = false →
     lm_content <$> n_lastMessage (chatNode (db_chats (db w')) (chat_id chat)) =
       Some (trim (newMessage (ui w))) ∧
     n_updatedAt (chatNode (db_chats (db w')) (chat_id chat)) =
       n_updatedAt (chatNode (db_chats (db w)) (chat_id chat))).
Proof.
  intros Ha Hc Hu Hne.
  assert (falsy (trim (newMessage (ui w))) = false) as Hf.
  { destruct (falsy _) eqn:E; [|done]. by apply falsy_nil in E. }
  unfold sendMessage. unfold_m. simpl. rewrite Ha, Hc, Hu, Hf. simpl.
  destruct (accepts e (requests w)) eqn:A1; simpl;
    [destruct (accepts e (S (requests w))) eqn:A2; simpl;
     [destruct (accepts e (S (S (requests w)))) eqn:A3; simpl|]|];
    (split; [done|]; split; [by rewrite ?app_nil_r|]; split; [done|];
     split; [|]); try done.
  - intros _ _ _. unfold chatNode. simpl. rewrite !lookup_insert_eq. done.
  - intros _ _. split; [done|].
    unfold messageLog, push_message, with_messages. simpl.
    rewrite lookup_insert_eq. eexists. split; reflexivity.
Qed.

(** X9 at work: the backend accepts the message and rejects the update of
    the chat record. *)
Lemma sendMessage_failures_witness :
  let duo := Sample.groupOf ["alice"; "bob"] ["alice"] in
  let w := Sample.world (Sample.ui_of "alice" [duo] (Some duo) " hello " "")
             (Sample.dbWith duo) in
  let w' := run sendMessage (Fixtures.acceptsFirst 1) w in
  newMessage (ui w') = js " hello " ∧
  title <$> notifications (ui w') = [js "Error"] ∧
  db_chats (db w') = db_chats (db w) ∧
  size (messageLog (db w') (chat_id duo)) = 2%nat.
Proof.
  intros duo w w'.
  destruct (sendMessage_failures (Fixtures.acceptsFirst 1) w duo (js "alice")
              (Sample.user "alice") eq_refl eq_refl eq_refl)
    as (Hdraft & Hnote & _ & Hgap & _); [vm_compute; discriminate|].
  destruct (Hgap eq_refl eq_refl) as (Hchats & m & Hlog & _).
  split; [exact Hdraft|]. split; [subst w'; by rewrite Hnote|].
  split; [exact Hchats|]. subst w'. rewrite Hlog.
  rewrite map_size_insert_None; [reflexivity|]. vm_compute. reflexivity.
Defined.

(** ** Signed-out visitors and failed departures *)

(** X10.  Without a signed-in user no chat handler does anything:
    [sendMessage], [updateGroupName], [deleteChat], [leaveGroup],
    [removeUserFromGroup], [toggleAdmin] and [createOrGetIndividualChat]
    leave the whole state as it is, and [createGroupChat] issues no
    request and leaves the store as it is. *)
Theorem signed_out_handlers_idle e w :
  currentUser (ui w) = None →
  run sendMessage e w = w ∧
  run updateGroupName e w = w ∧
  (∀ chatId, run (deleteChat chatId) e w = w ∧ run (leaveGroup chatId) e w = w) ∧
  (∀ userId, run (removeUserFromGroup userId) e w = w ∧
             run (toggleAdmin userId) e w = w) ∧
  (∀ otherUserId otherUserData,
     run (createOrGetIndividualChat otherUserId otherUserData) e w = w) ∧
  db (run createGroupChat e w) = db w ∧
  requests (run createGroupChat e w) = requests w.
Proof.
  intros Hc.
  unfold sendMessage, updateGroupName, deleteChat, leaveGroup,
    removeUserFromGroup, toggleAdmin, createOrGetIndividualChat, createGroupChat.
  unfold_m. simpl. rewrite Hc.
  destruct w as [u d r t p]. simpl in *.
  destruct (activeChat u); repeat split; done.
Qed.

(** X10 at work on the component of a visitor with a draft, a new group
    name and a selected user. *)
Lemma signed_out_handlers_idle_witness :
  let duo := Sample.groupOf ["alice"; "bob"] ["alice"] in
  let w := Sample.world Fixtures.signedOut (Sample.dbWith duo) in
  run sendMessage Sample.env0 w = w ∧
  run (leaveGroup (js "g1")) Sample.env0 w = w ∧
  db (run createGroupChat Sample.env0 w) = db w.
Proof.
  intros duo w.
  destruct (signed_out_handlers_idle Sample.env0 w eq_refl)
    as (Hsend & _ & Hchat & _ & _ & Hcreate & _).
  split; [exact Hsend|]. split; [exact (proj2 (Hchat (js "g1")))|exact Hcreate].
Defined.

(** X11.  [leaveGroup] on a chat of the caller's list: a rejected first
    request leaves the store untouched and reports the error; and when the caller is the last participant
    and the removal of the chat is accepted but that of the message log
    is rejected, the chat record is gone while the message log and every
    membership marker stay, the chat stays open and the error is
    reported. *)
Theorem leaveGroup_edges e w uid chatId :
  currentUser (ui w) = Some uid →
  let w' := run (leaveGroup chatId) e w in
  let failed := notice error (js "Error") (js "Failed to leave group") in
  ∀ chat,
     List.find (hasId chatId) (chats (ui w)) = Some chat →
     (accepts e (requests w) = false →
        db w' = db w ∧
        notifications (ui w') = notifications (ui w) ++ [failed]) ∧
     ((∀ p, p ∈ participants chat → p = uid) →
      accepts e (requests w) = true →
      accepts e (S (requests w)) = false →
        db_chats (db w') !! chatId = None ∧
        db_messages (db w') = db_messages (db w) ∧
        db_userChats (db w') = db_userChats (db w) ∧
        activeChat (ui w') = activeChat (ui w) ∧
        notifications (ui w') = notifications (ui w) ++ [failed]).
Proof.
  intros Hc. unfold leaveGroup, closeIfActive. unfold_m. simpl. rewrite Hc.
  - intros chat ->. split.
    + intros A1.
      destruct (length (without uid (participants chat)) =? 0)%nat; simpl;
        rewrite A1; done.
    + intros Honly A1 A2.
      assert (without uid (participants chat) = []) as ->
        by (by apply without_nil).
      simpl. rewrite A1. simpl. rewrite A2. simpl.
      by rewrite lookup_delete_eq.
Qed.

(** X11 at work: alice, alone in her group, leaves while the backend
    accepts one request only. *)
Lemma leaveGroup_edges_witness :
  let solo := Sample.groupOf ["alice"] ["alice"] in
  let w := Sample.world (Sample.ui_of "alice" [solo] (Some solo) "" "")
             (Sample.dbWith solo) in
  let w' := run (leaveGroup (js "g1")) (Fixtures.acceptsFirst 1) w in
  db_chats (db w') !! js "g1" = None ∧
  db_messages (db w') = db_messages (db w) ∧
  db_userChats (db w') = db_userChats (db w).
Proof.
  intros solo w w'.
  destruct (leaveGroup_edges (Fixtures.acceptsFirst 1) w (js "alice") (js "g1")
              eq_refl solo eq_refl) as [_ Hgap].
  destruct Hgap as (Hchat & Hlog & Hmark & _); [|reflexivity|reflexivity|done].
  intros p Hp. change (participants solo) with [js "alice"] in Hp.
  by apply list_elem_of_singleton in Hp.
Defined.

(** ** Individual chat ids determine the pair *)

Lemma split_at_underscore (a b c d : jsstring) :
  95%N ∉ a → 95%N ∉ c →
  a ++ 95%N :: b = c ++ 95%N :: d → a = c ∧ b = d.
Proof.
  revert c. induction a as [|x a IH]; intros [|y c] Ha Hc H; simpl in *.
  - by injection H.
  - injection H as <- _. exfalso. apply Hc. left.
  - injection H as -> _. exfalso. apply Ha. left.
  - injection H as -> H.
    apply not_elem_of_cons in Ha as [_ Ha]. apply not_elem_of_cons in Hc as [_ Hc].
    destruct (IH c Ha Hc H) as [-> ->]. done.
Qed.

(** X12.  When no id contains an underscore, the id of an individual chat
    determines its two users: two pairs of users with the same chat id
    are the same pair, in one order or the other. *)
Theorem individualChatId_injective (a b c d : jsstring) :
  95%N ∉ a → 95%N ∉ b → 95%N ∉ c → 95%N ∉ d →
  individualChatId a b = individualChatId c d →
  (a = c ∧ b = d) ∨ (a = d ∧ b = c).
Proof.
  intros Ha Hb Hc Hd. rewrite !individualChatId_eq.
  change (js "_") with [95%N]. simpl.
  destruct (str_lt b a), (str_lt d c); intros H;
    apply split_at_underscore in H as [-> ->]; auto.
Qed.

(** X12 at work: bob with alice and alice with bob share their chat id, and
    are the same pair. *)
Lemma individualChatId_injective_witness :
  individualChatId (js "bob") (js "alice") =
    individualChatId (js "alice") (js "bob") ∧
  ((js "bob" = js "alice" ∧ js "alice" = js "bob") ∨
   (js "bob" = js "bob" ∧ js "alice" = js "alice")).
Proof.
  split; [reflexivity|].
  apply (individualChatId_injective (js "bob") (js "alice") (js "alice") (js "bob"));
    try (apply (bool_decide_eq_false_1 _); reflexivity).
  reflexivity.
Defined.

(** ** Time labels *)

Lemma div_ltb (x a b : Z) : 0 < a → (x / a <? b) = (x <? a * b).
Proof.
  intros Ha. destruct (x <? a * b) eqn:E.
  - apply Z.ltb_lt in E. apply Z.ltb_lt. by apply Z.div_lt_upper_bound.
  - apply Z.ltb_ge in E. apply Z.ltb_ge. by apply Z.div_le_lower_bound.
Qed.

(** X13.  [formatLastSeen] depends on the milliseconds [x] elapsed only:
    "Just now" below one minute (also for a date in the future), then
    whole minutes from 1 to 59, whole hours from 1 to 23, and whole days
    from 1 on.  [formatTimeAgo] of the post list, which counts in seconds,
    gives the same label for every date. *)
Theorem formatLastSeen_labels e w d :
  let x := clock e (ticks w) - d in
  outcome (formatLastSeen (Some d)) e w =
    Normal (if x <? 60000 then js "Just now"
            else if x <? 3600000 then showZ (x / 60000) ++ js "m ago"
            else if x <? 86400000 then showZ (x / 3600000) ++ js "h ago"
            else showZ (x / 86400000) ++ js "d ago") ∧
  (60000 ≤ x < 3600000 → 1 ≤ x / 60000 < 60) ∧
  (3600000 ≤ x < 86400000 → 1 ≤ x / 3600000 < 24) ∧
  (86400000 ≤ x → 1 ≤ x / 86400000) ∧
  formatTimeAgo (Some d) e w = formatLastSeen (Some d) e w.
Proof.
  intros x. unfold formatLastSeen, formatTimeAgo. unfold_m. simpl. fold x.
  rewrite !div_ltb by lia. rewrite !Z.div_div by lia.
  change (60000 * 1) with 60000. change (60000 * 60) with 3600000.
  change (60000 * 1440) with 86400000. change (1000 * 60) with 60000.
  change (1000 * 3600) with 3600000. change (1000 * 86400) with 86400000.
  cbn [fst].
  split; [|split; [|split; [|split]]].
  - by destruct (x <? 60000), (x <? 3600000), (x <? 86400000).
  - intros [? ?]. split; [by apply Z.div_le_lower_bound|by apply Z.div_lt_upper_bound].
  - intros [? ?]. split; [by apply Z.div_le_lower_bound|by apply Z.div_lt_upper_bound].
  - intros ?. by apply Z.div_le_lower_bound.
  - done.
Qed.

(** X13 at work: 59.999 s, 61 min and 49 h after the date. *)
Lemma formatLastSeen_labels_witness :
  let w := Sample.world (Sample.ui_of "alice" [] None "" "") Sample.emptyDB in
  outcome (formatLastSeen (Some 0)) (Sample.frozen 59999) w = Normal (js "Just now") ∧
  outcome (formatLastSeen (Some 0)) (Sample.frozen 3660000) w = Normal (js "1h ago") ∧
  outcome (formatTimeAgo (Some 0)) (Sample.frozen 176400000) w = Normal (js "2d ago").
Proof.
  intros w.
  split; [|split].
  - rewrite (proj1 (formatLastSeen_labels (Sample.frozen 59999) w 0)). reflexivity.
  - rewrite (proj1 (formatLastSeen_labels (Sample.frozen 3660000) w 0)). reflexivity.
  - unfold outcome.
    rewrite (proj2 (proj2 (proj2 (proj2
               (formatLastSeen_labels (Sample.frozen 176400000) w 0))))).
    reflexivity.
Defined.

(** ** Presence: listener and heartbeat *)

(** X14.  The [status] listener does nothing when the snapshot does not
    exist, so the presence map of the last snapshot stays.  On a snapshot
    that exists it writes nothing to the store and replaces the whole map:
    a user has an entry afterwards exactly when the snapshot has one, and
    [getOnlineStatus] answers offline with label "Unknown" for a user
    without one, without reading the clock. *)
Theorem onStatus_replaces e w :
  run (onStatus None) e w = w ∧
  ∀ statusData,
    let w' := run (onStatus (Some statusData)) e w in
    db w' = db w ∧ requests w' = requests w ∧
    ∀ u, (onlineStatus (ui w') !! u = None ↔ statusData !! u = None) ∧
         (statusData !! u = None →
            getOnlineStatus u e w' = (Normal (false, js "Unknown"), w')).
Proof.
  split; [by destruct w|].
  intros statusData w'. subst w'. unfold onStatus, run.
  destruct (status_loop e (map_to_list statusData)
              (NoDup_fst_map_to_list statusData) ∅ w) as (m & Hrun & Hin & Hout).
  rewrite (bind_normal _ _ _ _ _ _ Hrun). simpl.
  split; [done|]. split; [done|]. intros u.
  assert (m !! u = None ↔ statusData !! u = None) as Hdom.
  { split.
    - intros Hm. destruct (statusData !! u) as [r|] eqn:Hu; [|done].
      apply elem_of_map_to_list in Hu.
      destruct (Hin u r Hu) as (k & _ & Hk). congruence.
    - intros Hu. rewrite Hout; [done|].
      intros Hel. apply list_elem_of_fmap in Hel as ([u' r] & -> & Hel).
      apply elem_of_map_to_list in Hel. simpl in Hu. congruence. }
  split; [exact Hdom|].
  intros Hu. apply Hdom in Hu. unfold getOnlineStatus. unfold_m. simpl.
  by rewrite Hu.
Qed.

(** X14 at work: a snapshot with bob only, seen by a component that knew
    carol. *)
Lemma onStatus_replaces_witness :
  let known : gmap jsstring OnlineEntry :=
    {[js "carol" := {| isOnline := true; lastSeen := Some 0 |}]} in
  let w := Sample.world
             (setOnlineStatus known (Sample.ui_of "alice" [] None "" ""))
             Sample.emptyDB in
  let snapshot : gmap jsstring StatusNode :=
    {[js "bob" := {| s_isOnline := Some true; s_lastSeen := Some 900;
                     s_uid := Some (js "bob") |}]} in
  onlineStatus (ui (run (onStatus None) Sample.env0 w)) !! js "carol" =
    Some {| isOnline := true; lastSeen := Some 0 |} ∧
  onlineStatus (ui (run (onStatus (Some snapshot)) Sample.env0 w)) !! js "carol" =
    None ∧
  outcome (getOnlineStatus (js "carol")) Sample.env0
    (run (onStatus (Some snapshot)) Sample.env0 w) = Normal (false, js "Unknown").
Proof.
  intros known w snapshot.
  destruct (onStatus_replaces Sample.env0 w) as [Hnone Hsome].
  destruct (Hsome snapshot) as (_ & _ & Hentries).
  destruct (Hentries (js "carol")) as [Hdom Hunknown].
  split; [by rewrite Hnone|]. split.
  - apply Hdom. reflexivity.
  - unfold outcome. rewrite Hunknown; reflexivity.
Defined.

(** X15.  An accepted heartbeat stores the online flag with the time of
    the heartbeat, and the clean-up of the effect stores the offline flag.
    A [status] listener fed with the store after the heartbeat shows the
    user online when its clock reads less than 120 s after the heartbeat,
    and offline when it reads 120 s or more; after the clean-up it shows
    the user offline whatever the clock. *)
Theorem heartbeat_round_trip e w uid :
  accepts e (requests w) = true →
  let beat := clock e (ticks w) in
  let stored := db_status (db (run (statusInterval uid) e w)) in
  let left := db_status (db (run (presenceCleanup uid) e w)) in
  stored !! uid =
    Some {| s_isOnline := Some true; s_lastSeen := Some beat; s_uid := Some uid |} ∧
  left !! uid =
    Some {| s_isOnline := Some false; s_lastSeen := Some beat; s_uid := Some uid |} ∧
  ∀ viewer,
    ((∀ k, clock e k - beat < 120000) →
       isOnline <$> onlineStatus (ui (run (onStatus (Some stored)) e viewer)) !! uid
       = Some true) ∧
    ((∀ k, (ticks viewer ≤ k)%nat → 120000 ≤ clock e k - beat) →
       isOnline <$> onlineStatus (ui (run (onStatus (Some stored)) e viewer)) !! uid
       = Some false) ∧
    isOnline <$> onlineStatus (ui (run (onStatus (Some left)) e viewer)) !! uid
    = Some false.
Proof.
  intros A1 beat stored left.
  assert (stored !! uid =
    Some {| s_isOnline := Some true; s_lastSeen := Some beat; s_uid := Some uid |})
    as Hstored.
  { subst stored. unfold statusInterval, updateStatus. unfold_m. simpl.
    rewrite A1. simpl. by rewrite lookup_insert_eq. }
  assert (left !! uid =
    Some {| s_isOnline := Some false; s_lastSeen := Some beat; s_uid := Some uid |})
    as Hleft.
  { subst left. unfold presenceCleanup, updateStatus. unfold_m. simpl.
    rewrite A1. simpl. by rewrite lookup_insert_eq. }
  split; [exact Hstored|]. split; [exact Hleft|].
  intros viewer. split; [|split].
  - intros Hclock.
    destruct (onStatus_entry e viewer stored uid _ Hstored) as (k & _ & ->).
    simpl. f_equal. apply Z.ltb_lt, Hclock.
  - intros Hclock.
    destruct (onStatus_entry e viewer stored uid _ Hstored) as (k & Hk & ->).
    simpl. f_equal. apply Z.ltb_ge, Hclock. lia.
  - by destruct (onStatus_entry e viewer left uid _ Hleft) as (k & _ & ->).
Qed.

(** X15 at work with a clock standing still: the viewer reads the same
    time as the heartbeat. *)
Lemma heartbeat_round_trip_witness :
  let w := Sample.world (Sample.ui_of "alice" [] None "" "") Sample.emptyDB in
  let viewer := Sample.world (Sample.ui_of "bob" [] None "" "") Sample.emptyDB in
  let e := Sample.frozen 5000 in
  let stored := db_status (db (run (statusInterval (js "alice")) e w)) in
  let left := db_status (db (run (presenceCleanup (js "alice")) e w)) in
  isOnline <$> onlineStatus (ui (run (onStatus (Some stored)) e viewer))
                 !! js "alice" = Some true ∧
  isOnline <$> onlineStatus (ui (run (onStatus (Some left)) e viewer))
                 !! js "alice" = Some false.
Proof.
  intros w viewer e stored left.
  destruct (heartbeat_round_trip e w (js "alice") eq_refl) as (_ & _ & Hview).
  destruct (Hview viewer) as (Hfresh & _ & Hleft).
  split; [|exact Hleft]. apply Hfresh. intros k. reflexivity.
Defined.

(** ** User search: what is shown *)

Lemma mapSet_fst k v m :
  (mapSet k v m).*1 = if bool_decide (k ∈ m.*1) then m.*1 else m.*1 ++ [k].
Proof.
  induction m as [|[k' v'] m IH]; csimpl.
  - by rewrite ?bool_decide_eq_false_2 by apply not_elem_of_nil.
  - destruct (decide (k' = k)) as [->|Hne].
    + rewrite !bool_decide_eq_true_2; [done|left|done].
    + rewrite bool_decide_eq_false_2 by done. csimpl. rewrite IH.
      destruct (bool_decide (k ∈ m.*1)) eqn:E.
      * apply bool_decide_eq_true in E.
        rewrite bool_decide_eq_true_2; [done|by right].
      * apply bool_decide_eq_false in E. rewrite bool_decide_eq_false_2; [done|].
        intros H. apply elem_of_cons in H as [?|?]; done.
Qed.

Lemma mapSet_NoDup k v m : NoDup m.*1 → NoDup (mapSet k v m).*1.
Proof.
  intros H. rewrite mapSet_fst. destruct (bool_decide (k ∈ m.*1)) eqn:E; [done|].
  apply bool_decide_eq_false in E. apply NoDup_app. split; [done|].
  split; [|apply NoDup_singleton].
  intros x Hx Hx'. apply list_elem_of_singleton in Hx' as ->. done.
Qed.

Lemma mapSet_elem k v m x : x ∈ mapSet k v m → x = (k, v) ∨ x ∈ m.
Proof.
  induction m as [|[k' v'] m IH]; simpl.
  - intros H. apply list_elem_of_singleton in H. by left.
  - destruct (bool_decide (k' = k)).
    + intros H. apply elem_of_cons in H as [->|H]; [by left|right; by right].
    + intros H. apply elem_of_cons in H as [->|H]; [right; left|].
      destruct (IH H) as [?|?]; [by left|right; by right].
Qed.

Lemma mapSet_not_nil k v m : mapSet k v m ≠ [].
Proof. destruct m as [|[k' v'] m]; simpl; [done|]. by destruct (bool_decide _). Qed.

Section ResultSet.
Context (P : UserDoc → Prop) (step : list (jsstring * UserDoc) → UserDoc → list (jsstring * UserDoc)).
Hypothesis step_cases :
  ∀ results doc,
    step results doc = results ∨
    (step results doc = mapSet (doc_id doc) doc results ∧ P doc).

Let wellFormed (results : list (jsstring * UserDoc)) : Prop :=
  NoDup results.*1 ∧ Forall (fun kv => kv.1 = doc_id kv.2 ∧ P kv.2) results.

Lemma step_wellFormed results doc :
  wellFormed results → wellFormed (step results doc).
Proof.
  intros [Hnd Hall]. destruct (step_cases results doc) as [->|[-> HP]]; [done|].
  split; [by apply mapSet_NoDup|].
  apply Forall_forall. intros x Hx. apply mapSet_elem in Hx as [->|Hx]; [done|].
  rewrite Forall_forall in Hall. by apply Hall.
Qed.

Lemma fold_wellFormed docs results :
  wellFormed results → wellFormed (fold_left step docs results).
Proof.
  revert results. induction docs as [|doc docs IH]; intros results H; simpl;
    [done|]. by apply IH, step_wellFormed.
Qed.

Lemma fold_not_nil docs results :
  results ≠ [] → fold_left step docs results ≠ [].
Proof.
  revert results. induction docs as [|doc docs IH]; intros results H; simpl;
    [done|]. apply IH.
  destruct (step_cases results doc) as [->|[-> _]]; [done|apply mapSet_not_nil].
Qed.
End ResultSet.

Lemma insertSorted_perm {A} (cmp : A → A → Z) x l : insertSorted cmp x l ≡ₚ x :: l.
Proof.
  induction l as [|y l IH]; simpl; [done|].
  destruct (cmp x y <=? 0); [done|]. rewrite IH. apply Permutation_swap.
Qed.

Lemma sortWith_perm {A} (cmp : A → A → Z) l : sortWith cmp l ≡ₚ l.
Proof.
  induction l as [|x l IH]; simpl; [done|]. by rewrite insertSorted_perm, IH.
Qed.

Lemma lowerIncludes_includes e s term :
  lowerIncludes e s term = true → includes (lowerOrEmpty e s) term = true.
Proof. by destruct s. Qed.

Lemma searchUsers_result_set e w :
  ∃ results,
    searchResults (ui (run searchUsers e w)) =
      rank e (trim (toLowerCase e (searchQuery (ui w)))) results ∧
    NoDup results.*1 ∧
    Forall (fun kv => kv.1 = doc_id kv.2 ∧
                      (notSelf (ui w) kv.2 = true ∧
                       matchesTerm e (trim (toLowerCase e (searchQuery (ui w))))
                         kv.2 = true)) results.
Proof.
  set (term := trim (toLowerCase e (searchQuery (ui w)))).
  set (P := fun d => notSelf (ui w) d = true ∧ matchesTerm e term d = true).
  assert (NoDup ([] : list (jsstring * UserDoc)).*1 ∧
          Forall (fun kv => kv.1 = doc_id kv.2 ∧ P kv.2)
            ([] : list (jsstring * UserDoc))) as Hnil
    by (split; constructor).
  unfold searchUsers. unfold_m. simpl. fold term.
  destruct (getDocs e (OrderedRange by_displayName _ _ _)) as [names|]; simpl;
    [|by exists []].
  destruct (getDocs e (OrderedRange by_username _ _ _)) as [usernames|]; simpl;
    [|by exists []].
  match goal with
  | |- context [fold_left ?f2 usernames (fold_left ?f1 names [])] =>
      assert (NoDup (fold_left f2 usernames (fold_left f1 names [])).*1 ∧
              Forall (fun kv => kv.1 = doc_id kv.2 ∧ P kv.2)
                (fold_left f2 usernames (fold_left f1 names []))) as Hprefix
  end.
  { apply (fold_wellFormed P); [|apply (fold_wellFormed P); [|exact Hnil]].
    - intros results doc.
      destruct (notSelf (ui w) doc) eqn:Hs; simpl; [|by left].
      destruct (lowerIncludes e (doc_username doc) term) eqn:Hm; [|by left].
      right. split; [done|]. split; [done|]. unfold matchesTerm.
      rewrite (lowerIncludes_includes _ _ _ Hm). by rewrite orb_true_r.
    - intros results doc.
      destruct (notSelf (ui w) doc) eqn:Hs; simpl; [|by left].
      destruct (lowerIncludes e (doc_displayName doc) term) eqn:Hm; [|by left].
      right. split; [done|]. split; [done|]. unfold matchesTerm.
      by rewrite (lowerIncludes_includes _ _ _ Hm). }
  destruct (length _ =? 0)%nat; simpl.
  - destruct (getDocs e (Limit 50)) as [broad|]; simpl; [|by exists []].
    eexists. split; [reflexivity|].
    apply (fold_wellFormed P); [|exact Hprefix].
    intros results doc.
    destruct (notSelf (ui w) doc) eqn:Hs; [|by left].
    destruct (_ || _ || _) eqn:Hm; [|by left].
    right. done.
  - eexists. split; [reflexivity|exact Hprefix].
Qed.

Lemma rank_elem e term results d :
  d ∈ rank e term results → ∃ k, (k, d) ∈ results.
Proof.
  unfold rank, slice0. intros H. apply (subseteq_take 8) in H.
  rewrite sortWith_perm in H. apply list_elem_of_fmap in H as ([k d'] & -> & H).
  by exists k.
Qed.

(** X16.  Whatever the document store answers, a user shown by
    [searchUsers] is never the signed-in user, and its lower-cased display
    name, username or email contains the search term. *)
Theorem searchUsers_shows_matches e w d :
  d ∈ searchResults (ui (run searchUsers e w)) →
  Some (doc_id d) ≠ currentUser (ui w) ∧
  matchesTerm e (trim (toLowerCase e (searchQuery (ui w)))) d = true.
Proof.
  destruct (searchUsers_result_set e w) as (results & -> & _ & Hall).
  intros Hd. apply rank_elem in Hd as [k Hd].
  rewrite Forall_forall in Hall. destruct (Hall _ Hd) as (_ & Hself & Hm).
  split; [|exact Hm]. unfold notSelf in Hself.
  apply negb_true_iff, bool_decide_eq_false in Hself. exact Hself.
Qed.

(** X16 at work: the broad scan returns the caller and two matching users;
    the first user shown is not the caller and matches. *)
Lemma searchUsers_shows_matches_witness :
  let carol :=
    {| doc_id := js "carol"; doc_displayName := Some (js "Carol Ali");
       doc_username := None; doc_email := None; doc_photoURL := None |} in
  let docs q :=
    match q with
    | OrderedRange _ _ _ _ => Some []
    | Limit _ => Some [carol; Sample.bobAlison; Sample.aliceSmith]
    end in
  let e := Sample.env_at 1000 docs in
  let w := Sample.world
             (Sample.withQuery "ali" (Sample.ui_of "carol" [] None "" ""))
             Sample.emptyDB in
  searchResults (ui (run searchUsers e w)) =
    [Sample.aliceSmith; Sample.bobAlison] ∧
  Some (doc_id Sample.aliceSmith) ≠ currentUser (ui w) ∧
  matchesTerm e (js "ali") Sample.aliceSmith = true.
Proof.
  intros carol docs e w. split; [reflexivity|].
  apply (searchUsers_shows_matches e w Sample.aliceSmith).
  change (searchResults (ui (run searchUsers e w)))
    with [Sample.aliceSmith; Sample.bobAlison]. left.
Defined.

(** X17.  Whatever the document store answers, the users shown by
    [searchUsers] have pairwise distinct ids. *)
Theorem searchUsers_distinct e w :
  NoDup (doc_id <$> searchResults (ui (run searchUsers e w))).
Proof.
  destruct (searchUsers_result_set e w) as (results & -> & Hnd & Hall).
  unfold rank, slice0. rewrite fmap_take.
  assert (NoDup (doc_id <$> sortWith
            (byRelevance e (trim (toLowerCase e (searchQuery (ui w)))))
            (map snd results))) as Hsorted.
  { rewrite sortWith_perm.
    replace (doc_id <$> map snd results) with results.*1; [done|].
    clear Hnd. induction Hall as [|[k v] l [Hk _] _ IH]; csimpl; [done|].
    simpl in Hk. by rewrite Hk, IH. }
  rewrite <- (take_drop 8) in Hsorted. by apply NoDup_app in Hsorted as [? _].
Qed.

(** X18.  [searchUsers] never writes to the real-time store, never
    throws and always ends with [isSearching] off.  When one of the two
    prefix queries is rejected, it shows no user and the "Search Failed"
    error.  For a blank query the search effect clears the results and
    arms no timer. *)
Theorem searchUsers_failure e w :
  let term := trim (toLowerCase e (searchQuery (ui w))) in
  let w' := run searchUsers e w in
  isSearching (ui w') = false ∧ db w' = db w ∧ requests w' = requests w ∧
  outcome searchUsers e w = Normal () ∧
  (getDocs e (OrderedRange by_displayName term (term ++ [63743%N]) 10) = None ∨
   getDocs e (OrderedRange by_username term (term ++ [63743%N]) 10) = None →
   searchResults (ui w') = [] ∧
   notifications (ui w') =
     notifications (ui w) ++
     [notice error (js "Search Failed")
        (js "Failed to search users. Please try again.")]) ∧
  (trim (searchQuery (ui w)) = [] →
   searchEffect e w =
     (Normal None,
      {| ui := setIsSearching false (setSearchResults [] (ui w)); db := db w;
         requests := requests w; ticks := ticks w; pushed := pushed w |})).
Proof.
  intros term w'. subst w'.
  assert (trim (searchQuery (ui w)) = [] →
          searchEffect e w =
            (Normal None,
             {| ui := setIsSearching false (setSearchResults [] (ui w));
                db := db w; requests := requests w; ticks := ticks w;
                pushed := pushed w |})) as Heff.
  { intros Hb. unfold searchEffect. unfold_m. simpl. by rewrite Hb. }
  unfold searchUsers. unfold_m. simpl. fold term.
  destruct (getDocs e (OrderedRange by_displayName _ _ _)) as [names|] eqn:E1;
    simpl;
    [destruct (getDocs e (OrderedRange by_username _ _ _)) as [usernames|] eqn:E2;
       simpl;
     [destruct (length _ =? 0)%nat; simpl;
      [destruct (getDocs e (Limit 50)); simpl|]|]|];
    (split; [done|]; split; [done|]; split; [done|]; split; [done|];
     split; [|exact Heff]);
    first [by intros [?|?] | by intros _].
Qed.

(** X18 at work: the document store rejects every query. *)
Lemma searchUsers_failure_witness :
  let e := Sample.env_at 1000 (fun _ => None) in
  let w := Sample.world
             (setSearchResults [Sample.bobAlison]
                (Sample.withQuery "ali" (Sample.ui_of "carol" [] None "" "")))
             Sample.emptyDB in
  searchResults (ui (run searchUsers e w)) = [] ∧
  title <$> notifications (ui (run searchUsers e w)) = [js "Search Failed"] ∧
  isSearching (ui (run searchUsers e w)) = false.
Proof.
  intros e w.
  destruct (searchUsers_failure e w) as (Hoff & _ & _ & _ & Hfail & _).
  destruct Hfail as [Hnone Hnote]; [left; reflexivity|].
  split; [exact Hnone|]. split; [by rewrite Hnote|exact Hoff].
Defined.

(** X19.  When one of the two prefix queries returns a user other than
    the caller whose field contains the term, the answer to the broad
    scan does not matter: [searchUsers] ends in the same state whatever
    the document store would answer to it. *)
Theorem broad_scan_only_as_fallback e w g doc :
  let term := trim (toLowerCase e (searchQuery (ui w))) in
  (∀ f lo hi n, g (OrderedRange f lo hi n) = getDocs e (OrderedRange f lo hi n)) →
  (∃ names, getDocs e (OrderedRange by_displayName term (term ++ [63743%N]) 10)
              = Some names ∧
            doc ∈ names ∧ lowerIncludes e (doc_displayName doc) term = true) ∨
  (∃ usernames, getDocs e (OrderedRange by_username term (term ++ [63743%N]) 10)
                  = Some usernames ∧
                doc ∈ usernames ∧ lowerIncludes e (doc_username doc) term = true) →
  notSelf (ui w) doc = true →
  run searchUsers (withDocs g e) w = run searchUsers e w.
Proof.
  intros term Hg Hhit Hself.
  unfold searchUsers. unfold_m. simpl. fold term. rewrite !Hg.
  change (lowerIncludes (withDocs g e)) with (lowerIncludes e).
  change (lowerOrEmpty (withDocs g e)) with (lowerOrEmpty e).
  change (rank (withDocs g e)) with (rank e).
  destruct (getDocs e (OrderedRange by_displayName _ _ _)) as [names|] eqn:E1;
    simpl; [|done].
  destruct (getDocs e (OrderedRange by_username _ _ _)) as [usernames|] eqn:E2;
    simpl; [|done].
  match goal with
  | |- context [fold_left ?f2 usernames (fold_left ?f1 names [])] =>
      assert (fold_left f2 usernames (fold_left f1 names []) ≠ []) as Hne
  end.
  { destruct Hhit as [(names' & Hn & Hin & Hm)|(usernames' & Hn & Hin & Hm)].
    - injection Hn as <-.
      apply (fold_not_nil (fun _ => True)).
      { intros results d. destruct (_ && _); [right|left]; done. }
      apply list_elem_of_split in Hin as (l1 & l2 & ->).
      rewrite fold_left_app. simpl. rewrite Hself, Hm. simpl.
      apply (fold_not_nil (fun _ => True)).
      { intros results d. destruct (_ && _); [right|left]; done. }
      apply mapSet_not_nil.
    - injection Hn as <-.
      apply list_elem_of_split in Hin as (l1 & l2 & ->).
      rewrite fold_left_app. simpl. rewrite Hself, Hm. simpl.
      apply (fold_not_nil (fun _ => True)).
      { intros results d. destruct (_ && _); [right|left]; done. }
      apply mapSet_not_nil. }
  destruct (fold_left _ usernames _) as [|x l]; [done|]. done.
Qed.

(** X19 at work: the username query finds Alice Smith; a document store
    that would answer the broad scan with Bob Alison changes nothing. *)
Lemma broad_scan_only_as_fallback_witness :
  let docs q :=
    match q with
    | OrderedRange by_username _ _ _ => Some [Sample.aliceSmith]
    | OrderedRange by_displayName _ _ _ => Some []
    | Limit _ => Some []
    end in
  let other q :=
    match q with
    | Limit _ => Some [Sample.bobAlison]
    | _ => docs q
    end in
  let e := Sample.env_at 1000 docs in
  let w := Sample.world
             (Sample.withQuery "ali" (Sample.ui_of "carol" [] None "" ""))
             Sample.emptyDB in
  run searchUsers (withDocs other e) w = run searchUsers e w ∧
  searchResults (ui (run searchUsers e w)) = [Sample.aliceSmith].
Proof.
  intros docs other e w. split; [|reflexivity].
  apply (broad_scan_only_as_fallback e w other Sample.aliceSmith).
  - intros f lo hi n. reflexivity.
  - right. exists [Sample.aliceSmith]. split; [reflexivity|].
    split; [left|reflexivity].
  - reflexivity.
Defined.

(** ** Notification provider *)

(** X20.  A notification's id is the clock reading in milliseconds at
    which it was added.  Two notifications added at the same reading
    share their id, so dismissing that id dismisses both; a notification
    whose id no other notification has is dismissed alone, giving back
    the list as it was before it was added. *)
Theorem notification_ids_collide now a b da db' (l : list Provider.Toast) :
  Provider.removeNotification (showZ now)
    (Provider.addNotification now b db' (Provider.addNotification now a da l))
  = Provider.removeNotification (showZ now) l ∧
  ((∀ t, t ∈ l → Provider.toast_id t ≠ showZ now) →
   Provider.removeNotification (showZ now) (Provider.addNotification now a da l) = l).
Proof.
  unfold Provider.removeNotification, Provider.addNotification.
  rewrite !List.filter_app. simpl. rewrite bool_decide_eq_true_2 by done. simpl.
  rewrite !app_nil_r. split; [done|]. intros Hfresh.
  induction l as [|t l IH]; simpl; [done|].
  rewrite bool_decide_eq_false_2 by (apply Hfresh; left). simpl.
  rewrite IH; [done|]. intros t' Ht'. apply Hfresh. by right.
Qed.

(** X20 at work: two notices added at the same millisecond, and one added
    to a list holding an older notice. *)
Lemma notification_ids_collide_witness :
  let a := notice success (js "Chat Created") (js "first") in
  let b := notice error (js "Error") (js "second") in
  let old := Provider.addNotification 1000 a None [] in
  Provider.removeNotification (showZ 2000)
    (Provider.addNotification 2000 b None (Provider.addNotification 2000 a None old))
  = old ∧
  Provider.removeNotification (showZ 2000) (Provider.addNotification 2000 b None old)
  = old.
Proof.
  intros a b old. split.
  - rewrite (proj1 (notification_ids_collide 2000 a b None None old)). reflexivity.
  - apply (proj2 (notification_ids_collide 2000 b a None None old)).
    intros t Ht. apply list_elem_of_singleton in Ht as ->. vm_compute. discriminate.
Defined.

(** ** Likes *)

Lemma without_absent x (l : list jsstring) : x ∉ l → without x l = l.
Proof.
  intros H. unfold without. induction l as [|y l IH]; simpl; [done|].
  apply not_elem_of_cons in H as [Hne H].
  rewrite bool_decide_eq_false_2 by done. simpl. by rewrite IH.
Qed.

Lemma without_NoDup x (l : list jsstring) : NoDup l → NoDup (without x l).
Proof.
  intros H. unfold without. induction H as [|y l Hy H IH]; simpl; [constructor|].
  destruct (bool_decide (y = x)); simpl; [done|].
  constructor; [|done]. intros Hin. apply Hy.
  by apply (elem_of_without x y l) in Hin as [? _].
Qed.

Lemma without_length x (l : list jsstring) :
  NoDup l → x ∈ l → S (length (without x l)) = length l.
Proof.
  intros H. unfold without. induction H as [|y l Hy H IH]; intros Hin; simpl.
  - by apply not_elem_of_nil in Hin.
  - destruct (decide (y = x)) as [->|Hne].
    + rewrite bool_decide_eq_true_2 by done. simpl.
      fold (without x l). by rewrite without_absent.
    + rewrite bool_decide_eq_false_2 by done. simpl.
      apply elem_of_cons in Hin as [?|Hin]; [done|]. by rewrite IH.
Qed.

(** X21.  [handleLikePost] by a signed-in user, called with a view of the
    likes that agrees with the stored post on whether the user likes it,
    flips exactly that user's like: it keeps the likes free of
    duplicates, keeps [likesCount] equal to the number of likes when it
    was so before, leaves content and comments alone and shows no
    notice. *)
Theorem like_in_sync s uid ud postId p currentLikes :
  Posts.currentUser s = Some uid →
  Posts.userData s = Some ud →
  Posts.posts s !! postId = Some p →
  arrIncludes currentLikes uid = arrIncludes (Posts.p_likes p) uid →
  ∃ p', Posts.posts (Posts.handleLikePost true postId currentLikes s) !! postId
          = Some p' ∧
    (uid ∈ Posts.p_likes p' ↔ uid ∉ Posts.p_likes p) ∧
    (∀ v, v ≠ uid → (v ∈ Posts.p_likes p' ↔ v ∈ Posts.p_likes p)) ∧
    (NoDup (Posts.p_likes p) → NoDup (Posts.p_likes p')) ∧
    (NoDup (Posts.p_likes p) →
     Posts.p_likesCount p = Z.of_nat (length (Posts.p_likes p)) →
     Posts.p_likesCount p' = Z.of_nat (length (Posts.p_likes p'))) ∧
    Posts.p_content p' = Posts.p_content p ∧
    Posts.p_comments p' = Posts.p_comments p ∧
    Posts.notifications (Posts.handleLikePost true postId currentLikes s) =
      Posts.notifications s.
Proof.
  intros Hc Hu Hp Hsync.
  unfold Posts.handleLikePost, Posts.handleActionRequiringAuth, Posts.updateDoc.
  rewrite Hc, Hu. simpl. rewrite Hp, Hsync. simpl.
  eexists. rewrite lookup_insert_eq. split; [reflexivity|].
  destruct (arrIncludes (Posts.p_likes p) uid) eqn:Hin; simpl;
    unfold Posts.arrayRemove, Posts.arrayUnion, Posts.increment.
  - apply arrIncludes_true in Hin.
    split; [rewrite elem_of_without; tauto|].
    split; [intros v Hv; rewrite elem_of_without; tauto|].
    split; [apply without_NoDup|]. split; [|done].
    intros Hnd Hcount. rewrite Hcount.
    rewrite <- (without_length uid (Posts.p_likes p) Hnd Hin). lia.
  - rewrite Hin.
    assert (uid ∉ Posts.p_likes p) as Hnot.
    { intros H. apply arrIncludes_true in H. congruence. }
    split; [rewrite elem_of_app, list_elem_of_singleton; tauto|].
    split; [intros v Hv; rewrite elem_of_app, list_elem_of_singleton; tauto|].
    split.
    { intros Hnd. apply NoDup_app. split; [done|].
      split; [|apply NoDup_singleton].
      intros x Hx Hx'. apply list_elem_of_singleton in Hx' as ->. done. }
    split; [|done].
    intros _ Hcount. rewrite Hcount, length_app. simpl. lia.
Qed.

(** X21 at work: alice likes a post bob likes, and takes her like back. *)
Lemma like_in_sync_witness :
  let s := Posts.visitor (Some "alice") true (Posts.samplePost ["bob"] 1) in
  let liked := Posts.handleLikePost true (js "p1") [js "bob"] s in
  let back := Posts.handleLikePost true (js "p1") [js "bob"; js "alice"] liked in
  (∃ p', Posts.posts liked !! js "p1" = Some p' ∧
         js "alice" ∈ Posts.p_likes p' ∧
         Posts.p_likesCount p' = Z.of_nat (length (Posts.p_likes p'))) ∧
  Posts.posts back = Posts.posts s.
Proof.
  intros s liked back. split.
  - destruct (like_in_sync s (js "alice") (Sample.user "alice") (js "p1")
                (Posts.samplePost ["bob"] 1) [js "bob"]
                eq_refl eq_refl eq_refl eq_refl)
      as (p' & Hp' & Hflip & _ & _ & Hcount & _).
    exists p'. split; [exact Hp'|]. split.
    + apply Hflip. apply (bool_decide_eq_false_1 _). reflexivity.
    + apply Hcount; [|reflexivity]. apply (bool_decide_eq_true_1 _). reflexivity.
  - vm_compute. reflexivity.
Defined.

(** X22.  [handleLikePost] called with a view of the likes that is wrong
    about the user (a second click before the list refreshed) leaves the
    stored likes as they are but still moves the counter: up by one when
    the post is already liked, down by one when it is not, so
    [likesCount] no longer equals the number of likes. *)
Theorem like_with_stale_view s uid ud postId p currentLikes :
  Posts.currentUser s = Some uid →
  Posts.userData s = Some ud →
  Posts.posts s !! postId = Some p →
  arrIncludes currentLikes uid = negb (arrIncludes (Posts.p_likes p) uid) →
  ∃ p', Posts.posts (Posts.handleLikePost true postId currentLikes s) !! postId
          = Some p' ∧
    Posts.p_likes p' = Posts.p_likes p ∧
    Posts.p_likesCount p' =
      (if arrIncludes (Posts.p_likes p) uid
       then Posts.p_likesCount p + 1
       else Posts.p_likesCount p - 1).
Proof.
  intros Hc Hu Hp Hstale.
  unfold Posts.handleLikePost, Posts.handleActionRequiringAuth, Posts.updateDoc.
  rewrite Hc, Hu. simpl. rewrite Hp, Hstale. simpl.
  eexists. rewrite lookup_insert_eq. split; [reflexivity|].
  destruct (arrIncludes (Posts.p_likes p) uid) eqn:Hin; simpl;
    unfold Posts.arrayRemove, Posts.arrayUnion, Posts.increment.
  - by rewrite Hin.
  - split; [|lia]. apply without_absent. intros H.
    apply arrIncludes_true in H. congruence.
Qed.

(** X22 at work: alice's second click arrives with the old list, in which
    she has not liked the post yet. *)
Lemma like_with_stale_view_witness :
  let s := Posts.visitor (Some "alice") true (Posts.samplePost ["alice"] 1) in
  ∃ p', Posts.posts (Posts.handleLikePost true (js "p1") [] s) !! js "p1"
          = Some p' ∧
        Posts.p_likes p' = [js "alice"] ∧ Posts.p_likesCount p' = 2.
Proof.
  intros s.
  destruct (like_with_stale_view s (js "alice") (Sample.user "alice") (js "p1")
              (Posts.samplePost ["alice"] 1) [] eq_refl eq_refl eq_refl eq_refl)
    as (p' & Hp' & Hlikes & Hcount).
  exists p'. split; [exact Hp'|]. split; [exact Hlikes|exact Hcount].
Defined.

(** X23.  [handleLikePost] does nothing at all for a visitor without an
    account session; with a session but no profile it changes no post,
    shows the sign-in warning, records the [explore] redirect and asks for
    the [auth] tab; and when the update is rejected or the post does not
    exist it changes no post and shows the "Failed to update like"
    error. *)
Theorem handleLikePost_guards accepted postId currentLikes s :
  let s' := Posts.handleLikePost accepted postId currentLikes s in
  (Posts.currentUser s = None → s' = s) ∧
  (∀ uid, Posts.currentUser s = Some uid → Posts.userData s = None →
     Posts.posts s' = Posts.posts s ∧
     Posts.tab s' = Some (js "auth") ∧
     Posts.redirect s' = Some (js "explore") ∧
     Posts.notifications s' =
       Posts.notifications s ++
       [notice warning (js "Authentication Required")
          (js "Please sign in to like posts.")]) ∧
  (∀ uid ud, Posts.currentUser s = Some uid → Posts.userData s = Some ud →
     accepted = false ∨ Posts.posts s !! postId = None →
     Posts.posts s' = Posts.posts s ∧
     Posts.tab s' = Posts.tab s ∧
     Posts.notifications s' =
       Posts.notifications s ++
       [notice error (js "Error")
          (js "Failed to update like. Please try again.")]).
Proof.
  intros s'. subst s'.
  unfold Posts.handleLikePost, Posts.handleActionRequiringAuth, Posts.updateDoc.
  split; [by intros ->|]. split.
  - intros uid -> ->. done.
  - intros uid ud -> -> Hfail. simpl.
    destruct Hfail as [->|Hmissing]; [done|].
    rewrite Hmissing. by destruct accepted.
Qed.

(** X23 at work: a session without profile, and a post that does not
    exist. *)
Lemma handleLikePost_guards_witness :
  let noProfile := Posts.visitor (Some "alice") false (Posts.samplePost [] 0) in
  let s := Posts.visitor (Some "alice") true (Posts.samplePost [] 0) in
  Posts.tab (Posts.handleLikePost true (js "p1") [] noProfile) = Some (js "auth") ∧
  Posts.posts (Posts.handleLikePost true (js "p1") [] noProfile) =
    Posts.posts noProfile ∧
  title <$> Posts.notifications (Posts.handleLikePost true (js "p9") [] s) =
    [js "Error"].
Proof.
  intros noProfile s.
  destruct (handleLikePost_guards true (js "p1") [] noProfile) as (_ & Hprofile & _).
  destruct (Hprofile (js "alice") eq_refl eq_refl) as (Hposts & Htab & _).
  destruct (handleLikePost_guards true (js "p9") [] s) as (_ & _ & Hfail).
  destruct (Hfail (js "alice") (Sample.user "alice") eq_refl eq_refl)
    as (_ & _ & Hnote); [right; reflexivity|].
  split; [exact Htab|]. split; [exact Hposts|]. by rewrite Hnote.
Defined.

(** ** Blank drafts *)

Lemma trimStart_split s :
  ∃ pre, s = pre ++ trimStart s ∧ forallb isWhiteSpace pre = true ∧
         match trimStart s with
         | c :: _ => isWhiteSpace c = false
         | [] => True
         end.
Proof.
  induction s as [|c s (pre & Hs & Hpre & Hhd)]; simpl.
  - by exists [].
  - destruct (isWhiteSpace c) eqn:Hc.
    + exists (c :: pre). simpl. rewrite Hc, Hpre. split; [by rewrite <- Hs|done].
    + exists []. done.
Qed.

Lemma trimStart_nil s : trimStart s = [] ↔ forallb isWhiteSpace s = true.
Proof.
  induction s as [|c s IH]; simpl; [done|].
  destruct (isWhiteSpace c); simpl; [exact IH|]. split; discriminate.
Qed.

Lemma forallb_rev {A} (f : A → bool) l : forallb f (rev l) = forallb f l.
Proof.
  induction l as [|x l IH]; simpl; [done|].
  rewrite forallb_app, IH. simpl. rewrite andb_true_r. apply andb_comm.
Qed.

Lemma trimEnd_nil s : trimEnd s = [] ↔ forallb isWhiteSpace s = true.
Proof.
  unfold trimEnd. rewrite <- (forallb_rev _ s), <- trimStart_nil.
  split; [|by intros ->]. intros H.
  apply (f_equal (@rev N)) in H. by rewrite rev_involutive in H.
Qed.

Lemma trim_nil s : trim s = [] ↔ forallb isWhiteSpace s = true.
Proof.
  unfold trim. rewrite trimEnd_nil.
  destruct (trimStart_split s) as (pre & Hs & Hpre & _).
  rewrite Hs at 2. rewrite forallb_app, Hpre. done.
Qed.

Lemma trimStart_snoc c l :
  isWhiteSpace c = false → ∃ l', trimStart (l ++ [c]) = l' ++ [c].
Proof.
  intros Hc. induction l as [|x l [l' IH]]; simpl.
  - rewrite Hc. by exists [].
  - destruct (isWhiteSpace x); [by exists l'|by exists (x :: l)].
Qed.

Lemma trim_ends s :
  match trim s with
  | [] => True
  | c :: _ => isWhiteSpace c = false
  end ∧
  match rev (trim s) with
  | [] => True
  | c :: _ => isWhiteSpace c = false
  end.
Proof.
  unfold trim, trimEnd.
  destruct (trimStart_split s) as (_ & _ & _ & Hhd).
  destruct (trimStart_split (rev (trimStart s))) as (_ & _ & _ & Hlast).
  rewrite rev_involutive. split; [|exact Hlast].
  destruct (trimStart s) as [|c rest]; [done|].
  change (rev (c :: rest)) with (rev rest ++ [c]).
  destruct (trimStart_snoc c (rev rest) Hhd) as [l' ->].
  rewrite rev_app_distr. exact Hhd.
Qed.

Lemma last_rev {A} (l : list A) : last l = head (rev l).
Proof.
  induction l as [|x l _] using rev_ind; [done|].
  by rewrite last_snoc, rev_app_distr.
Qed.

(** X24.  With a chat open and a user signed in, [sendMessage] leaves
    everything as it was exactly when every code unit of the draft is
    white space; and the content of a message it stores begins and ends
    with a code unit that is not white space. *)
Theorem sendMessage_blank_iff e w chat uid ud :
  activeChat (ui w) = Some chat →
  currentUser (ui w) = Some uid →
  userData (ui w) = Some ud →
  (run sendMessage e w = w ↔ forallb isWhiteSpace (newMessage (ui w)) = true) ∧
  (messageLog (db w) (chat_id chat) !! pushKey e (pushed w) = None →
   ∀ m, messageLog (db (run sendMessage e w)) (chat_id chat)
          !! pushKey e (pushed w) = Some m →
        isWhiteSpace <$> head (content m) = Some false ∧
        isWhiteSpace <$> last (content m) = Some false).
Proof.
  intros Ha Hc Hu. rewrite <- trim_nil.
  pose proof (trim_ends (newMessage (ui w))) as [Hfirst Hlast].
  unfold sendMessage. unfold_m. simpl. rewrite Ha, Hc, Hu.
  destruct (trim (newMessage (ui w))) as [|c rest] eqn:Htrim; simpl.
  - split; [by destruct w|]. intros Hfresh m Hm. congruence.
  - split.
    + split; [|done]. intros Hsame. apply (f_equal requests) in Hsame.
      revert Hsame.
      destruct (accepts e (requests w)); simpl;
        [destruct (accepts e (S (requests w))); simpl;
         [destruct (accepts e (S (S (requests w)))); simpl|]|]; lia.
    + intros Hfresh m.
      assert (isWhiteSpace <$> last (c :: rest) = Some false) as Hl.
      { rewrite last_rev. destruct (rev (c :: rest)) as [|c' r'] eqn:E.
        - apply (f_equal (@length N)) in E. rewrite length_rev in E. done.
        - simpl. by rewrite Hlast. }
      unfold messageLog in *.
      destruct (accepts e (requests w)); simpl;
        [destruct (accepts e (S (requests w))); simpl;
         [destruct (accepts e (S (S (requests w)))); simpl|]|];
        rewrite ?lookup_insert_eq; simpl; rewrite ?lookup_insert_eq;
        intros Hm; try congruence;
        injection Hm as <-; simpl; by rewrite Hfirst.
Qed.

(** X24 at work: a draft of a tab, a no-break space and a line feed is not
    sent; the message stored for [" hello "] is ["hello"]. *)
Lemma sendMessage_blank_iff_witness :
  let duo := Sample.groupOf ["alice"; "bob"] ["alice"] in
  let blank :=
    Sample.world (setNewMessage [9; 160; 10]%N
                    (Sample.ui_of "alice" [duo] (Some duo) "" ""))
      (Sample.dbWith duo) in
  let w := Sample.world (Sample.ui_of "alice" [duo] (Some duo) " hello " "")
             (Sample.dbWith duo) in
  run sendMessage Sample.env0 blank = blank ∧
  ∀ m, messageLog (db (run sendMessage Sample.env0 w)) (chat_id duo)
         !! pushKey Sample.env0 0 = Some m →
       isWhiteSpace <$> head (content m) = Some false.
Proof.
  intros duo blank w. split.
  - apply (proj1 (sendMessage_blank_iff Sample.env0 blank duo (js "alice")
                    (Sample.user "alice") eq_refl eq_refl eq_refl)).
    reflexivity.
  - intros m Hm.
    apply (proj2 (sendMessage_blank_iff Sample.env0 w duo (js "alice")
                    (Sample.user "alice") eq_refl eq_refl eq_refl) eq_refl m Hm).
Defined.
